(** * AstroDrawChart: the aspect / event computation engine

  A shallow embedding of the numerical core of the repository:
  the transit calculator (class [TransitCalculator]), the
  astrological calculator ([AstrologicalCalculator]) and the aspect
  filters of [utils/astroUtils].

  JavaScript numbers are modelled as exact rationals extended with
  [NaN]: the rounding of IEEE doubles is not modelled.  The properties
  below are therefore stated where the two agree: on comparisons and
  ranges that rounding cannot move, on whole numbers of milliseconds,
  or with a margin left around a threshold.  Dates are their time
  value, an integral number of milliseconds, or the invalid date. *)

From Stdlib Require Import ZArith QArith Qabs Qround List Bool String Lia Lqa.
From Stdlib Require Import Sorting.Sorted Sorting.Permutation.
Import ListNotations.

Open Scope Q_scope.

(** ** JavaScript numbers and dates *)

Module JS.

(** A number is a finite value or NaN.  A property that is missing
    from an object reads as [undefined], which every arithmetic
    operator, [Math.abs] and every relational operator used below
    coerces to NaN; a missing numeric property is therefore held as
    [NaN].  The infinities only arise from a division by zero, which
    every call site below excludes by a guard; [div] maps that case
    to [NaN] and the lemmas never rely on it. *)
Inductive num : Type :=
| Fin (q : Q)
| NaN.

Definition lift1 (f : Q -> Q) (a : num) : num :=
  match a with Fin x => Fin (f x) | NaN => NaN end.

Definition lift2 (f : Q -> Q -> Q) (a b : num) : num :=
  match a, b with Fin x, Fin y => Fin (f x y) | _, _ => NaN end.

Definition add : num -> num -> num := lift2 Qplus.
Definition sub : num -> num -> num := lift2 Qminus.
Definition mul : num -> num -> num := lift2 Qmult.
Definition abs : num -> num := lift1 Qabs.

Definition div (a b : num) : num :=
  match a, b with
  | Fin x, Fin y => if Qeq_bool y 0 then NaN else Fin (x / y)
  | _, _ => NaN
  end.

(** Truncation toward zero (ToIntegerOrInfinity on a finite value). *)
Definition trunc (q : Q) : Z := Z.quot (Qnum q) (Zpos (Qden q)).

(** The [%] operator: the remainder takes the sign of the dividend;
    [x % 0] is NaN. *)
Definition rem (a b : num) : num :=
  match a, b with
  | Fin x, Fin y =>
      if Qeq_bool y 0 then NaN else Fin (x - y * inject_Z (trunc (x / y)))
  | _, _ => NaN
  end.

Definition Qltb (x y : Q) : bool := negb (Qle_bool y x).

(** Relational operators: any comparison with NaN is false. *)
Definition lt (a b : num) : bool :=
  match a, b with Fin x, Fin y => Qltb x y | _, _ => false end.
Definition le (a b : num) : bool :=
  match a, b with Fin x, Fin y => Qle_bool x y | _, _ => false end.
Definition gt (a b : num) : bool := lt b a.
Definition ge (a b : num) : bool := le b a.

Definition floor (a : num) : num :=
  match a with Fin x => Fin (inject_Z (Qfloor x)) | NaN => NaN end.

(** [parseFloat(x.toFixed(d))]: the nearest multiple of [10^-d], a tie
    going to the larger magnitude. *)
Definition toFixed (d : nat) (a : num) : num :=
  match a with
  | Fin x =>
      let s := inject_Z (10 ^ Z.of_nat d) in
      let n := inject_Z (Qfloor (Qabs x * s + (1 # 2))) in
      Fin (if Qltb x 0 then - (n / s) else n / s)
  | NaN => NaN
  end.

(** A [Date] holds an integral time value in milliseconds, or is the
    invalid date ([new Date(NaN)]).  The limit of 8.64e15 milliseconds
    on either side of the epoch, beyond which [new Date] gives the
    invalid date, is not modelled: no property below builds a date
    from a number that could pass it. *)
Inductive Date : Type :=
| Instant (ms : Z)
| InvalidDate.

Definition newDate (t : num) : Date :=
  match t with Fin q => Instant (trunc q) | NaN => InvalidDate end.

Definition getTime (d : Date) : num :=
  match d with Instant ms => Fin (inject_Z ms) | InvalidDate => NaN end.

Definition isFinite (a : num) : bool :=
  match a with Fin _ => true | NaN => false end.

End JS.

Import JS.

(** ** Shared data: zodiac signs, positions, lookup in objects *)

Inductive zodiac : Type :=
| Aries | Taurus | Gemini | Cancer | Leo | Virgo
| Libra | Scorpio | Sagittarius | Capricorn | Aquarius | Pisces.

Definition zodiac_eqb (a b : zodiac) : bool :=
match a, b with
| Aries, Aries | Taurus, Taurus | Gemini, Gemini | Cancer, Cancer
| Leo, Leo | Virgo, Virgo | Libra, Libra | Scorpio, Scorpio
| Sagittarius, Sagittarius | Capricorn, Capricorn
| Aquarius, Aquarius | Pisces, Pisces => true
| _, _ => false
end.

Definition signs : list zodiac :=
[Aries; Taurus; Gemini; Cancer; Leo; Virgo;
 Libra; Scorpio; Sagittarius; Capricorn; Aquarius; Pisces].

(** [signs[Math.floor(longitude / 30)]]; [None] is [undefined]. *)
Definition getZodiacSign (longitude : num) : option zodiac :=
match floor (div longitude (Fin 30)) with
| Fin i =>
    if Qle_bool 0 i then nth_error signs (Z.to_nat (Qfloor i)) else None
| NaN => None
end.

(** A position as the calculators build and read it.  [house] is
    [None] when no house data was given.  The strings made for display
    ([degree], the titles of aspects) and [isRetrograde], which is
    [longitudeSpeed < 0], are not carried. *)
Record Position : Type := mkPosition {
longitude : num;
longitudeSpeed : num;
sign : option zodiac;
house : option nat
}.

(** An object used as a dictionary: own string keys in insertion order,
  which is the order [Object.entries] and [Object.keys] enumerate. *)
Definition dict (A : Type) : Type := list (string * A).

(** The names every object inherits from [Object.prototype].  Reading
  [d[k]] for one of them finds the inherited member where [d] has no
  own key [k]; [lookup] below reads own keys only, so a property about
  a name that comes from outside the engine assumes it is none of
  these. *)
Definition inheritedNames : list string :=
["constructor"; "__defineGetter__"; "__defineSetter__"; "hasOwnProperty";
 "__lookupGetter__"; "__lookupSetter__"; "isPrototypeOf";
 "propertyIsEnumerable"; "toString"; "valueOf"; "__proto__";
 "toLocaleString"]%string.

Fixpoint lookup {A : Type} (k : string) (d : dict A) : option A :=
match d with
| [] => None
| (k', v) :: rest => if String.eqb k k' then Some v else lookup k rest
end.

(** [{...a, ...b}] or an assignment [d[k] = v]: an existing key keeps
  its place and takes the new value, a new key goes last. *)
Fixpoint assign {A : Type} (k : string) (v : A) (d : dict A) : dict A :=
match d with
| [] => [(k, v)]
| (k', v') :: rest =>
    if String.eqb k k' then (k', v) :: rest else (k', v') :: assign k v rest
end.

Definition spread {A : Type} (a b : dict A) : dict A :=
fold_left (fun acc kv => assign (fst kv) (snd kv) acc) b a.

(** ** Angular geometry (identical in both calculators) *)

Definition calculateAngleBetweenPlanets (long1 long2 : num) : num :=
let angle := abs (sub long1 long2) in
if gt angle (Fin 180) then sub (Fin 360) angle else angle.

(** The result of running a loop that need not terminate, with a bound
  on the number of iterations the model is willing to run. *)
Inductive outcome (A : Type) : Type :=
| Returns (a : A)
| OutOfFuel.
Arguments Returns {A} a.
Arguments OutOfFuel {A}.

(** What the Swiss Ephemeris hands back for one body at one instant:
  a result object with its flag, or an exception. *)
Inductive CalcResult : Type :=
| Calc (rflag : Z) (lon speed : num)
| Throws.

(** One entry of a house array: [{house, cusp, sign, degree}]. *)
Record House : Type := mkHouse {
houseIndex : nat;
cusp : num;
houseSign : option zodiac
}.

(** [cusps[i]]: reading past the end of an array gives [undefined]. *)
Definition cuspAt (cusps : list num) (i : nat) : num := nth i cusps NaN.

(** [array.includes(s)] on an array of strings. *)
Definition includes (l : list string) (s : string) : bool :=
existsb (String.eqb s) l.

(** ** class TransitCalculator *)

Module TransitCalculator.

Inductive body : Type :=
| SE_SUN | SE_MOON | SE_MERCURY | SE_VENUS | SE_MARS | SE_JUPITER
| SE_SATURN | SE_URANUS | SE_NEPTUNE | SE_PLUTO | SE_TRUE_NODE
| SE_CHIRON | SE_MEAN_APOG.

Definition planets : dict body :=
  [("Sun", SE_SUN); ("Moon", SE_MOON); ("Mercury", SE_MERCURY);
   ("Venus", SE_VENUS); ("Mars", SE_MARS); ("Jupiter", SE_JUPITER);
   ("Saturn", SE_SATURN); ("Uranus", SE_URANUS); ("Neptune", SE_NEPTUNE);
   ("Pluto", SE_PLUTO); ("NNode", SE_TRUE_NODE); ("Chiron", SE_CHIRON);
   ("Lilith", SE_MEAN_APOG)]%string.

Record AspectDef : Type := mkAspectDef { angle : Q; name : string }.

Definition transitAspects : dict AspectDef :=
  [("CONJUNCTION", mkAspectDef 0 "conjunction");
   ("OPPOSITION", mkAspectDef 180 "opposition");
   ("TRINE", mkAspectDef 120 "trine");
   ("SQUARE", mkAspectDef 90 "square");
   ("SEXTILE", mkAspectDef 60 "sextile")]%string.

Record Orbs : Type := mkOrbs { major : Q; minor : Q }.

Definition transitOrbs : dict Orbs :=
  [("SATURN", mkOrbs 2 1); ("URANUS", mkOrbs 2 1);
   ("NEPTUNE", mkOrbs 2 1); ("PLUTO", mkOrbs 2 1);
   ("JUPITER", mkOrbs (3 # 2) (1 # 2));
   ("SUN", mkOrbs 1 (1 # 2)); ("MOON", mkOrbs 1 (1 # 2));
   ("MERCURY", mkOrbs 1 (1 # 2)); ("VENUS", mkOrbs 1 (1 # 2));
   ("MARS", mkOrbs 1 (1 # 2));
   ("NORTH_NODE", mkOrbs 1 (1 # 2)); ("CHIRON", mkOrbs 1 (1 # 2));
   ("LILITH", mkOrbs 1 (1 # 2))]%string.

Definition majorAspects : list string :=
  ["conjunction"; "opposition"; "trine"; "square"; "sextile"]%string.
Definition minorAspects : list string :=
  ["quincunx"; "semisextile"; "semisquare"; "sesquiquadrate"]%string.

(** The orb for a transiting body, whose name is taken not to be among
    [inheritedNames]. *)
Definition getTransitOrb (transitPlanet aspectName : string) : Q :=
  let planetOrbs :=
    match lookup transitPlanet transitOrbs with
    | Some o => o
    | None => mkOrbs 1 (1 # 2)
    end in
  let isMajorAspect := includes majorAspects aspectName in
  if isMajorAspect then major planetOrbs else minor planetOrbs.

(** The object [findTransitAspect] returns. *)
Record AspectData : Type := mkAspectData {
  matched : AspectDef;
  matchOrb : num;
  matchExactness : num;
  targetAngle : Q
}.

(** The [for ... of Object.entries(this.transitAspects)] loop: the key
    of the entry is what [getTransitOrb] receives. *)
Fixpoint findAmong (entries : dict AspectDef) (a : num)
    (transitPlanet : string) : option AspectData :=
  match entries with
  | [] => None
  | (aspectName, aspectData) :: rest =>
      let orb := getTransitOrb transitPlanet aspectName in
      let angleDiff := abs (sub a (Fin (angle aspectData))) in
      if le angleDiff (Fin orb) then
        Some (mkAspectData aspectData angleDiff
                (mul (div (sub (Fin orb) angleDiff) (Fin orb)) (Fin 100))
                (angle aspectData))
      else findAmong rest a transitPlanet
  end.

Definition findTransitAspect (transitLong natalLong : num)
    (transitPlanet : string) : option AspectData :=
  let a := calculateAngleBetweenPlanets transitLong natalLong in
  findAmong transitAspects a transitPlanet.

Definition isTransitApplying (transitPos natalPos : Position)
    (target : num) : bool :=
  let speed := longitudeSpeed transitPos in
  let currentAngle :=
    calculateAngleBetweenPlanets (longitude transitPos) (longitude natalPos) in
  let futureTransitLong := rem (add (longitude transitPos) speed) (Fin 360) in
  let futureAngle :=
    calculateAngleBetweenPlanets futureTransitLong (longitude natalPos) in
  lt (abs (sub futureAngle target)) (abs (sub currentAngle target)).

Definition estimatePeakDate (transitPos natalPos : Position)
    (target : num) (currentDate : Date) : option Date :=
  if lt (abs (longitudeSpeed transitPos)) (Fin (1 # 1000)) then None
  else
    let currentAngle :=
      calculateAngleBetweenPlanets (longitude transitPos) (longitude natalPos) in
    let angleDifference := sub target currentAngle in
    let adjustedDiff :=
      if gt (abs angleDifference) (Fin 180) then
        if gt angleDifference (Fin 0) then sub angleDifference (Fin 360)
        else add angleDifference (Fin 360)
      else angleDifference in
    let daysToExact := div adjustedDiff (longitudeSpeed transitPos) in
    if gt (abs daysToExact) (Fin 365) then None
    else
      Some (newDate
              (add (getTime currentDate)
                 (mul (mul (mul (mul daysToExact (Fin 24)) (Fin 60)) (Fin 60))
                    (Fin 1000)))).

(** One entry of [transits.aspects]. *)
Record Aspect : Type := mkAspect {
  transitingPlanet : string;
  transitingSign : option zodiac;
  natalPlanet : string;
  natalSign : option zodiac;
  aspect : string;
  orb : num;
  exactness : num;
  applying : bool;
  peakDate : option Date
}.

Record Summary : Type := mkSummary {
  total : nat;
  nApplying : nat;
  nSeparating : nat;
  exact : nat;
  byAspect : dict nat;
  byTransitingPlanet : dict nat;
  byNatalPlanet : dict nat
}.

Definition emptySummary : Summary := mkSummary 0 0 0 0 [] [] [].

(** [d[k] = (d[k] || 0) + 1], for a key [k] that is not one of
    [inheritedNames]. *)
Definition bump (k : string) (d : dict nat) : dict nat :=
  assign k (match lookup k d with Some n => n + 1 | None => 1 end)%nat d.

(** [aspect.aspect] already holds the name, a string, so the
    [aspect.aspect.name] the histogram is keyed by reads as
    [undefined] and the key is the string "undefined". *)
Definition updateTransitSummary (summary : Summary) (a : Aspect) : Summary :=
  mkSummary
    (total summary + 1)
    (if applying a then nApplying summary + 1 else nApplying summary)
    (if applying a then nSeparating summary else nSeparating summary + 1)
    (if lt (orb a) (Fin (1 # 2)) then exact summary + 1 else exact summary)
    (bump "undefined" (byAspect summary))
    (bump (transitingPlanet a) (byTransitingPlanet summary))
    (bump (natalPlanet a) (byNatalPlanet summary)).

(** [Array.prototype.sort] with a comparator: a stable sort.  The
  element being inserted preceded the ones already placed, so it
  goes in front of every element it does not compare greater
  than. *)
Section Sort.
Context {A : Type} (cmp : A -> A -> num).

Fixpoint insert (x : A) (l : list A) : list A :=
  match l with
  | [] => [x]
  | y :: ys => if gt (cmp x y) (Fin 0) then y :: insert x ys else x :: l
  end.

Definition sort (l : list A) : list A := fold_right insert [] l.
End Sort.

Definition byOrb (a b : Aspect) : num := sub (orb a) (orb b).

(** The object [determinePlanetHouse] returns; the fallback object is
    the only one that carries [distanceFromCusp]. *)
Record HouseInfo : Type := mkHouseInfo {
  number : nat;
  cuspSign : option zodiac;
  distanceFromCusp : option num
}.

Definition normalizeLongitude (planetLongitude : num) : num :=
  let normalizedLong := rem planetLongitude (Fin 360) in
  if lt normalizedLong (Fin 0) then add normalizedLong (Fin 360)
  else normalizedLong.

(** The [for (let i = 0; i < 12; i++)] loop, [remaining] iterations
    from index [i] on; [None] when the loop runs to its end. *)
Fixpoint houseLoop (cusps : list num) (normalizedLong : num)
    (i remaining : nat) : option nat :=
  match remaining with
  | O => None
  | S remaining' =>
      let currentCusp := cuspAt cusps i in
      let nextCusp := cuspAt cusps ((i + 1) mod 12) in
      let houseStart := currentCusp in
      let houseEnd := nextCusp in
      if lt houseEnd houseStart then
        if ge normalizedLong houseStart || lt normalizedLong houseEnd
        then Some i
        else houseLoop cusps normalizedLong (i + 1) remaining'
      else
        if ge normalizedLong houseStart && lt normalizedLong houseEnd
        then Some i
        else houseLoop cusps normalizedLong (i + 1) remaining'
  end.

Definition determinePlanetHouse (planetLongitude : num)
    (houseCusps : list House) : HouseInfo :=
  let normalizedLong := normalizeLongitude planetLongitude in
  let cusps := map cusp houseCusps in
  match houseLoop cusps normalizedLong 0 12 with
  | Some i =>
      mkHouseInfo (i + 1) (getZodiacSign (cuspAt cusps i)) None
  | None =>
      mkHouseInfo 1 (getZodiacSign (cuspAt cusps 0)) (Some (Fin 0))
  end.

(** The binary search of [findExactMoment]: the [while] loop, run for
    at most [fuel] tests of its condition. *)
Fixpoint bisect (fuel : nat) (checkFunction : Date -> bool)
    (precisionMs : num) (low high : Date) : outcome Date :=
  match fuel with
  | O => OutOfFuel
  | S fuel' =>
      if gt (sub (getTime high) (getTime low)) precisionMs then
        let mid := newDate (div (add (getTime low) (getTime high)) (Fin 2)) in
        if checkFunction mid
        then bisect fuel' checkFunction precisionMs low mid
        else bisect fuel' checkFunction precisionMs mid high
      else Returns low
  end.

Definition findExactMoment (fuel : nat) (startDate endDate : Date)
    (checkFunction : Date -> bool) (precision : num)
    : outcome (option Date) :=
  let low := startDate in
  let high := endDate in
  let precisionMs := mul (mul precision (Fin 60)) (Fin 1000) in
  if checkFunction low then Returns (Some low)
  else if negb (checkFunction high) then Returns None
  else
    match bisect fuel checkFunction precisionMs low high with
    | Returns d => Returns (Some d)
    | OutOfFuel => OutOfFuel
    end.

(** The default of the [precision] parameter, in minutes. *)
Definition defaultPrecision : num := Fin 1.

Section WithEphemeris.

(** The Swiss Ephemeris, an external collaborator. *)
Variable swe_calc_ut : num -> body -> CalcResult.
Variable dateToJulianDay : Date -> num.

(** The body of the loop of [calculatePlanetaryPositions].  The object
    it builds has no [longitudeSpeed] property (the line is commented
    out in the source), so that property reads as [undefined]. *)
Definition planetData (houses : option (list House)) (lon : num) : Position :=
  mkPosition (toFixed 3 lon) NaN (getZodiacSign lon)
    (match houses with
     | Some hs => Some (number (determinePlanetHouse lon hs))
     | None => None
     end).

Fixpoint positionsOf (julianDay : num) (houses : option (list House))
    (entries : dict body) (positions : dict Position) : dict Position :=
  match entries with
  | [] => positions
  | (planetName, planetId) :: rest =>
      match swe_calc_ut julianDay planetId with
      | Calc rflag lon _ =>
          if (0 <=? rflag)%Z
          then positionsOf julianDay houses rest
                 (assign planetName (planetData houses lon) positions)
          else positionsOf julianDay houses rest positions
      | Throws => positionsOf julianDay houses rest positions
      end
  end.

Definition calculatePlanetaryPositions (julianDay : num)
    (houses : option (list House)) : dict Position :=
  positionsOf julianDay houses planets [].

(** The state the two nested loops of [calculateTransits] update. *)
Definition transitState : Type := (list Aspect * Summary)%type.

Definition transitStep (transitDate : Date)
    (transitPlanet : string) (transitPos : Position)
    (st : transitState) (natal : string * Position) : transitState :=
  let (natalPlanet, natalPos) := natal in
  match findTransitAspect (longitude transitPos) (longitude natalPos)
          transitPlanet with
  | Some aspectData =>
      let a :=
        mkAspect transitPlanet (sign transitPos) natalPlanet (sign natalPos)
          (name (matched aspectData))
          (matchOrb aspectData)
          (matchExactness aspectData)
          (isTransitApplying transitPos natalPos
             (Fin (targetAngle aspectData)))
          (estimatePeakDate transitPos natalPos
             (Fin (targetAngle aspectData)) transitDate) in
      (fst st ++ [a], updateTransitSummary (snd st) a)
  | None => st
  end.

Definition transitLoops (transitDate : Date)
    (transitPositions natalPositions : dict Position) : transitState :=
  fold_left
    (fun st transit =>
       fold_left (transitStep transitDate (fst transit) (snd transit))
         natalPositions st)
    transitPositions ([], emptySummary).

(** What [calculateTransits] returns. *)
Record Transits : Type := mkTransits {
  julianDay : num;
  transitPositions : dict Position;
  aspects : list Aspect;
  summary : Summary
}.

Definition transitsFrom (transitDate : Date) (jd : num)
    (positions natalPositions : dict Position) : Transits :=
  let st := transitLoops transitDate positions natalPositions in
  mkTransits jd positions (sort byOrb (fst st)) (snd st).

Definition calculateTransits (natalPositions : dict Position)
    (natalHouses : option (list House)) (transitDate : Date) : Transits :=
  let transitJulianDay := dateToJulianDay transitDate in
  let positions := calculatePlanetaryPositions transitJulianDay natalHouses in
  transitsFrom transitDate transitJulianDay positions natalPositions.

End WithEphemeris.

(** *** The moon phase and the events of a period *)

Record MoonPhase : Type := mkMoonPhase {
  phase : string;
  phaseName : string;
  moonAge : num
}.

(** The chain of tests on the age of the moon; both [phase] and
    [phaseName] receive the string it selects. *)
Definition phaseOfAge (age : num) : string :=
  if lt age (Fin (184566 # 100000)) then "New Moon"
  else if lt age (Fin (553699 # 100000)) then "Waxing Crescent"
  else if lt age (Fin (922831 # 100000)) then "First Quarter"
  else if lt age (Fin (1291963 # 100000)) then "Waxing Gibbous"
  else if lt age (Fin (1661096 # 100000)) then "Full Moon"
  else if lt age (Fin (2030228 # 100000)) then "Waning Gibbous"
  else if lt age (Fin (2399361 # 100000)) then "Last Quarter"
  else "Waning Crescent".

Definition calculateMoonPhase (date : Date) : MoonPhase :=
  let jd := add (div (getTime date) (Fin 86400000)) (Fin (24405875 # 10)) in
  let age :=
    rem (sub jd (Fin (24515495 # 10))) (Fin (2953058867 # 100000000)) in
  mkMoonPhase (phaseOfAge age) (phaseOfAge age) age.

(** What [checkMoonPhaseChange] returns when the phase changes (the
    formatted time, a display string, is not carried). *)
Record PhaseChange : Type := mkPhaseChange {
  fromPhase : string;
  fromPhaseName : string;
  toPhase : string;
  toPhaseName : string;
  exactTime : option Date
}.

Definition checkMoonPhaseChange (fuel : nat) (startDate endDate : Date)
    : outcome (option PhaseChange) :=
  let startPhase := calculateMoonPhase startDate in
  let endPhase := calculateMoonPhase endDate in
  if negb (String.eqb (phase startPhase) (phase endPhase)) then
    match findExactMoment fuel startDate endDate
            (fun date =>
               String.eqb (phase (calculateMoonPhase date)) (phase endPhase))
            defaultPrecision with
    | Returns exactMoment =>
        Returns (Some (mkPhaseChange (phase startPhase) (phaseName startPhase)
                         (phase endPhase) (phaseName endPhase) exactMoment))
    | OutOfFuel => OutOfFuel
    end
  else Returns None.

(** One entry of the list [getTransitsInPeriod] returns. *)
Record DayTransits : Type := mkDayTransits {
  dayDate : Date;
  dayPositions : dict Position;
  dayTransits : list Aspect
}.

Section WithCalendar.

Variable swe_calc_ut : num -> body -> CalcResult.
Variable dateToJulianDay : Date -> num.
(** [d.setDate(d.getDate() + n)], the calendar arithmetic of the
    runtime in local time. *)
Variable plusDays : Date -> num -> Date.

(** The [while (currentDate <= endDate)] loop of [getTransitsInPeriod],
    run for at most [fuel] tests of its condition. *)
Fixpoint periodLoop (fuel : nat) (natalPositions : dict Position)
    (houses : option (list House)) (currentDate endDate : Date)
    (stepDays : num) (transitPeriod : list DayTransits)
    : outcome (list DayTransits) :=
  match fuel with
  | O => OutOfFuel
  | S fuel' =>
      if le (getTime currentDate) (getTime endDate) then
        let day :=
          calculateTransits swe_calc_ut dateToJulianDay natalPositions
            houses currentDate in
        periodLoop fuel' natalPositions houses
          (plusDays currentDate stepDays) endDate stepDays
          (transitPeriod
           ++ [mkDayTransits currentDate (transitPositions day)
                 (filter (fun t => le (orb t) (Fin 1)) (aspects day))])
      else Returns transitPeriod
  end.

Definition getTransitsInPeriod (fuel : nat) (natalPositions : dict Position)
    (houses : option (list House)) (startDate endDate : Date)
    (stepDays : num) : outcome (list DayTransits) :=
  periodLoop fuel natalPositions houses startDate endDate stepDays [].

End WithCalendar.

End TransitCalculator.

(** ** utils/astroUtils.js *)

Module AstroUtils.

(** One entry of the aspect list of a chart, as [calculateNatalAspects]
    builds it. *)
Record NatalAspect : Type := mkNatalAspect {
  planet1 : string;
  planet2 : string;
  aspect : string;
  angle : Q;
  orb : num;
  applying : bool
}.

Definition lowerChar (c : Ascii.ascii) : Ascii.ascii :=
  let n := Ascii.nat_of_ascii c in
  if ((65 <=? n) && (n <=? 90))%nat then Ascii.ascii_of_nat (n + 32) else c.

Fixpoint toLowerCase (s : string) : string :=
  match s with
  | EmptyString => EmptyString
  | String c rest => String (lowerChar c) (toLowerCase rest)
  end.

(** [group.includes(sign)]; an [undefined] sign is in no group. *)
Definition inGroup (group : list zodiac) (s : option zodiac) : bool :=
  match s with
  | Some z => existsb (zodiac_eqb z) group
  | None => false
  end.

Definition isCompatibleByElement (sign1 sign2 : option zodiac) : bool :=
  let groups :=
    [[Aries; Leo; Sagittarius];
     [Taurus; Virgo; Capricorn];
     [Gemini; Libra; Aquarius];
     [Cancer; Scorpio; Pisces]] in
  existsb (fun group => inGroup group sign1 && inGroup group sign2) groups.

Definition isCompatibleByPolarity (sign1 sign2 : option zodiac) : bool :=
  let groups :=
    [[Aries; Gemini; Leo; Libra; Sagittarius; Aquarius];
     [Taurus; Cancer; Virgo; Scorpio; Capricorn; Pisces]] in
  existsb (fun group => inGroup group sign1 && inGroup group sign2) groups.

(** [sign1 !== sign2] *)
Definition signDiffers (sign1 sign2 : option zodiac) : bool :=
  match sign1, sign2 with
  | Some a, Some b => negb (zodiac_eqb a b)
  | None, None => false
  | _, _ => true
  end.

(** A string is truthy when it is not empty. *)
Definition truthy (s : string) : bool :=
  match s with EmptyString => false | String _ _ => true end.

(** The callback of the [forEach] in [filterAspects]: [None] is the
    TypeError raised by reading [.sign] of a body that is not in
    [positions]; otherwise whether the aspect is pushed.  The names of
    the bodies are taken not to be among [inheritedNames]. *)
Definition keeps (positions : dict Position) (a : NatalAspect) : option bool :=
  let aspectName := toLowerCase (aspect a) in
  match lookup (planet1 a) positions, lookup (planet2 a) positions with
  | Some p1, Some p2 =>
      let sign1 := sign p1 in
      let sign2 := sign p2 in
      if String.eqb (planet1 a) "NNode" && String.eqb aspectName "opposition"
      then Some false
      else if String.eqb aspectName "square" && isCompatibleByElement sign1 sign2
      then Some false
      else if String.eqb aspectName "trine"
              && negb (isCompatibleByElement sign1 sign2)
      then Some false
      else if String.eqb aspectName "sextile"
              && negb (isCompatibleByPolarity sign1 sign2)
      then Some false
      else if String.eqb aspectName "conjunction" && signDiffers sign1 sign2
      then Some false
      else Some (truthy (planet1 a) && truthy (planet2 a))
  | _, _ => None
  end.

(** [filterAspects(inputAspects, positions = [])]: the function has
    two parameters; a third argument at a call is discarded. *)
Fixpoint filterAspects (inputAspects : list NatalAspect)
    (positions : dict Position) : option (list NatalAspect) :=
  match inputAspects with
  | [] => Some []
  | a :: rest =>
      match keeps positions a with
      | None => None
      | Some keep =>
          match filterAspects rest positions with
          | None => None
          | Some aspects => Some (if keep then a :: aspects else aspects)
          end
      end
  end.

(** *** The data handed to the chart renderer *)

Definition planetsToFilter : list string :=
  ["Sun"; "Moon"; "Mercury"; "Venus"; "Mars"; "Jupiter"; "Saturn";
   "Uranus"; "Neptune"; "Pluto"; "Chiron"; "Lilith"; "NNode"; "SNode";
   "AS"; "MC"]%string.

Definition anglesToFilter : list string :=
  ["Sun"; "Moon"; "Mercury"; "Venus"; "Mars"; "Jupiter"; "Saturn";
   "Uranus"; "Neptune"; "Pluto"; "Chiron"; "Lilith"; "NNode";
   "SNode"]%string.

(** The longitude of a body, [None] (null) when the body is missing.
    The longitude of a [Position] is a number, never an array. *)
Definition getPlanetPosition (planetsData : dict Position)
    (planetName : string) : option num :=
  match lookup planetName planetsData with
  | Some p => Some (longitude p)
  | None => None
  end.

Definition processHouses (houses : list House) : list num :=
  map cusp houses.

Definition processPlanets (planets : dict Position) : dict (list num) :=
  map (fun kv => (fst kv, [longitude (snd kv)])) planets.

Definition filterPlanets (planetsData : dict Position)
    (planetsToKeep : list string) : dict Position :=
  fold_left
    (fun planets planetName =>
       match lookup planetName planetsData with
       | Some p => assign planetName p planets
       | None => planets
       end)
    planetsToKeep [].

Definition filterAspectsByPlanets (aspectsData : list NatalAspect)
    (planetsToKeep : list string) : list NatalAspect :=
  filter
    (fun a => includes planetsToKeep (planet1 a)
              && includes planetsToKeep (planet2 a))
    aspectsData.

(** One line of the chart: an aspect between two points. *)
Record ChartAspect : Type := mkChartAspect {
  pointName : string;
  pointPosition : option num;
  toPointName : string;
  toPointPosition : option num;
  lineName : string;
  lineDegree : Q;
  lineColor : string;
  lineOrbit : num
}.

(** The [switch] on the aspect: the case of the sextile has no [break]
    and runs on into the case of the trine. *)
Definition colorOf (aspectName : string) : string :=
  if String.eqb aspectName "opposition" || String.eqb aspectName "square"
  then "#FC0D0D"
  else if String.eqb aspectName "sextile"
  then let overwritten := "#0088f0ff"%string in "#0075cfff"
  else if String.eqb aspectName "trine" then "#0075cfff"
  else "".

Definition processAspect (planets : dict Position) (a : NatalAspect)
    : list ChartAspect :=
  let color := colorOf (aspect a) in
  let aspectName := toLowerCase (aspect a) in
  if (String.eqb (planet1 a) "NNode" || String.eqb (planet2 a) "NNode")
     && String.eqb aspectName "opposition"
  then []
  else if String.eqb aspectName "conjunction" then []
  else if truthy (planet1 a) && truthy (planet2 a) then
    [mkChartAspect (planet1 a) (getPlanetPosition planets (planet1 a))
       (planet2 a) (getPlanetPosition planets (planet2 a))
       aspectName (angle a) color (orb a)]
  else [].

Definition processAspects (inputAspects : list NatalAspect)
    (planets : dict Position) : list ChartAspect :=
  flat_map (processAspect planets) inputAspects.

Record AstroChartData : Type := mkAstroChartData {
  outPlanets : dict (list num);
  outCusps : list num;
  outAspects : list ChartAspect
}.

Definition toAstrochart (planets : dict Position) (houses : list House)
    (aspects : list NatalAspect) : AstroChartData :=
  mkAstroChartData
    (processPlanets (filterPlanets planets planetsToFilter))
    (processHouses houses)
    (match aspects with
     | [] => []
     | _ :: _ =>
         processAspects (filterAspectsByPlanets aspects anglesToFilter) planets
     end).

End AstroUtils.

(** ** class AstrologicalCalculator *)

(** A result that may be a thrown [Error]. *)
Inductive result (A : Type) : Type :=
| Ok (a : A)
| Error (message : string).
Arguments Ok {A} a.
Arguments Error {A} message.

Module AstrologicalCalculator.

Import AstroUtils.

Inductive body : Type :=
| SE_SUN | SE_MOON | SE_MERCURY | SE_VENUS | SE_MARS | SE_JUPITER
| SE_SATURN | SE_URANUS | SE_NEPTUNE | SE_PLUTO | SE_TRUE_NODE
| SE_CHIRON | SE_MEAN_APOG | SE_JUNO.

Definition planets : dict body :=
  [("Sun", SE_SUN); ("Moon", SE_MOON); ("Mercury", SE_MERCURY);
   ("Venus", SE_VENUS); ("Mars", SE_MARS); ("Jupiter", SE_JUPITER);
   ("Saturn", SE_SATURN); ("Uranus", SE_URANUS); ("Neptune", SE_NEPTUNE);
   ("Pluto", SE_PLUTO); ("NNode", SE_TRUE_NODE); ("Chiron", SE_CHIRON);
   ("Lilith", SE_MEAN_APOG); ("Juno", SE_JUNO)]%string.

(** Natal aspect definitions, each with its own orb. *)
Record NatalDef : Type := mkNatalDef {
  natalAngle : Q;
  natalOrb : Q;
  natalName : string
}.

Definition aspects : dict NatalDef :=
  [("CONJUNCTION", mkNatalDef 0 8 "conjunction");
   ("OPPOSITION", mkNatalDef 180 8 "opposition");
   ("TRINE", mkNatalDef 120 8 "trine");
   ("SQUARE", mkNatalDef 90 8 "square");
   ("SEXTILE", mkNatalDef 60 6 "sextile")]%string.

Record AspectDef : Type := mkAspectDef { angle : Q; name : string }.

Definition transitAspects : dict AspectDef :=
  [("CONJUNCTION", mkAspectDef 0 "conjunction");
   ("OPPOSITION", mkAspectDef 180 "opposition");
   ("TRINE", mkAspectDef 120 "trine");
   ("SQUARE", mkAspectDef 90 "square");
   ("SEXTILE", mkAspectDef 60 "sextile")]%string.

Record Orbs : Type := mkOrbs { major : Q; minor : Q }.

Definition transitOrbs : dict Orbs :=
  [("Saturn", mkOrbs 2 1); ("Uranus", mkOrbs 2 1);
   ("Neptune", mkOrbs 2 1); ("Pluto", mkOrbs 2 1);
   ("Jupiter", mkOrbs (3 # 2) (1 # 2));
   ("Sun", mkOrbs 1 (1 # 2)); ("Moon", mkOrbs 1 (1 # 2));
   ("Mercury", mkOrbs 1 (1 # 2)); ("Venus", mkOrbs 1 (1 # 2));
   ("Mars", mkOrbs 1 (1 # 2));
   ("NNode", mkOrbs 1 (1 # 2)); ("SNode", mkOrbs 1 (1 # 2));
   ("Chiron", mkOrbs 1 (1 # 2)); ("Lilith", mkOrbs 1 (1 # 2))]%string.

Definition majorAspects : list string :=
  ["conjunction"; "opposition"; "trine"; "square"; "sextile"]%string.
Definition minorAspects : list string :=
  ["quincunx"; "semisextile"; "semisquare"; "sesquiquadrate"]%string.

(** The orb for a transiting body, whose name is taken not to be among
    [inheritedNames]. *)
Definition getTransitOrb (transitPlanet aspectName : string) : Q :=
  let planetOrbs :=
    match lookup transitPlanet transitOrbs with
    | Some o => o
    | None => mkOrbs 1 (1 # 2)
    end in
  if includes majorAspects aspectName then major planetOrbs
  else minor planetOrbs.

Record AspectData : Type := mkAspectData {
  matched : AspectDef;
  matchOrb : num;
  targetAngle : Q
}.

(** The loop of [findTransitAspect]: here [getTransitOrb] receives the
    name held in the entry, not the key. *)
Fixpoint findAmong (entries : dict AspectDef) (a : num)
    (transitPlanet : string) : option AspectData :=
  match entries with
  | [] => None
  | (_, aspectData) :: rest =>
      let orb := getTransitOrb transitPlanet (name aspectData) in
      let angleDiff := abs (sub a (Fin (angle aspectData))) in
      if le angleDiff (Fin orb) then
        Some (mkAspectData aspectData angleDiff (angle aspectData))
      else findAmong rest a transitPlanet
  end.

Definition findTransitAspect (transitLong natalLong : num)
    (transitPlanet : string) : option AspectData :=
  let a := calculateAngleBetweenPlanets transitLong natalLong in
  findAmong transitAspects a transitPlanet.

Definition isTransitApplying (transitPos natalPos : Position)
    (target : num) : bool :=
  let speed := longitudeSpeed transitPos in
  let currentAngle :=
    calculateAngleBetweenPlanets (longitude transitPos) (longitude natalPos) in
  let futureTransitLong :=
    rem (add (longitude transitPos) (div speed (Fin 24))) (Fin 360) in
  let futureAngle :=
    calculateAngleBetweenPlanets futureTransitLong (longitude natalPos) in
  lt (abs (sub futureAngle target)) (abs (sub currentAngle target)).

Definition estimatePeakDate (transitPos natalPos : Position)
    (target : num) (currentDate : Date) : option Date :=
  if lt (abs (longitudeSpeed transitPos)) (Fin (1 # 1000)) then None
  else
    let currentAngle :=
      calculateAngleBetweenPlanets (longitude transitPos) (longitude natalPos) in
    let angleDifference := sub target currentAngle in
    let adjustedDiff :=
      if gt (abs angleDifference) (Fin 180) then
        if gt angleDifference (Fin 0) then sub angleDifference (Fin 360)
        else add angleDifference (Fin 360)
      else angleDifference in
    let daysToExact := div adjustedDiff (longitudeSpeed transitPos) in
    if gt (abs daysToExact) (mul (Fin 365) (Fin 5)) then None
    else
      Some (newDate
              (add (getTime currentDate)
                 (mul (mul (mul (mul daysToExact (Fin 24)) (Fin 60)) (Fin 60))
                    (Fin 1000)))).

Fixpoint findNatalAspect_in (entries : dict NatalDef) (a : num)
    : option NatalDef :=
  match entries with
  | [] => None
  | (_, aspectData) :: rest =>
      if le (abs (sub a (Fin (natalAngle aspectData))))
            (Fin (natalOrb aspectData))
      then Some aspectData
      else findNatalAspect_in rest a
  end.

Definition findNatalAspect (a : num) : option NatalDef :=
  findNatalAspect_in aspects a.

Definition isNatalAspectApplying (planet1 planet2 : Position)
    (aspectAngle : num) : bool :=
  let currentAngle :=
    calculateAngleBetweenPlanets (longitude planet1) (longitude planet2) in
  let futureAngle :=
    calculateAngleBetweenPlanets
      (add (longitude planet1) (div (longitudeSpeed planet1) (Fin 24)))
      (add (longitude planet2) (div (longitudeSpeed planet2) (Fin 24))) in
  lt (abs (sub futureAngle aspectAngle)) (abs (sub currentAngle aspectAngle)).

(** The same loop over the twelve cusps as in the transit calculator;
    the object returned only holds [number]. *)
Definition determinePlanetHouse (planetLongitude : num)
    (houseCusps : list House) : nat :=
  let normalizedLong := TransitCalculator.normalizeLongitude planetLongitude in
  let cusps := map cusp houseCusps in
  match TransitCalculator.houseLoop cusps normalizedLong 0 12 with
  | Some i => i + 1
  | None => 1
  end.

Definition filterAspect (planet1 planet2 : string) (a : NatalDef) : bool :=
  negb ((String.eqb planet1 "NNode" || String.eqb planet2 "NNode")
        && String.eqb (natalName a) "opposition").

(** The body shared by the two double loops of [calculateNatalAspects]. *)
Definition natalAspectOf (p1 p2 : string * Position) : list NatalAspect :=
  let a := calculateAngleBetweenPlanets (longitude (snd p1))
             (longitude (snd p2)) in
  match findNatalAspect a with
  | Some found =>
      if filterAspect (fst p1) (fst p2) found then
        [mkNatalAspect (fst p1) (fst p2) (natalName found) (natalAngle found)
           (toFixed 2 (abs (sub a (Fin (natalAngle found)))))
           (isNatalAspectApplying (snd p1) (snd p2) (Fin (natalAngle found)))]
      else []
  | None => []
  end.

(** [for i ... for j = i + 1 ...] over the entries of one object. *)
Fixpoint planetPairs (positions : dict Position)
    : list ((string * Position) * (string * Position)) :=
  match positions with
  | [] => []
  | p :: rest => map (pair p) rest ++ planetPairs rest
  end.

(** The second double loop: the angle of index [i] is paired with the
    planets from index [i + 1] on. *)
Fixpoint anglePairs (angles : dict Position) (i : nat)
    (positions : dict Position)
    : list ((string * Position) * (string * Position)) :=
  match angles with
  | [] => []
  | a :: rest =>
      map (pair a) (skipn (i + 1) positions) ++ anglePairs rest (i + 1) positions
  end.

(** The function returns the list as built: the [return aspects.sort]
    that follows the first [return] is never reached. *)
Definition calculateNatalAspects (positions angles : dict Position)
    : list NatalAspect :=
  flat_map (fun pq => natalAspectOf (fst pq) (snd pq)) (planetPairs positions)
  ++ flat_map (fun pq => natalAspectOf (fst pq) (snd pq))
       (anglePairs angles 0 positions).

(** One side of a cross-chart aspect. *)
Record Side : Type := mkSide {
  sidePlanet : string;
  sideSign : option zodiac;
  sideHouse : option nat;
  sideLongitude : num
}.

(** One entry of the list [calculateAspectsOfTwoCharts] returns;
    [applying] and [peakDate] are only set for transits.  The two
    sides are written under the index names given; they are held
    apart here, which is what the object holds when the two names
    differ from each other and from the names of the other fields. *)
Record CrossAspect : Type := mkCrossAspect {
  aspect : string;
  orb : num;
  side1 : string * Side;
  side2 : string * Side;
  applying : option bool;
  peakDate : option (option Date)
}.

Definition crossAspectOf (index1 index2 : string) (isTransit : bool)
    (transitDate : Date) (t n : string * Position) : list CrossAspect :=
  match findTransitAspect (longitude (snd t)) (longitude (snd n)) (fst t) with
  | Some aspectData =>
      [mkCrossAspect (name (matched aspectData))
         (toFixed 2 (matchOrb aspectData))
         (index1, mkSide (fst t) (sign (snd t)) (house (snd t))
                    (longitude (snd t)))
         (index2, mkSide (fst n) (sign (snd n)) (house (snd n))
                    (longitude (snd n)))
         (if isTransit
          then Some (isTransitApplying (snd t) (snd n)
                       (Fin (targetAngle aspectData)))
          else None)
         (if isTransit
          then Some (estimatePeakDate (snd t) (snd n)
                       (Fin (targetAngle aspectData)) transitDate)
          else None)]
  | None => []
  end.

(** As in [calculateNatalAspects], the list is returned unsorted: the
    sorting [return] comes after the first one. *)
Definition calculateAspectsOfTwoCharts
    (transitPositions natalPositions : dict Position)
    (index1 index2 : string) (isTransit : bool) (transitDate : Date)
    : list CrossAspect :=
  flat_map
    (fun t =>
       flat_map (crossAspectOf index1 index2 isTransit transitDate t)
         natalPositions)
    transitPositions.


(** What [swe_houses] hands back. *)
Record HousesResult : Type := mkHousesResult {
  houseCusps : list num;
  ascendant : num;
  mc : num
}.

(** What [calculateHouses] returns when it does not return [null]. *)
Record Houses : Type := mkHouses {
  houses : list House;
  angles : dict Position
}.

(** What [generateChart] returns. *)
Record Chart : Type := mkChart {
  chartPlanets : dict Position;
  chartHouses : list House;
  chartAngles : dict Position;
  chartAspects : list NatalAspect
}.

(** One pass of the loop of [findSolarReturnMoment]. *)
Inductive solarStep : Type :=
| Converged
| Advance (nextJD : num)
| Fails (message : string).

Definition tolerance : num := Fin (1 # 100000).
Definition maxIterations : nat := 20.

(** The signed difference, after the two tests of the source. *)
Definition foldDiff (longitudeDiff : num) : num :=
  if gt longitudeDiff (Fin 180) then sub longitudeDiff (Fin 360)
  else if lt longitudeDiff (Fin (-180)) then add longitudeDiff (Fin 360)
  else longitudeDiff.

Section WithEphemeris.

(** The Swiss Ephemeris and the calendar conversions built on it. *)
Variable swe_calc_ut : num -> body -> CalcResult.
Variable swe_houses : num -> num -> num -> string -> option HousesResult.
Variable dateToJulianDay : Date -> num.
Variable julianDayToDate : num -> Date.
(** [new Date(Date.UTC(year, month, day, ...))] of the birth date. *)
Variable searchStartDate : Z -> Date -> Date.

Variable houseSystem : string.
Variable considerAspectsCompatibility : bool.

Definition planetData (hs : option (list House)) (lon speed : num)
    : Position :=
  mkPosition (toFixed 3 lon) speed (getZodiacSign lon)
    (match hs with
     | Some h => Some (determinePlanetHouse lon h)
     | None => None
     end).

Fixpoint positionsOf (julianDay : num) (hs : option (list House))
    (entries : dict body) (positions : dict Position) : dict Position :=
  match entries with
  | [] => positions
  | (planetName, planetId) :: rest =>
      match swe_calc_ut julianDay planetId with
      | Calc rflag lon speed =>
          if (0 <=? rflag)%Z
          then positionsOf julianDay hs rest
                 (assign planetName (planetData hs lon speed) positions)
          else positionsOf julianDay hs rest positions
      | Throws => positionsOf julianDay hs rest positions
      end
  end.

Definition calculateSouthNode (nnode : Position) : Position :=
  let southNodeLongitude := rem (add (longitude nnode) (Fin 180)) (Fin 360) in
  mkPosition southNodeLongitude (longitudeSpeed nnode)
    (getZodiacSign southNodeLongitude) (house nnode).

Definition calculatePlanetaryPositions (julianDay : num)
    (hs : option (list House)) : dict Position :=
  let positions := positionsOf julianDay hs planets [] in
  match lookup "NNode" positions with
  | Some nnode =>
      let southNode := calculateSouthNode nnode in
      let southNode :=
        match hs with
        | Some h =>
            mkPosition (longitude southNode) (longitudeSpeed southNode)
              (sign southNode)
              (Some (determinePlanetHouse (longitude southNode) h))
        | None => southNode
        end in
      assign "SNode" southNode positions
  | None => positions
  end.

(** An angle of the chart: a position without a speed. *)
Definition anglePosition (lon : num) : Position :=
  mkPosition (toFixed 3 lon) NaN (getZodiacSign lon) None.

Definition calculateHouses (julianDay latitude geoLongitude : num)
    : option Houses :=
  match swe_houses julianDay latitude geoLongitude houseSystem with
  | Some r =>
      Some (mkHouses
              (map (fun ic =>
                      mkHouse (fst ic + 1) (toFixed 3 (snd ic))
                        (getZodiacSign (snd ic)))
                 (combine (seq 0 (List.length (houseCusps r))) (houseCusps r)))
              [("AS", anglePosition (ascendant r));
               ("MC", anglePosition (mc r));
               ("DS", anglePosition
                        (rem (add (ascendant r) (Fin 180)) (Fin 360)));
               ("IC", anglePosition
                        (rem (add (mc r) (Fin 180)) (Fin 360)))]%string)
  | None => None
  end.

(** [addHouse] writes the house number into each position. *)
Definition addHouse (positions : dict Position) (hs : list House)
    : dict Position :=
  map (fun kv =>
         (fst kv,
          mkPosition (longitude (snd kv)) (longitudeSpeed (snd kv))
            (sign (snd kv))
            (Some (determinePlanetHouse (longitude (snd kv)) hs))))
    positions.

(** [const { AS, MC } = angles; { AS, MC }] *)
Definition onlyAngles (angs : dict Position) : option (dict Position) :=
  match lookup "AS" angs, lookup "MC" angs with
  | Some a, Some m => Some [("AS", a); ("MC", m)]%string
  | _, _ => None
  end.

(** The call [filterAspects(aspects, positions, flag)]: the callee
    declares two parameters, the flag is dropped. *)
Definition callFilterAspects (inputAspects : list NatalAspect)
    (positions : dict Position) (flag : bool) : option (list NatalAspect) :=
  filterAspects inputAspects positions.

(** The aspect stage of [generateChart] and [generateTransitsChart]:
    matching, then the filter. *)
Definition aspectStage (chartPositions angs : dict Position)
    : option (list NatalAspect) :=
  let found := calculateNatalAspects chartPositions angs in
  callFilterAspects found (spread chartPositions angs)
    considerAspectsCompatibility.

(** [generateChart]; [None] is a TypeError (the houses could not be
    computed, or the filter failed).  The objects of [AS] and [MC] are
    shared between the angles and the positions, so the house written
    by [addHouse] shows in both. *)
Definition generateChart (date : Date) (latitude geoLongitude : num)
    : option Chart :=
  let julianDay := dateToJulianDay date in
  match calculateHouses julianDay latitude geoLongitude with
  | None => None
  | Some hs =>
      let chartPositions :=
        calculatePlanetaryPositions julianDay (Some (houses hs)) in
      match onlyAngles (angles hs) with
      | None => None
      | Some asmc =>
          let asmc := addHouse asmc (houses hs) in
          match aspectStage chartPositions asmc with
          | None => None
          | Some filtered =>
              Some (mkChart (spread chartPositions asmc) (houses hs)
                      (spread (angles hs) asmc) filtered)
          end
      end
  end.

(** The body of the [for] loop of [findSolarReturnMoment] at the
    estimate [searchJD]. *)
Definition solarIteration (natalSunLongitude searchJD : num) : solarStep :=
  match swe_calc_ut searchJD SE_SUN with
  | Throws => Fails "swe_calc_ut"
  | Calc rflag currentLongitude sunSpeed =>
      if (rflag <? 0)%Z then
        Fails "Failed to calculate Sun position during search"
      else
        let longitudeDiff :=
          foldDiff (sub natalSunLongitude currentLongitude) in
        if lt (abs longitudeDiff) tolerance then Converged
        else if lt (abs sunSpeed) (Fin (1 # 10000)) then
          Fails "Sun speed too small for calculation"
        else Advance (add searchJD (div longitudeDiff sunSpeed))
  end.

(** The loop, with [remaining] iterations left; next to the result it
    counts the iterations it ran. *)
Fixpoint solarLoop (remaining : nat) (natalSunLongitude searchJD : num)
    : result num * nat :=
  match remaining with
  | O => (Ok searchJD, O)
  | S remaining' =>
      match solarIteration natalSunLongitude searchJD with
      | Converged => (Ok searchJD, 1%nat)
      | Fails message => (Error message, 1%nat)
      | Advance nextJD =>
          let (r, n) := solarLoop remaining' natalSunLongitude nextJD in
          (r, S n)
      end
  end.

Definition findSolarReturnMoment (natalSunLongitude : num) (year : Z)
    (birthDate : Date) : result Date :=
  let searchJD := dateToJulianDay (searchStartDate year birthDate) in
  match fst (solarLoop maxIterations natalSunLongitude searchJD) with
  | Ok jd => Ok (julianDayToDate jd)
  | Error message =>
      Error (String.append "Error finding solar return moment: " message)
  end.

End WithEphemeris.


End AstrologicalCalculator.

(** ** Vocabulary of the statements *)

(** The angle between two finite longitudes. *)
Definition angleQ (a b : Q) : Q :=
  if Qltb 180 (Qabs (a - b)) then 360 - Qabs (a - b) else Qabs (a - b).

(** The predicate of an event that starts at the instant [c]. *)
Definition reached (c : Z) (d : Date) : bool :=
  match d with Instant t => (c <=? t)%Z | InvalidDate => false end.

(** The cusps taken two by two around the circle: house [i + 1] runs
    from the first to the second component of the entry of index [i]. *)
Definition arcs (cs : list Q) : list (Q * Q) :=
  combine cs (tl cs ++ [hd 0 cs]).

(** The house from [a] to [b] crosses 0 degrees Aries. *)
Definition wraps (ab : Q * Q) : bool := Qltb (snd ab) (fst ab).

(** The longitude [x] lies in the house that runs from [a] to [b]. *)
Definition inArc (x : Q) (ab : Q * Q) : bool :=
  if wraps ab then Qle_bool (fst ab) x || Qltb x (snd ab)
  else Qle_bool (fst ab) x && Qltb x (snd ab).

(** The length of the way forward from [a] to [b]. *)
Definition forwardArc (ab : Q * Q) : Q :=
  if wraps ab then snd ab - fst ab + 360 else snd ab - fst ab.

Definition Qsum (l : list Q) : Q := fold_right Qplus 0 l.

(** Twelve cusp longitudes that go once around the circle: walking
    forward from each cusp to the next, and from the last back to the
    first, covers 360 degrees. *)
Definition circular (cs : list Q) : Prop :=
  List.length cs = 12%nat
  /\ Forall (fun c => 0 <= c /\ c < 360) cs
  /\ Qsum (map forwardArc (arcs cs)) == 360.

Definition countTrue (l : list bool) : Z :=
  fold_right (fun b n => (Z.b2z b + n)%Z) 0%Z l.

Fixpoint firstTrue (l : list bool) (i : nat) : option nat :=
  match l with
  | [] => None
  | b :: rest => if b then Some i else firstTrue rest (i + 1)
  end.

(** Equal houses: cusps every thirty degrees from 0. *)
Definition equalHouses : list House :=
  map (fun i => mkHouse (i + 1) (Fin (inject_Z (30 * Z.of_nat i))) None)
    (seq 0 12).

(** The remainder [x % m] of finite numbers. *)
Definition remQ (x m : Q) : Q := x - m * inject_Z (trunc (x / m)).

(** The difference to the target angle after the adjustment of
    [estimatePeakDate]. *)
Definition adjustedDiffQ (d : Q) : Q :=
  if Qltb 180 (Qabs d) then (if Qltb 0 d then d - 360 else d + 360) else d.

(** A position that only carries a longitude and a speed. *)
Definition at_ (lon speed : num) : Position := mkPosition lon speed None None.

(** What each [estimatePeakDate] computes on finite positions and a
    valid date in exact arithmetic, [bound] being 365 days in the
    transit calculator and five times that in the astrological
    calculator. *)
Definition peakQ (bound l s n t : Q) (asOf : Z) : option Date :=
  if Qltb (Qabs s) (1 # 1000) then None
  else
    let days := adjustedDiffQ (t - angleQ l n) / s in
    if Qltb bound (Qabs days) then None
    else Some (Instant (trunc (inject_Z asOf + days * 24 * 60 * 60 * 1000))).

(** An aspect of the transit list within half a degree. *)
Definition isExact (a : TransitCalculator.Aspect) : bool :=
  lt (TransitCalculator.orb a) (Fin (1 # 2)).

Definition countIf {A : Type} (p : A -> bool) (l : list A) : nat :=
  List.length (filter p l).

(** The orb of an aspect of the transit list is the number [q]. *)
Definition hasOrb (q : Q) (a : TransitCalculator.Aspect) : bool :=
  match TransitCalculator.orb a with
  | Fin x => Qeq_bool x q
  | NaN => false
  end.

(** Ascending by orb. *)
Definition orbLe (a b : TransitCalculator.Aspect) : Prop :=
  le (TransitCalculator.orb a) (TransitCalculator.orb b) = true.

Definition finiteOrb (a : TransitCalculator.Aspect) : Prop :=
  exists q, TransitCalculator.orb a = Fin q.

(** The summary agrees with the list it was accumulated over. *)
Definition consistent (st : list TransitCalculator.Aspect
                            * TransitCalculator.Summary) : Prop :=
  let (l, sm) := st in
  TransitCalculator.total sm = List.length l
  /\ TransitCalculator.nApplying sm = countIf TransitCalculator.applying l
  /\ TransitCalculator.nSeparating sm
     = countIf (fun a => negb (TransitCalculator.applying a)) l
  /\ TransitCalculator.exact sm = countIf isExact l
  /\ Forall finiteOrb l.

(** *** Concrete charts used to evaluate the builders *)

(** A transiting Sun at 10 degrees over a natal Moon at 10.8 and a
    natal Mars at 10.1 degrees. *)
Definition sunOver : dict Position := [("Sun", at_ (Fin 10) (Fin 1))]%string.
Definition moonAndMars : dict Position :=
  [("Moon", at_ (Fin (108 # 10)) (Fin 13));
   ("Mars", at_ (Fin (101 # 10)) (Fin (1 # 2)))]%string.

(** One chart with the Sun at 0, the Moon at 5 and Mars at 1 degree. *)
Definition threeBodies : dict Position :=
  [("Sun", at_ (Fin 0) (Fin 1)); ("Moon", at_ (Fin 5) (Fin 13));
   ("Mars", at_ (Fin 1) (Fin (1 # 2)))]%string.

(** The Sun at 29 degrees (Aries) and the Moon at 31 degrees (Taurus):
    a conjunction across a sign boundary. *)
Definition sunMoonAcrossSigns : dict Position :=
  [("Sun", mkPosition (Fin 29) (Fin 1) (Some Aries) None);
   ("Moon", mkPosition (Fin 31) (Fin 13) (Some Taurus) None)]%string.

(** An ephemeris that knows the Sun at 29 and the Moon at 31 degrees
    and fails for every other body, with equal houses from 0 degrees,
    the ascendant at 100 and the midheaven at 200 degrees. *)
Definition twoLights (jd : num) (b : AstrologicalCalculator.body)
    : CalcResult :=
  match b with
  | AstrologicalCalculator.SE_SUN => Calc 0 (Fin 29) (Fin 1)
  | AstrologicalCalculator.SE_MOON => Calc 0 (Fin 31) (Fin 13)
  | _ => Calc (-1) NaN NaN
  end.

Definition equalCusps (jd lat lon : num) (system : string)
    : option AstrologicalCalculator.HousesResult :=
  Some (AstrologicalCalculator.mkHousesResult
          (map (fun i => Fin (inject_Z (30 * Z.of_nat i))) (seq 0 12))
          (Fin 100) (Fin 200)).

Definition chartOfTwoLights (considerAspectsCompatibility : bool)
    : option AstrologicalCalculator.Chart :=
  AstrologicalCalculator.generateChart twoLights equalCusps
    (fun _ => Fin 2451545) "P" considerAspectsCompatibility
    (Instant 0) (Fin 45) (Fin 25).

(** Ascending by orb, for the lists of the astrological calculator. *)
Definition crossOrbLe (a b : AstrologicalCalculator.CrossAspect) : Prop :=
  le (AstrologicalCalculator.orb a) (AstrologicalCalculator.orb b) = true.
Definition natalOrbLe (a b : AstroUtils.NatalAspect) : Prop :=
  le (AstroUtils.orb a) (AstroUtils.orb b) = true.

(** *** The solar return search *)

(** The difference [d] after the two tests of [foldDiff]. *)
Definition foldDiffQ (d : Q) : Q :=
  if Qltb 180 d then d - 360 else if Qltb d (-180) then d + 360 else d.

Section Estimates.

Variable swe_calc_ut : num -> AstrologicalCalculator.body -> CalcResult.
Variable natalSunLongitude : num.

(** The next estimate, where the iteration advances. *)
Definition advance (jd : num) : num :=
  match AstrologicalCalculator.solarIteration swe_calc_ut
          natalSunLongitude jd with
  | AstrologicalCalculator.Advance next => next
  | _ => jd
  end.

(** The estimate after [k] advances from [jd]. *)
Fixpoint estimateAt (k : nat) (jd : num) : num :=
  match k with
  | O => jd
  | S k' => estimateAt k' (advance jd)
  end.

Definition advancing (jd : num) : Prop :=
  exists next,
    AstrologicalCalculator.solarIteration swe_calc_ut natalSunLongitude jd
    = AstrologicalCalculator.Advance next.

End Estimates.

(** A query of the ephemeris that fails: an exception, or a negative
    return flag. *)
Definition failedQuery (r : CalcResult) : Prop :=
  match r with
  | Throws => True
  | Calc rflag _ _ => (rflag < 0)%Z
  end.

(** The margin left around a threshold for the rounding of the
    arithmetic on longitudes and Julian days: a billionth. *)
Definition rounding : Q := 1 # 1000000000.

(** A Sun that stands still at 10 degrees. *)
Definition stationarySun (jd : num) (b : AstrologicalCalculator.body)
    : CalcResult := Calc 0 (Fin 10) (Fin 0).

(** A Sun whose longitude is the Julian day itself, one degree a day. *)
Definition linearSun (jd : num) (b : AstrologicalCalculator.body)
    : CalcResult := Calc 0 jd (Fin 1).

(** A transit ephemeris that knows the Sun alone, at 15.2 degrees. *)
Definition sunAlone (jd : num) (b : TransitCalculator.body) : CalcResult :=
  match b with
  | TransitCalculator.SE_SUN => Calc 0 (Fin (152 # 10)) (Fin 1)
  | _ => Calc (-1) NaN NaN
  end.

Definition natalMoon : dict Position :=
  [("Moon", at_ (Fin 105) (Fin 13))]%string.

(** *** Vocabulary of the further properties *)

(** The query for a body succeeded. *)
Definition succeeded (r : CalcResult) : bool :=
  match r with
  | Calc rflag _ _ => (0 <=? rflag)%Z
  | Throws => false
  end.

(** The entry the transit calculator makes for one body, if any. *)
Definition transitEntry
    (swe_calc_ut : num -> TransitCalculator.body -> CalcResult)
    (jd : num) (houses : option (list House))
    (entry : string * TransitCalculator.body) : dict Position :=
  match swe_calc_ut jd (snd entry) with
  | Calc rflag lon _ =>
      if (0 <=? rflag)%Z
      then [(fst entry, TransitCalculator.planetData houses lon)]
      else []
  | Throws => []
  end.

(** The entry the astrological calculator makes for one body, if any. *)
Definition astroEntry
    (swe_calc_ut : num -> AstrologicalCalculator.body -> CalcResult)
    (jd : num) (houses : option (list House))
    (entry : string * AstrologicalCalculator.body) : dict Position :=
  match swe_calc_ut jd (snd entry) with
  | Calc rflag lon speed =>
      if (0 <=? rflag)%Z
      then [(fst entry, AstrologicalCalculator.planetData houses lon speed)]
      else []
  | Throws => []
  end.

(** The aspect [calculateTransits] pushes for a transiting and a natal
    body once the matcher has returned [d]. *)
Definition aspectOf (transitDate : Date) (t n : string * Position)
    (d : TransitCalculator.AspectData) : TransitCalculator.Aspect :=
  TransitCalculator.mkAspect (fst t) (sign (snd t)) (fst n) (sign (snd n))
    (TransitCalculator.name (TransitCalculator.matched d))
    (TransitCalculator.matchOrb d)
    (TransitCalculator.matchExactness d)
    (TransitCalculator.isTransitApplying (snd t) (snd n)
       (Fin (TransitCalculator.targetAngle d)))
    (TransitCalculator.estimatePeakDate (snd t) (snd n)
       (Fin (TransitCalculator.targetAngle d)) transitDate).

(** The count a histogram holds for a key, 0 when the key is absent. *)
Definition tally (d : dict nat) (k : string) : nat :=
  match lookup k d with Some n => n | None => 0%nat end.

(** A calendar that moves a date forward by one millisecond per day
    asked for, to run the loop over a period on small numbers. *)
Definition tick (d : Date) (n : num) : Date :=
  match d with
  | Instant t => Instant (t + 1)
  | InvalidDate => InvalidDate
  end.

(** The histograms of a summary agree with the list they were
    accumulated over. *)
Definition histograms (st : list TransitCalculator.Aspect
                           * TransitCalculator.Summary) : Prop :=
  let (l, sm) := st in
  (forall k, tally (TransitCalculator.byTransitingPlanet sm) k
             = countIf (fun a => String.eqb (TransitCalculator.transitingPlanet a) k) l)
  /\ (forall k, tally (TransitCalculator.byNatalPlanet sm) k
                = countIf (fun a => String.eqb (TransitCalculator.natalPlanet a) k) l)
  /\ TransitCalculator.byAspect sm
     = match List.length l with
       | O => []
       | S n => [("undefined"%string, S n)]
       end.

(** An entry of the list of a period: a date between the bounds with
    the positions and all the aspects [calculateTransits] finds for
    it. *)
Definition fullDay
    (swe_calc_ut : num -> TransitCalculator.body -> CalcResult)
    (dateToJulianDay : Date -> num)
    (natalPositions : dict Position) (houses : option (list House))
    (s e : Z) (d : TransitCalculator.DayTransits) : Prop :=
  exists t,
    TransitCalculator.dayDate d = Instant t /\ (s <= t <= e)%Z
    /\ TransitCalculator.dayPositions d
       = TransitCalculator.transitPositions
           (TransitCalculator.calculateTransits swe_calc_ut dateToJulianDay
              natalPositions houses (Instant t))
    /\ TransitCalculator.dayTransits d
       = TransitCalculator.aspects
           (TransitCalculator.calculateTransits swe_calc_ut dateToJulianDay
              natalPositions houses (Instant t)).

(** What the filter of [astroUtils] asks of an aspect it keeps, the
    signs being those of the two bodies. *)
Definition compatible (sign1 sign2 : option zodiac)
    (a : AstroUtils.NatalAspect) : Prop :=
  let name := AstroUtils.toLowerCase (AstroUtils.aspect a) in
  AstroUtils.planet1 a <> ""%string
  /\ AstroUtils.planet2 a <> ""%string
  /\ ~ (AstroUtils.planet1 a = "NNode"%string /\ name = "opposition"%string)
  /\ (name = "square"%string ->
      AstroUtils.isCompatibleByElement sign1 sign2 = false)
  /\ (name = "trine"%string ->
      AstroUtils.isCompatibleByElement sign1 sign2 = true)
  /\ (name = "sextile"%string ->
      AstroUtils.isCompatibleByPolarity sign1 sign2 = true)
  /\ (name = "conjunction"%string -> sign1 = sign2).

(** Both bodies of the aspect have a position. *)
Definition located (positions : dict Position) (a : AstroUtils.NatalAspect)
    : Prop :=
  (exists p, lookup (AstroUtils.planet1 a) positions = Some p)
  /\ (exists p, lookup (AstroUtils.planet2 a) positions = Some p).

(** The colours of the lines of the chart. *)
Definition red : string := "#FC0D0D".
Definition blue : string := "#0075cfff".

(** Whether the callback of [filterAspects] pushes the aspect. *)
Definition kept (positions : dict Position) (a : AstroUtils.NatalAspect)
    : bool :=
  match AstroUtils.keeps positions a with
  | Some true => true
  | _ => false
  end.

(** A square and a conjunction of the Sun and the Moon. *)
Definition squareOfLights : AstroUtils.NatalAspect :=
  AstroUtils.mkNatalAspect "Sun" "Moon" "square" 90 (Fin 2) false.

Definition conjunctionOfLights : AstroUtils.NatalAspect :=
  AstroUtils.mkNatalAspect "Sun" "Moon" "conjunction" 0 (Fin 2) false.

(** Whether the object has the key. *)
Definition hasKey {A : Type} (d : dict A) (k : string) : bool :=
  match lookup k d with Some _ => true | None => false end.

(** The entry [filterPlanets] copies for a name. *)
Definition copied (planetsData : dict Position) (planetName : string)
    : dict Position :=
  match lookup planetName planetsData with
  | Some p => [(planetName, p)]
  | None => []
  end.

(** The list [l] holds [first], then the date after it, and so on. *)
Fixpoint follows (next : Date -> Date) (first : Date) (l : list Date)
    : Prop :=
  match l with
  | [] => True
  | d :: rest => d = first /\ follows next (next first) rest
  end.

(** The names of the fields [calculateAspectsOfTwoCharts] writes on an
    aspect besides the two sides; [__proto__] is not an ordinary
    field. *)
Definition crossAspectFields : list string :=
  ["title"; "aspect"; "orb"; "applying"; "peakDate"; "__proto__"]%string.

(** Neither body of the aspect bears a name every object inherits. *)
Definition plainNames (a : AstroUtils.NatalAspect) : Prop :=
  ~ In (AstroUtils.planet1 a) inheritedNames
  /\ ~ In (AstroUtils.planet2 a) inheritedNames.

(** * Properties *)

(** ** Comparisons and arithmetic of the number model *)

Lemma Qltb_lt (x y : Q) : Qltb x y = true <-> x < y.
Proof.
  unfold Qltb. rewrite negb_true_iff.
  split; intro H.
  - apply Qnot_le_lt. intro Hle. apply Qle_bool_iff in Hle. congruence.
  - destruct (Qle_bool y x) eqn:E; [|reflexivity].
    apply Qle_bool_iff in E. exfalso. apply (Qlt_not_le _ _ H E).
Qed.

Lemma Qltb_ge (x y : Q) : Qltb x y = false <-> y <= x.
Proof.
  unfold Qltb. rewrite negb_false_iff. apply Qle_bool_iff.
Qed.

Lemma Qle_bool_false (x y : Q) : Qle_bool x y = false <-> y < x.
Proof.
  rewrite <- Qltb_lt. unfold Qltb. rewrite negb_true_iff. tauto.
Qed.

Lemma trunc_inject_half (a : Z) :
  trunc (inject_Z a / 2) = Z.quot a 2.
Proof.
  unfold trunc, Qdiv, Qmult, Qinv, inject_Z. simpl.
  rewrite Z.mul_1_r. reflexivity.
Qed.

Lemma quot2_between (lo hi : Z) :
  (lo + 2 <= hi)%Z -> (lo < Z.quot (lo + hi) 2 < hi)%Z.
Proof.
  intros H.
  pose proof (Z.quot_rem' (lo + hi) 2) as E.
  pose proof (Z.rem_bound_abs (lo + hi) 2) as B.
  assert (Z.abs (Z.rem (lo + hi) 2) < 2)%Z by (apply B; lia).
  lia.
Qed.

Lemma quot2_halves (lo hi : Z) :
  (2 * (Z.quot (lo + hi) 2 - lo) <= hi - lo + 1)%Z
  /\ (2 * (hi - Z.quot (lo + hi) 2) <= hi - lo + 1)%Z.
Proof.
  pose proof (Z.quot_rem' (lo + hi) 2) as E.
  pose proof (Z.rem_bound_abs (lo + hi) 2) as B.
  assert (Z.abs (Z.rem (lo + hi) 2) < 2)%Z by (apply B; lia).
  lia.
Qed.

Lemma midpoint (lo hi : Z) :
  newDate (div (Fin (inject_Z lo + inject_Z hi)) (Fin 2))
  = Instant (Z.quot (lo + hi) 2).
Proof.
  cbn. rewrite <- inject_Z_plus. f_equal. apply trunc_inject_half.
Qed.

(** ** C1: the binary search of findExactMoment *)

Section Bisection.

Variables (s e c : Z) (P : Date -> bool) (p : Q).

Hypothesis precision_ms : 1 <= p * 60 * 1000.
Hypothesis step :
  forall t, (s <= t <= e)%Z -> (P (Instant t) = true <-> (c <= t)%Z).

Lemma wide_gap (lo hi : Z) :
  p * 60 * 1000 < inject_Z hi - inject_Z lo -> (lo + 2 <= hi)%Z.
Proof.
  intros T.
  assert (L : inject_Z 1 < inject_Z (hi - lo)).
  { unfold Zminus. rewrite inject_Z_plus, inject_Z_opp.
    eapply Qle_lt_trans; [exact precision_ms|exact T]. }
  rewrite <- Zlt_Qlt in L. lia.
Qed.

Lemma narrow_gap (lo hi : Z) :
  (c <= hi)%Z -> inject_Z hi - inject_Z lo <= p * 60 * 1000 ->
  inject_Z (c - lo) <= p * 60 * 1000.
Proof.
  intros Hhi T.
  eapply Qle_trans; [|exact T].
  unfold Zminus. rewrite inject_Z_plus, inject_Z_opp.
  apply Qplus_le_l. rewrite <- Zle_Qle. exact Hhi.
Qed.

Lemma bisect_brackets (n : nat) :
  forall lo hi,
    (s <= lo)%Z -> (lo < c)%Z -> (c <= hi)%Z -> (hi <= e)%Z ->
    (hi - lo <= 2 ^ Z.of_nat n)%Z ->
    exists m,
      TransitCalculator.bisect (S n) P (Fin (p * 60 * 1000))
        (Instant lo) (Instant hi) = Returns (Instant m)
      /\ (s <= m)%Z /\ (m < c)%Z /\ inject_Z (c - m) <= p * 60 * 1000.
Proof.
  induction n as [|n IH]; intros lo hi Hs Hlo Hhi He Hgap;
    cbn [TransitCalculator.bisect getTime sub add lift2 gt lt];
    destruct (Qltb (p * 60 * 1000) (inject_Z hi - inject_Z lo)) eqn:T.
  - exfalso. apply Qltb_lt in T.
    pose proof (wide_gap lo hi T). cbn in Hgap. lia.
  - apply Qltb_ge in T. exists lo. repeat split; try lia.
    apply (narrow_gap lo hi); assumption.
  - apply Qltb_lt in T.
    pose proof (wide_gap lo hi T) as Hwide.
    rewrite midpoint.
    pose proof (quot2_between lo hi Hwide) as [B1 B2].
    pose proof (quot2_halves lo hi) as [B3 B4].
    rewrite Nat2Z.inj_succ, Z.pow_succ_r in Hgap by lia.
    destruct (P (Instant (Z.quot (lo + hi) 2))) eqn:Pm.
    + apply step in Pm; [|lia].
      apply IH; lia.
    + assert (Hm : (Z.quot (lo + hi) 2 < c)%Z).
      { destruct (Z_lt_le_dec (Z.quot (lo + hi) 2) c) as [L|L]; [exact L|].
        apply step in L; [congruence|lia]. }
      apply IH; lia.
  - apply Qltb_ge in T. exists lo. repeat split; try lia.
    apply (narrow_gap lo hi); assumption.
Qed.

End Bisection.

(** C1, as the code has it.  For a predicate that is false before the
    instant [c] and true from [c] on over the search interval, and a
    precision that is a whole number [k] of milliseconds, from 1 up
    and below 2^53 (the default of one minute is 60000):
    [findExactMoment] returns
    [start] at once when the predicate holds there, returns nothing
    when it fails at [end], and otherwise the search ends and returns
    an instant that precedes the crossing by no more than the
    precision.  The predicate is only constrained between [start] and
    [end]: the search never looks outside. *)
Theorem findExactMoment_step_predicate :
  forall (s e c : Z) (P : Date -> bool) (p : Q) (k : Z) (depth : nat),
    p * 60 * 1000 == inject_Z k -> (1 <= k < 2 ^ 53)%Z ->
    (forall t, (s <= t <= e)%Z -> (P (Instant t) = true <-> (c <= t)%Z)) ->
    (e - s <= 2 ^ Z.of_nat depth)%Z ->
    (P (Instant s) = true ->
     forall n, TransitCalculator.findExactMoment n (Instant s) (Instant e)
                 P (Fin p) = Returns (Some (Instant s)))
    /\ (P (Instant s) = false -> P (Instant e) = false ->
        forall n, TransitCalculator.findExactMoment n (Instant s) (Instant e)
                    P (Fin p) = Returns None)
    /\ ((s < c <= e)%Z ->
        exists m,
          TransitCalculator.findExactMoment (S depth) (Instant s) (Instant e)
            P (Fin p) = Returns (Some (Instant m))
          /\ (s <= m < c)%Z
          /\ (c - m <= k)%Z).
Proof.
  intros s e c P p k depth Hk Hk1 Hstep Hdepth.
  assert (Hp : 1 <= p * 60 * 1000).
  { rewrite Hk. change 1 with (inject_Z 1). rewrite <- Zle_Qle. lia. }
  unfold TransitCalculator.findExactMoment.
  split; [|split].
  - intros H n. rewrite H. reflexivity.
  - intros H1 H2 n. rewrite H1, H2. reflexivity.
  - intros [Hsc Hce].
    assert (Ps : P (Instant s) = false).
    { destruct (P (Instant s)) eqn:E; [|reflexivity].
      apply Hstep in E; lia. }
    assert (Pe : P (Instant e) = true) by (apply Hstep; lia).
    rewrite Ps, Pe. cbn [negb mul lift2].
    destruct (bisect_brackets s e c P p Hp Hstep depth s e)
      as (m & E & B1 & B2 & B3); try lia.
    exists m. rewrite E. repeat split; try lia.
    rewrite Hk, <- Zle_Qle in B3. exact B3.
Qed.

Lemma findExactMoment_step_predicate_witness :
  exists m,
    TransitCalculator.findExactMoment 19 (Instant 0) (Instant 200000)
      (reached 123456)
      TransitCalculator.defaultPrecision = Returns (Some (Instant m))
    /\ (0 <= m < 123456)%Z
    /\ (123456 - m <= 60000)%Z.
Proof.
  apply (findExactMoment_step_predicate 0 200000 123456
           (reached 123456)
           1 60000 18%nat).
  - reflexivity.
  - lia.
  - intros t _. apply Z.leb_le.
  - vm_compute. discriminate.
  - lia.
Defined.

(** The claim fails for a precision below one millisecond: with a
    precision of 0 and a crossing between two instants one millisecond
    apart, the predicate fails at the start and holds at the end, the
    middle is the lower bound again, and the loop does not end however
    long it is run. *)
Lemma findExactMoment_zero_precision_runs_on :
  reached 1 (Instant 0) = false
  /\ reached 1 (Instant 1) = true
  /\ forall fuel,
       TransitCalculator.findExactMoment fuel (Instant 0) (Instant 1)
         (reached 1) (Fin 0) = OutOfFuel.
Proof.
  split; [reflexivity|]. split; [reflexivity|]. intros fuel.
  unfold TransitCalculator.findExactMoment.
  change (reached 1 (Instant 0)) with false.
  change (reached 1 (Instant 1)) with true.
  cbn [negb mul lift2].
  assert (L : TransitCalculator.bisect fuel (reached 1) (Fin (0 * 60 * 1000))
                (Instant 0) (Instant 1) = OutOfFuel).
  { induction fuel as [|fuel IH]; [reflexivity|exact IH]. }
  rewrite L. reflexivity.
Qed.

(** ** C2: the house of a longitude *)

Lemma inArc_score (x : Q) (ab : Q * Q) :
  Z.b2z (inArc x ab)
  = (Z.b2z (wraps ab) + (Z.b2z (Qle_bool (fst ab) x)
                         - Z.b2z (Qle_bool (snd ab) x)))%Z.
Proof.
  destruct ab as [a b]. unfold inArc, wraps. cbn [fst snd].
  destruct (Qltb b a) eqn:W; destruct (Qle_bool a x) eqn:A;
    destruct (Qle_bool b x) eqn:B; destruct (Qltb x b) eqn:X;
    cbn; try reflexivity; exfalso;
    repeat match goal with
      | H : Qltb _ _ = true |- _ => apply Qltb_lt in H
      | H : Qltb _ _ = false |- _ => apply Qltb_ge in H
      | H : Qle_bool _ _ = true |- _ => apply Qle_bool_iff in H
      | H : Qle_bool _ _ = false |- _ => apply Qle_bool_false in H
      end; lra.
Qed.

(** Around a closed path the differences cancel. *)
Lemma telescope_Z (f : Q -> Z) :
  forall (l : list Q) (a z : Q),
    fold_right (fun uv n => (f (fst uv) - f (snd uv) + n)%Z) 0%Z
      (combine (a :: l) (l ++ [z]))
    = (f a - f z)%Z.
Proof.
  induction l as [|b l IH]; intros a z.
  - cbn. lia.
  - cbn [app combine fold_right fst snd].
    specialize (IH b z). cbn [combine] in IH.
    destruct l; cbn [app combine fold_right fst snd] in *; lia.
Qed.

Lemma telescope_Q :
  forall (l : list Q) (a z : Q),
    Qsum (map (fun uv => snd uv - fst uv) (combine (a :: l) (l ++ [z])))
    == z - a.
Proof.
  induction l as [|b l IH]; intros a z.
  - cbn. lra.
  - specialize (IH b z).
    destruct l; cbn [app combine map Qsum fold_right fst snd] in *; lra.
Qed.

Lemma countTrue_inArc (x : Q) (cs : list Q) :
  countTrue (map (inArc x) (arcs cs)) = countTrue (map wraps (arcs cs)).
Proof.
  destruct cs as [|a l]; [reflexivity|].
  unfold arcs. cbn [tl hd].
  pose proof (telescope_Z (fun c => Z.b2z (Qle_bool c x)) l a a) as T.
  revert T. generalize (combine (a :: l) (l ++ [a])). intros ps.
  assert (G : forall ps : list (Q * Q),
             countTrue (map (inArc x) ps)
             = (countTrue (map wraps ps)
                + fold_right
                    (fun uv n =>
                       (Z.b2z (Qle_bool (fst uv) x)
                        - Z.b2z (Qle_bool (snd uv) x) + n)%Z) 0%Z ps)%Z).
  { induction ps0 as [|q ps0 IH]; [reflexivity|].
    cbn [map countTrue fold_right]. fold (countTrue (map (inArc x) ps0)).
    fold (countTrue (map wraps ps0)).
    rewrite inArc_score. rewrite IH. lia. }
  intros T. rewrite G, T. lia.
Qed.

Lemma forwardArc_sum (ps : list (Q * Q)) :
  Qsum (map forwardArc ps)
  == Qsum (map (fun uv => snd uv - fst uv) ps)
     + 360 * inject_Z (countTrue (map wraps ps)).
Proof.
  induction ps as [|q ps IH].
  - change (0 == 0 + 360 * 0). lra.
  - cbn [map Qsum fold_right countTrue].
    fold (Qsum (map forwardArc ps)).
    fold (Qsum (map (fun uv => snd uv - fst uv) ps)).
    fold (countTrue (map wraps ps)).
    rewrite IH. rewrite inject_Z_plus. unfold forwardArc.
    destruct (wraps q); cbn [Z.b2z];
      [change (inject_Z 1) with 1|change (inject_Z 0) with 0]; lra.
Qed.

Lemma circular_wraps_once (cs : list Q) :
  circular cs -> countTrue (map wraps (arcs cs)) = 1%Z.
Proof.
  intros (Hlen & _ & Hsum).
  rewrite forwardArc_sum in Hsum.
  destruct cs as [|a l]; [discriminate|].
  unfold arcs in *. cbn [tl hd] in *.
  rewrite telescope_Q in Hsum.
  assert (E : inject_Z (countTrue (map wraps (combine (a :: l) (l ++ [a]))))
              == inject_Z 1) by (change (inject_Z 1) with 1; lra).
  rewrite inject_Z_injective in E. exact E.
Qed.

Lemma countTrue_cons (b : bool) (l : list bool) :
  countTrue (b :: l) = (Z.b2z b + countTrue l)%Z.
Proof. reflexivity. Qed.

Lemma countTrue_nonneg (l : list bool) : (0 <= countTrue l)%Z.
Proof.
  induction l as [|b l IH]; [apply Z.le_refl|].
  rewrite countTrue_cons. destruct b; cbn [Z.b2z]; lia.
Qed.

Lemma countTrue_zero (l : list bool) :
  countTrue l = 0%Z -> forall j, nth j l false = false.
Proof.
  induction l as [|b l IH]; intros H j.
  - destruct j; reflexivity.
  - rewrite countTrue_cons in H. pose proof (countTrue_nonneg l).
    destruct b; cbn [Z.b2z] in H; [lia|].
    destruct j; [reflexivity|]. cbn [nth]. apply IH. lia.
Qed.

Lemma firstTrue_unique :
  forall (l : list bool) (k : nat),
    countTrue l = 1%Z ->
    exists i,
      firstTrue l k = Some (k + i)%nat
      /\ (i < List.length l)%nat
      /\ nth i l false = true
      /\ forall j, nth j l false = true -> j = i.
Proof.
  induction l as [|b l IH]; intros k H.
  - discriminate H.
  - rewrite countTrue_cons in H. destruct b; cbn [Z.b2z] in H.
    + exists 0%nat. cbn [firstTrue nth List.length].
      rewrite Nat.add_0_r. repeat split; try lia.
      intros j Hj. destruct j; [reflexivity|]. cbn [nth] in Hj.
      rewrite (countTrue_zero l) in Hj by lia. discriminate.
    + destruct (IH (k + 1)%nat H) as (i & F & L & N & U).
      exists (S i). cbn [firstTrue nth List.length]. rewrite F.
      repeat split.
      * f_equal. lia.
      * lia.
      * exact N.
      * intros j Hj. destruct j; [discriminate|]. f_equal. apply U. exact Hj.
Qed.

Lemma inArc_Qeq (x y : Q) (ab : Q * Q) : x == y -> inArc x ab = inArc y ab.
Proof.
  intros E. unfold inArc, Qltb.
  assert (L : forall a, Qle_bool a x = Qle_bool a y).
  { intros a. destruct (Qle_bool a x) eqn:A; symmetry.
    - apply Qle_bool_iff in A. apply Qle_bool_iff. lra.
    - apply Qle_bool_false in A. apply Qle_bool_false. lra. }
  rewrite !L. reflexivity.
Qed.

Lemma skipn_nth_cons {A : Type} (i : nat) (l : list A) (d : A) :
  (i < List.length l)%nat -> skipn i l = nth i l d :: skipn (S i) l.
Proof.
  revert l. induction i as [|i IH]; intros [|a l] H; cbn in H; try lia.
  - reflexivity.
  - cbn [skipn nth]. apply IH. lia.
Qed.

Lemma cuspAt_Fin (cs : list Q) (i : nat) :
  (i < List.length cs)%nat -> cuspAt (map Fin cs) i = Fin (nth i cs 0).
Proof.
  intros H. unfold cuspAt.
  rewrite (nth_indep _ NaN (Fin 0)) by (rewrite length_map; exact H).
  apply map_nth.
Qed.

Lemma arcs_nth (cs : list Q) (i : nat) :
  List.length cs = 12%nat -> (i < 12)%nat ->
  nth i (arcs cs) (0, 0) = (nth i cs 0, nth ((i + 1) mod 12) cs 0).
Proof.
  intros H Hi.
  do 12 (destruct cs as [|? cs]; [discriminate|]).
  destruct cs; [|discriminate].
  do 12 (destruct i as [|i]; [reflexivity|]). lia.
Qed.

Lemma arcs_length (cs : list Q) :
  List.length cs = 12%nat -> List.length (arcs cs) = 12%nat.
Proof.
  intros H.
  do 12 (destruct cs as [|? cs]; [discriminate|]).
  destruct cs; [|discriminate]. reflexivity.
Qed.

Lemma houseLoop_S (cs : list Q) (x : Q) (i r : nat) :
  List.length cs = 12%nat -> (i < 12)%nat ->
  TransitCalculator.houseLoop (map Fin cs) (Fin x) i (S r)
  = if inArc x (nth i (arcs cs) (0, 0)) then Some i
    else TransitCalculator.houseLoop (map Fin cs) (Fin x) (i + 1) r.
Proof.
  intros H Hi. cbn [TransitCalculator.houseLoop].
  assert (Hn : ((i + 1) mod 12 < 12)%nat) by (apply Nat.mod_upper_bound; lia).
  rewrite !cuspAt_Fin by lia.
  rewrite arcs_nth by assumption.
  unfold inArc, wraps. cbn [lt ge le fst snd].
  destruct (Qltb (nth ((i + 1) mod 12) cs 0) (nth i cs 0)); reflexivity.
Qed.

(** On twelve finite cusps the loop of the source looks for the first
    house that holds the longitude. *)
Lemma houseLoop_suffix (cs : list Q) (x : Q) :
  List.length cs = 12%nat ->
  forall r i, (i + r = 12)%nat ->
    TransitCalculator.houseLoop (map Fin cs) (Fin x) i r
    = firstTrue (skipn i (map (inArc x) (arcs cs))) i.
Proof.
  intros H. induction r as [|r IH]; intros i Hi.
  - cbn [TransitCalculator.houseLoop].
    rewrite skipn_all2; [reflexivity|].
    rewrite length_map, arcs_length by assumption. lia.
  - rewrite houseLoop_S by (try assumption; lia).
    rewrite IH by lia.
    assert (L : (i < List.length (map (inArc x) (arcs cs)))%nat)
      by (rewrite length_map, arcs_length by assumption; lia).
    rewrite (skipn_nth_cons i _ false L).
    cbn [firstTrue].
    rewrite (nth_indep _ false (inArc x (0, 0)) L), map_nth.
    replace (S i) with (i + 1)%nat by lia. reflexivity.
Qed.

Lemma houseLoop_firstTrue (cs : list Q) (x : Q) :
  List.length cs = 12%nat ->
  TransitCalculator.houseLoop (map Fin cs) (Fin x) 0 12
  = firstTrue (map (inArc x) (arcs cs)) 0.
Proof.
  intros H. apply (houseLoop_suffix cs x H 12 0). reflexivity.
Qed.

Lemma trunc_small (x : Q) : 0 <= x -> x < 360 -> trunc (x / 360) = 0%Z.
Proof.
  intros H0 H1. unfold trunc.
  destruct x as [n d]. unfold Qle, Qlt in *. cbn in *.
  apply Z.quot_small. lia.
Qed.

Lemma normalizeLongitude_in_range (x : Q) :
  0 <= x -> x < 360 ->
  exists y, TransitCalculator.normalizeLongitude (Fin x) = Fin y /\ y == x.
Proof.
  intros H0 H1. unfold TransitCalculator.normalizeLongitude.
  cbn [rem]. change (Qeq_bool 360 0) with false. cbn iota.
  rewrite (trunc_small x H0 H1).
  exists (x - 360 * inject_Z 0). split.
  - cbn [lt]. 
    assert (E : Qltb (x - 360 * inject_Z 0) 0 = false).
    { apply Qltb_ge. change (inject_Z 0) with 0. lra. }
    rewrite E. reflexivity.
  - change (inject_Z 0) with 0. lra.
Qed.

Lemma nth_inArc (x : Q) (cs : list Q) (j : nat) :
  List.length cs = 12%nat -> (j < 12)%nat ->
  nth j (map (inArc x) (arcs cs)) false = inArc x (nth j (arcs cs) (0, 0)).
Proof.
  intros H Hj.
  rewrite (nth_indep _ false (inArc x (0, 0)))
    by (rewrite length_map, arcs_length by assumption; lia).
  apply map_nth.
Qed.

(** C2.  For twelve cusps that go once around the circle and a
    longitude in [0, 360), the loop over the cusps finds a house, so
    the fallback is not reached; the number returned is between 1 and
    12, the longitude lies in that house, and in no other.  With cusps
    every thirty degrees, 45 is in house 2 and 359 in house 12. *)
Theorem determinePlanetHouse_partition :
  (forall (hs : list House) (cs : list Q) (x : Q),
     map cusp hs = map Fin cs -> circular cs -> 0 <= x -> x < 360 ->
     exists i,
       (i < 12)%nat
       /\ TransitCalculator.houseLoop (map cusp hs)
            (TransitCalculator.normalizeLongitude (Fin x)) 0 12 = Some i
       /\ TransitCalculator.number (TransitCalculator.determinePlanetHouse (Fin x) hs)
          = (i + 1)%nat
       /\ TransitCalculator.distanceFromCusp (TransitCalculator.determinePlanetHouse (Fin x) hs)
          = None
       /\ AstrologicalCalculator.determinePlanetHouse (Fin x) hs = (i + 1)%nat
       /\ inArc x (nth i (arcs cs) (0, 0)) = true
       /\ (forall j, (j < 12)%nat ->
             inArc x (nth j (arcs cs) (0, 0)) = true -> j = i))
  /\ TransitCalculator.number (TransitCalculator.determinePlanetHouse (Fin 45) equalHouses)
     = 2%nat
  /\ TransitCalculator.number (TransitCalculator.determinePlanetHouse (Fin 359) equalHouses)
     = 12%nat
  /\ AstrologicalCalculator.determinePlanetHouse (Fin 45) equalHouses = 2%nat
  /\ AstrologicalCalculator.determinePlanetHouse (Fin 359) equalHouses
     = 12%nat.
Proof.
  split; [|repeat split; vm_compute; reflexivity].
  intros hs cs x Hcs Hcirc H0 H1.
  pose proof Hcirc as (Hlen & _ & _).
  destruct (normalizeLongitude_in_range x H0 H1) as (y & Hy & Eyx).
  assert (Loop : TransitCalculator.houseLoop (map cusp hs)
                   (TransitCalculator.normalizeLongitude (Fin x)) 0 12
                 = firstTrue (map (inArc x) (arcs cs)) 0).
  { rewrite Hcs, Hy, houseLoop_firstTrue by assumption.
    f_equal. apply map_ext. intros ab. apply inArc_Qeq. exact Eyx. }
  assert (Once : countTrue (map (inArc x) (arcs cs)) = 1%Z).
  { rewrite countTrue_inArc. apply circular_wraps_once. exact Hcirc. }
  destruct (firstTrue_unique _ 0%nat Once) as (i & F & L & N & U).
  rewrite length_map, arcs_length in L by assumption.
  cbn [Nat.add] in F. rewrite F in Loop.
  exists i. split; [exact L|]. split; [exact Loop|].
  unfold TransitCalculator.determinePlanetHouse,
    AstrologicalCalculator.determinePlanetHouse.
  rewrite Loop. cbn [TransitCalculator.number TransitCalculator.distanceFromCusp].
  repeat split.
  - rewrite <- nth_inArc by assumption. exact N.
  - intros j Hj Hin. apply U. rewrite nth_inArc by assumption. exact Hin.
Qed.

Lemma determinePlanetHouse_partition_witness :
  exists i,
    (i < 12)%nat
    /\ TransitCalculator.houseLoop (map cusp equalHouses)
         (TransitCalculator.normalizeLongitude (Fin 45)) 0 12 = Some i
    /\ TransitCalculator.number (TransitCalculator.determinePlanetHouse (Fin 45) equalHouses)
       = (i + 1)%nat.
Proof.
  destruct determinePlanetHouse_partition as [General _].
  destruct (General equalHouses
              (map (fun i => inject_Z (30 * Z.of_nat i)) (seq 0 12)) 45)
    as (i & Hi & Hloop & Hnum & _).
  - reflexivity.
  - unfold circular. split; [reflexivity|]. split; [|vm_compute; reflexivity].
    repeat (apply Forall_cons; [split; vm_compute; congruence|]).
    apply Forall_nil.
  - vm_compute. discriminate.
  - vm_compute. reflexivity.
  - exists i. repeat split; assumption.
Defined.

(** ** C3: orbs applied by findTransitAspect *)

Lemma angle_finite (a b : Q) :
  calculateAngleBetweenPlanets (Fin a) (Fin b) = Fin (angleQ a b).
Proof.
  unfold calculateAngleBetweenPlanets, angleQ. cbn [sub abs lift1 lift2 gt lt].
  destruct (Qltb 180 (Qabs (a - b))); reflexivity.
Qed.

Lemma angleQ_range (a b : Q) :
  0 <= a -> a < 360 -> 0 <= b -> b < 360 ->
  0 <= angleQ a b /\ angleQ a b <= 180.
Proof.
  intros. unfold angleQ.
  pose proof (Qabs_nonneg (a - b)).
  assert (Qabs (a - b) <= 360).
  { apply Qabs_case; intros; lra. }
  destruct (Qltb 180 (Qabs (a - b))) eqn:E.
  - apply Qltb_lt in E. lra.
  - apply Qltb_ge in E. lra.
Qed.

(** In the astrological calculator the orb is looked up under the name
    of the aspect: a match lies within the orb of the transiting body
    for the aspect returned, and every aspect tested before it, or all
    of them when nothing is returned, is farther away than its orb. *)
Lemma AstrologicalCalculator_findAmong_orb (p : string) (a : Q) :
  forall entries : dict AstrologicalCalculator.AspectDef,
    match AstrologicalCalculator.findAmong entries (Fin a) p with
    | Some d =>
        In (AstrologicalCalculator.matched d) (map snd entries)
        /\ AstrologicalCalculator.targetAngle d
           = AstrologicalCalculator.angle (AstrologicalCalculator.matched d)
        /\ AstrologicalCalculator.matchOrb d
           = Fin (Qabs (a - AstrologicalCalculator.targetAngle d))
        /\ Qabs (a - AstrologicalCalculator.targetAngle d)
           <= AstrologicalCalculator.getTransitOrb p
                (AstrologicalCalculator.name (AstrologicalCalculator.matched d))
    | None =>
        forall e, In e (map snd entries) ->
          AstrologicalCalculator.getTransitOrb p (AstrologicalCalculator.name e)
          < Qabs (a - AstrologicalCalculator.angle e)
    end.
Proof.
  induction entries as [|[k e] rest IH].
  - cbn. intros e [].
  - cbn [AstrologicalCalculator.findAmong sub abs lift1 lift2 le].
    destruct (Qle_bool (Qabs (a - AstrologicalCalculator.angle e))
                (AstrologicalCalculator.getTransitOrb p
                   (AstrologicalCalculator.name e))) eqn:T.
    + apply Qle_bool_iff in T. cbn. auto.
    + apply Qle_bool_false in T.
      destruct (AstrologicalCalculator.findAmong rest (Fin a) p) as [d|].
      * destruct IH as (I1 & I2 & I3 & I4). cbn [map snd In]. auto.
      * intros e' [<-|Hin]; [exact T|apply IH; exact Hin].
Qed.

(** There, a body of the table gets its own major orb for each of the
    five aspects, and a body that is not in the table the default. *)
Lemma AstrologicalCalculator_orb_table :
  forall k e, In (k, e) AstrologicalCalculator.transitAspects ->
    (forall planet o,
        lookup planet AstrologicalCalculator.transitOrbs = Some o ->
        AstrologicalCalculator.getTransitOrb planet
          (AstrologicalCalculator.name e) = AstrologicalCalculator.major o)
    /\ (forall planet,
          lookup planet AstrologicalCalculator.transitOrbs = None ->
          AstrologicalCalculator.getTransitOrb planet
            (AstrologicalCalculator.name e) = 1)
    /\ AstrologicalCalculator.getTransitOrb "Saturn"
         (AstrologicalCalculator.name e) = 2.
Proof.
  intros k e Hin. unfold AstrologicalCalculator.getTransitOrb.
  assert (M : includes AstrologicalCalculator.majorAspects
                (AstrologicalCalculator.name e) = true).
  { cbn in Hin.
    repeat (destruct Hin as [Hin|Hin];
            [inversion Hin; subst; reflexivity|]).
    contradiction. }
  rewrite M. repeat split.
  - intros planet o ->. reflexivity.
  - intros planet ->. reflexivity.
Qed.

(** In the transit calculator a match lies within the orb that
    [getTransitOrb] gives for the key of the entry. *)
Lemma TransitCalculator_findAmong_orb (p : string) (a : Q) :
  forall entries : dict TransitCalculator.AspectDef,
    match TransitCalculator.findAmong entries (Fin a) p with
    | Some d =>
        exists k,
          In (k, TransitCalculator.matched d) entries
          /\ TransitCalculator.matchOrb d
             = Fin (Qabs (a - TransitCalculator.targetAngle d))
          /\ Qabs (a - TransitCalculator.targetAngle d)
             <= TransitCalculator.getTransitOrb p k
    | None =>
        forall k e, In (k, e) entries ->
          TransitCalculator.getTransitOrb p k
          < Qabs (a - TransitCalculator.angle e)
    end.
Proof.
  induction entries as [|[k e] rest IH].
  - cbn. intros k e [].
  - cbn [TransitCalculator.findAmong sub abs lift1 lift2 le].
    destruct (Qle_bool (Qabs (a - TransitCalculator.angle e))
                (TransitCalculator.getTransitOrb p k)) eqn:T.
    + apply Qle_bool_iff in T. exists k. cbn. auto.
    + apply Qle_bool_false in T.
      destruct (TransitCalculator.findAmong rest (Fin a) p) as [d|].
      * destruct IH as (k' & I1 & I2 & I3). exists k'. cbn [In]. auto.
      * intros k' e' [E|Hin]; [inversion E; subst; exact T|].
        apply (IH k' e'). exact Hin.
Qed.

(** In the transit calculator the lookup is made under the key of the
    catalog entry, which is in upper case, while [majorAspects] is in
    lower case: whatever the body, the orb applied is a minor one. *)
Lemma TransitCalculator_orb_is_minor :
  forall k e planet, In (k, e) TransitCalculator.transitAspects ->
    TransitCalculator.getTransitOrb planet k
    = match lookup planet TransitCalculator.transitOrbs with
      | Some o => TransitCalculator.minor o
      | None => 1 # 2
      end.
Proof.
  intros k e planet Hin. unfold TransitCalculator.getTransitOrb.
  assert (M : includes TransitCalculator.majorAspects k = false).
  { cbn in Hin.
    repeat (destruct Hin as [Hin|Hin];
            [inversion Hin; subst; reflexivity|]).
    contradiction. }
  rewrite M. destruct (lookup planet TransitCalculator.transitOrbs); reflexivity.
Qed.

(** C3, at the failing input.  Saturn at 1.5 degrees from a natal
    point is within its major orb of 2 degrees for the conjunction, yet
    the transit calculator finds no aspect: under the key of the table
    ("SATURN") the orb applied is the minor one, 1 degree, and under
    the name the calculator gives the body ("Saturn") the table is
    missed and the default minor orb, 0.5 degrees, applies.  The
    astrological calculator returns the conjunction. *)
Theorem findTransitAspect_major_orb_missed :
  TransitCalculator.getTransitOrb "SATURN" "CONJUNCTION" = 1
  /\ TransitCalculator.getTransitOrb "Saturn" "CONJUNCTION" = 1 # 2
  /\ TransitCalculator.findTransitAspect (Fin (3 # 2)) (Fin 0) "SATURN" = None
  /\ TransitCalculator.findTransitAspect (Fin (3 # 2)) (Fin 0) "Saturn" = None
  /\ AstrologicalCalculator.getTransitOrb "Saturn" "conjunction" = 2
  /\ option_map
       (fun d => AstrologicalCalculator.name (AstrologicalCalculator.matched d))
       (AstrologicalCalculator.findTransitAspect (Fin (3 # 2)) (Fin 0) "Saturn")
     = Some "conjunction"%string.
Proof.
  repeat split; vm_compute; reflexivity.
Qed.

(** ** C4: the order of the aspect lists *)

(** C4, at the failing input.  The two builders of the astrological
    calculator return their list in the order the aspects were found,
    not by orb: the Sun over a Moon 0.8 degree away and a Mars 0.1
    degree away gives the orbs 0.8 then 0.1, and a chart with the Sun
    at 0, the Moon at 5 and Mars at 1 degree gives 5, 1, 4.  (The list
    of [calculateTransits] is sorted: [calculateTransits_sorted].) *)
Theorem astrological_builders_unsorted :
  let cross :=
    AstrologicalCalculator.calculateAspectsOfTwoCharts sunOver moonAndMars
      "transit" "natal" true (Instant 0) in
  let natal := AstrologicalCalculator.calculateNatalAspects threeBodies [] in
  map AstrologicalCalculator.orb cross = [Fin (80 # 100); Fin (10 # 100)]
  /\ ~ StronglySorted crossOrbLe cross
  /\ map AstroUtils.orb natal
     = [Fin (500 # 100); Fin (100 # 100); Fin (400 # 100)]
  /\ ~ StronglySorted natalOrbLe natal.
Proof.
  cbn zeta. split; [vm_compute; reflexivity|].
  split; [|split; [vm_compute; reflexivity|]].
  - intros S.
    remember (AstrologicalCalculator.calculateAspectsOfTwoCharts _ _ _ _ _ _)
      as cross eqn:E.
    vm_compute in E. subst cross.
    inversion S as [|? ? _ F]; subst.
    inversion F as [|? ? H _]; subst.
    vm_compute in H. discriminate H.
  - intros S.
    remember (AstrologicalCalculator.calculateNatalAspects _ _) as natal eqn:E.
    vm_compute in E. subst natal.
    inversion S as [|? ? _ F]; subst.
    inversion F as [|? ? H _]; subst.
    vm_compute in H. discriminate H.
Qed.

(** ** C5: the compatibility filter *)

(** The flag plays no part in the aspect stage of a chart. *)
Lemma aspectStage_ignores_flag (flag : bool) (positions angs : dict Position) :
  AstrologicalCalculator.aspectStage flag positions angs
  = AstroUtils.filterAspects
      (AstrologicalCalculator.calculateNatalAspects positions angs)
      (spread positions angs).
Proof. reflexivity. Qed.

(** C5, at the failing input.  With the compatibility flag unset, the
    conjunction of the Sun at 29 degrees (Aries) with the Moon at 31
    degrees (Taurus), which the matcher finds, is still removed by the
    filter because the signs differ, in the aspect stage and in the
    chart [generateChart] returns alike. *)
Theorem compatibility_filter_ignores_flag :
  map AstroUtils.aspect
    (AstrologicalCalculator.calculateNatalAspects sunMoonAcrossSigns [])
  = ["conjunction"%string]
  /\ AstrologicalCalculator.aspectStage false sunMoonAcrossSigns [] = Some []
  /\ option_map AstrologicalCalculator.chartAspects (chartOfTwoLights false)
     = Some []
  /\ option_map
       (fun c => map fst (AstrologicalCalculator.chartPlanets c))
       (chartOfTwoLights false)
     = Some ["Sun"; "Moon"; "AS"; "MC"]%string.
Proof.
  repeat split; vm_compute; reflexivity.
Qed.
(** ** Remainder and quotient on finite numbers *)

Lemma rem_finite (x m : Q) :
  ~ m == 0 -> rem (Fin x) (Fin m) = Fin (remQ x m).
Proof.
  intros H. unfold rem, remQ.
  destruct (Qeq_bool m 0) eqn:E; [|reflexivity].
  apply Qeq_bool_iff in E. contradiction.
Qed.

Lemma div_finite (x y : Q) : ~ y == 0 -> div (Fin x) (Fin y) = Fin (x / y).
Proof.
  intros H. unfold div.
  destruct (Qeq_bool y 0) eqn:E; [|reflexivity].
  apply Qeq_bool_iff in E. contradiction.
Qed.

(** ** C6: applying or separating *)





(** ** C7: the solar return search *)

Lemma foldDiff_finite (d : Q) : AstrologicalCalculator.foldDiff (Fin d)
                                = Fin (foldDiffQ d).
Proof.
  unfold AstrologicalCalculator.foldDiff, foldDiffQ.
  cbn [gt lt sub add lift2].
  destruct (Qltb 180 d); [reflexivity|].
  destruct (Qltb d (-180)); reflexivity.
Qed.

Section SolarLoop.

Variable swe_calc_ut : num -> AstrologicalCalculator.body -> CalcResult.
Variable natal : num.

Lemma solarLoop_bound (r : nat) :
  forall jd,
    (snd (AstrologicalCalculator.solarLoop swe_calc_ut r natal jd) <= r)%nat.
Proof.
  induction r as [|r IH]; intros jd; cbn [AstrologicalCalculator.solarLoop].
  - apply Nat.le_refl.
  - destruct (AstrologicalCalculator.solarIteration swe_calc_ut natal jd)
      as [|next|m]; cbn [snd]; try lia.
    specialize (IH next).
    destruct (AstrologicalCalculator.solarLoop swe_calc_ut r natal next).
    cbn [snd] in *. lia.
Qed.

(** While the iterations advance, the loop moves from estimate to
    estimate. *)
Lemma solarLoop_prefix (k : nat) :
  forall r jd,
    (forall j, (j < k)%nat ->
       advancing swe_calc_ut natal (estimateAt swe_calc_ut natal j jd)) ->
    AstrologicalCalculator.solarLoop swe_calc_ut (k + r) natal jd
    = (fst (AstrologicalCalculator.solarLoop swe_calc_ut r natal
              (estimateAt swe_calc_ut natal k jd)),
       (k + snd (AstrologicalCalculator.solarLoop swe_calc_ut r natal
                   (estimateAt swe_calc_ut natal k jd)))%nat).
Proof.
  induction k as [|k IH]; intros r jd H.
  - cbn [Nat.add estimateAt]. apply surjective_pairing.
  - cbn [Nat.add AstrologicalCalculator.solarLoop estimateAt].
    destruct (H 0%nat ltac:(lia)) as [next E]. cbn [estimateAt] in E.
    unfold advance. rewrite E.
    rewrite (IH r next).
    + reflexivity.
    + intros j Hj. specialize (H (S j) ltac:(lia)).
      cbn [estimateAt] in H. unfold advance in H. rewrite E in H. exact H.
Qed.

End SolarLoop.

Lemma foldDiffQ_bounds (x : Q) :
  -360 <= x -> x <= 360 -> -180 <= foldDiffQ x /\ foldDiffQ x <= 180.
Proof.
  intros L U. unfold foldDiffQ.
  destruct (Qltb 180 x) eqn:E1.
  - apply Qltb_lt in E1. split; lra.
  - apply Qltb_ge in E1. destruct (Qltb x (-180)) eqn:E2.
    + apply Qltb_lt in E2. split; lra.
    + apply Qltb_ge in E2. split; lra.
Qed.

(** One iteration on a query that succeeds, in exact arithmetic. *)
Lemma solarIteration_finite
    (swe_calc_ut : num -> AstrologicalCalculator.body -> CalcResult)
    (jd c v t : Q) (rflag : Z) :
  swe_calc_ut (Fin jd) AstrologicalCalculator.SE_SUN
  = Calc rflag (Fin c) (Fin v) ->
  (0 <= rflag)%Z ->
  AstrologicalCalculator.solarIteration swe_calc_ut (Fin t) (Fin jd)
  = if Qltb (Qabs (foldDiffQ (t - c))) (1 # 100000)
    then AstrologicalCalculator.Converged
    else if Qltb (Qabs v) (1 # 10000)
    then AstrologicalCalculator.Fails "Sun speed too small for calculation"
    else AstrologicalCalculator.Advance (Fin (jd + foldDiffQ (t - c) / v)).
Proof.
  intros Hq Hr.
  unfold AstrologicalCalculator.solarIteration. rewrite Hq.
  assert (F : (rflag <? 0)%Z = false) by (apply Z.ltb_ge; exact Hr).
  rewrite F.
  change (sub (Fin t) (Fin c)) with (Fin (t - c)).
  rewrite foldDiff_finite.
  unfold AstrologicalCalculator.tolerance. cbn [abs lift1 lt].
  destruct (Qltb (Qabs (foldDiffQ (t - c))) (1 # 100000)); [reflexivity|].
  destruct (Qltb (Qabs v) (1 # 10000)) eqn:V; [reflexivity|].
  assert (Hv : ~ v == 0).
  { intros E. apply Qltb_ge in V. rewrite E in V. vm_compute in V.
    apply V. reflexivity. }
  rewrite (div_finite _ v Hv). reflexivity.
Qed.

(** C7, as the code has it.  The loop runs at most 20 iterations.  An
    iteration whose query fails (an exception, or a negative flag)
    fails.  An iteration whose query succeeds takes the difference
    between the natal longitude and the longitude of the Sun, brought
    back by one turn when it is above 180 or below -180 (so it ends in
    the closed range from -180 to 180); it stops with the current
    estimate when the difference is below 0.00001 in absolute value,
    fails when the speed of the Sun is below 0.0001 in absolute value,
    and otherwise moves the estimate by the difference divided by the
    speed.  These steps are stated for longitudes from 0 to 360 and up
    to the rounding of the arithmetic: a billionth is left around the
    tolerance and around the fold at 180 degrees, and the new estimate
    is given to a millionth of a day.  The search returns the first
    estimate within the tolerance; it fails as soon as an iteration
    fails; and when 20 iterations have advanced it returns the estimate
    they reached. *)
Theorem findSolarReturnMoment_iterations :
  forall (swe_calc_ut : num -> AstrologicalCalculator.body -> CalcResult)
         (dateToJulianDay : Date -> num) (julianDayToDate : num -> Date)
         (searchStartDate : Z -> Date -> Date)
         (natal : num) (year : Z) (birthDate : Date),
    let jd0 := dateToJulianDay (searchStartDate year birthDate) in
    let run := AstrologicalCalculator.solarLoop swe_calc_ut 20 natal jd0 in
    let found :=
      AstrologicalCalculator.findSolarReturnMoment swe_calc_ut
        dateToJulianDay julianDayToDate searchStartDate natal year birthDate in
    let estimate k := estimateAt swe_calc_ut natal k jd0 in
    let advances k :=
      forall j, (j < k)%nat -> advancing swe_calc_ut natal (estimate j) in
    (snd run <= 20)%nat
    /\ (forall t jd,
           failedQuery (swe_calc_ut jd AstrologicalCalculator.SE_SUN) ->
           exists message,
             AstrologicalCalculator.solarIteration swe_calc_ut t jd
             = AstrologicalCalculator.Fails message)
    /\ (forall x, -360 <= x -> x <= 360 ->
           AstrologicalCalculator.foldDiff (Fin x) = Fin (foldDiffQ x)
           /\ -180 <= foldDiffQ x /\ foldDiffQ x <= 180
           /\ (foldDiffQ x == x \/ foldDiffQ x == x - 360
               \/ foldDiffQ x == x + 360))
    /\ (forall jd rflag c v t,
           swe_calc_ut (Fin jd) AstrologicalCalculator.SE_SUN
           = Calc rflag (Fin c) (Fin v) ->
           (0 <= rflag)%Z ->
           0 <= t -> t <= 360 -> 0 <= c -> c <= 360 ->
           let d := foldDiffQ (t - c) in
           let step :=
             AstrologicalCalculator.solarIteration swe_calc_ut (Fin t)
               (Fin jd) in
           (Qabs d <= (1 # 100000) - rounding ->
            step = AstrologicalCalculator.Converged)
           /\ ((1 # 100000) + rounding <= Qabs d -> Qabs v < 1 # 10000 ->
               step = AstrologicalCalculator.Fails
                        "Sun speed too small for calculation")
           /\ ((1 # 100000) + rounding <= Qabs d -> 1 # 10000 <= Qabs v ->
               rounding <= Qabs (Qabs (t - c) - 180) ->
               Qabs jd <= 10000000 ->
               exists next,
                 step = AstrologicalCalculator.Advance (Fin next)
                 /\ Qabs (next - (jd + d / v)) <= 1 # 1000000))
    /\ (forall k, (k < 20)%nat -> advances k ->
           AstrologicalCalculator.solarIteration swe_calc_ut natal (estimate k)
           = AstrologicalCalculator.Converged ->
           found = Ok (julianDayToDate (estimate k))
           /\ snd run = (k + 1)%nat)
    /\ (forall k message, (k < 20)%nat -> advances k ->
           AstrologicalCalculator.solarIteration swe_calc_ut natal (estimate k)
           = AstrologicalCalculator.Fails message ->
           found = Error (String.append "Error finding solar return moment: "
                            message)
           /\ snd run = (k + 1)%nat)
    /\ (advances 20%nat ->
        found = Ok (julianDayToDate (estimate 20%nat))
        /\ snd run = 20%nat).
Proof.
  intros swe_calc_ut dateToJulianDay julianDayToDate searchStartDate
    natal year birthDate jd0 run found estimate advances.
  split; [apply solarLoop_bound|].
  split.
  { intros t jd Hfail. unfold AstrologicalCalculator.solarIteration.
    destruct (swe_calc_ut jd AstrologicalCalculator.SE_SUN)
      as [rflag lon speed|]; cbn [failedQuery] in Hfail.
    - apply Z.ltb_lt in Hfail. rewrite Hfail. eexists. reflexivity.
    - eexists. reflexivity. }
  split.
  { intros x L U. split; [apply foldDiff_finite|].
    destruct (foldDiffQ_bounds x L U) as [A B].
    split; [exact A|]. split; [exact B|].
    unfold foldDiffQ.
    destruct (Qltb 180 x); [right; left; reflexivity|].
    destruct (Qltb x (-180)); [right; right; reflexivity|left; reflexivity]. }
  split.
  { intros jd rflag c v t Hq Hr T0 T1 C0 C1 d step.
    unfold step. rewrite (solarIteration_finite _ jd c v t rflag Hq Hr).
    fold d. unfold rounding.
    split; [|split].
    - intros Hd.
      assert (E : Qltb (Qabs d) (1 # 100000) = true) by (apply Qltb_lt; lra).
      rewrite E. reflexivity.
    - intros Hd Hv.
      assert (E : Qltb (Qabs d) (1 # 100000) = false) by (apply Qltb_ge; lra).
      assert (V : Qltb (Qabs v) (1 # 10000) = true) by (apply Qltb_lt; exact Hv).
      rewrite E, V. reflexivity.
    - intros Hd Hv _ _.
      assert (E : Qltb (Qabs d) (1 # 100000) = false) by (apply Qltb_ge; lra).
      assert (V : Qltb (Qabs v) (1 # 10000) = false)
        by (apply Qltb_ge; exact Hv).
      rewrite E, V. eexists. split; [reflexivity|].
      setoid_replace (jd + d / v - (jd + d / v)) with 0 by ring.
      discriminate. }
  assert (Stop : forall k, (k < 20)%nat -> advances k ->
            forall res,
              AstrologicalCalculator.solarLoop swe_calc_ut (20 - k) natal
                (estimate k) = (res, 1%nat) ->
              run = (res, (k + 1)%nat)).
  { intros k Hk Hadv res E. unfold run.
    replace 20%nat with (k + (20 - k))%nat at 1 by lia.
    rewrite (solarLoop_prefix swe_calc_ut natal k (20 - k) jd0 Hadv).
    fold (estimate k). rewrite E. reflexivity. }
  split; [|split].
  - intros k Hk Hadv Hconv.
    assert (E : run = (Ok (estimate k), (k + 1)%nat)).
    { apply Stop; try assumption.
      destruct (20 - k)%nat as [|r] eqn:R; [lia|].
      cbn [AstrologicalCalculator.solarLoop]. rewrite Hconv. reflexivity. }
    unfold found, AstrologicalCalculator.findSolarReturnMoment,
      AstrologicalCalculator.maxIterations.
    fold jd0. fold run. rewrite E. split; reflexivity.
  - intros k message Hk Hadv Hfail.
    assert (E : run = (Error message, (k + 1)%nat)).
    { apply Stop; try assumption.
      destruct (20 - k)%nat as [|r] eqn:R; [lia|].
      cbn [AstrologicalCalculator.solarLoop]. rewrite Hfail. reflexivity. }
    unfold found, AstrologicalCalculator.findSolarReturnMoment,
      AstrologicalCalculator.maxIterations.
    fold jd0. fold run. rewrite E. split; reflexivity.
  - intros Hadv.
    assert (E : run = (Ok (estimate 20%nat), 20%nat)).
    { pose proof (solarLoop_prefix swe_calc_ut natal 20 0 jd0 Hadv) as P.
      change (20 + 0)%nat with 20%nat in P. unfold run. rewrite P.
      reflexivity. }
    unfold found, AstrologicalCalculator.findSolarReturnMoment,
      AstrologicalCalculator.maxIterations.
    fold jd0. fold run. rewrite E. split; reflexivity.
Qed.

Lemma findSolarReturnMoment_iterations_witness :
  AstrologicalCalculator.findSolarReturnMoment linearSun (fun _ => Fin 15)
    newDate (fun _ d => d) (Fin 20) 2026 (Instant 0)
  = Ok (newDate (estimateAt linearSun (Fin 20) 1 (Fin 15)))
  /\ snd (AstrologicalCalculator.solarLoop linearSun 20 (Fin 20) (Fin 15))
     = 2%nat.
Proof.
  destruct (findSolarReturnMoment_iterations linearSun (fun _ => Fin 15)
              newDate (fun _ d => d) (Fin 20) 2026 (Instant 0))
    as (_ & _ & _ & _ & Conv & _).
  apply (Conv 1%nat).
  - lia.
  - intros j Hj. assert (j = 0%nat) by lia. subst j.
    eexists. vm_compute. reflexivity.
  - vm_compute. reflexivity.
Defined.

(** The claim fails where the Sun stands still: the search does not
    advance and does not return an estimate, it fails at the first
    iteration.  And a difference of exactly -180 degrees is left as it
    is, outside the half-open range. *)
Lemma stationary_sun_fails :
  AstrologicalCalculator.findSolarReturnMoment stationarySun (fun _ => Fin 15)
    newDate (fun _ d => d) (Fin 20) 2026 (Instant 0)
  = Error
      "Error finding solar return moment: Sun speed too small for calculation"
  /\ snd (AstrologicalCalculator.solarLoop stationarySun 20 (Fin 20) (Fin 15))
     = 1%nat
  /\ AstrologicalCalculator.foldDiff (sub (Fin 0) (Fin 180)) = Fin (0 - 180)
  /\ ~ (-180 < 0 - 180).
Proof.
  repeat split; try (vm_compute; reflexivity).
  vm_compute. discriminate.
Qed.
(** ** C8: the estimate of the peak date *)

Lemma trunc_close (q : Q) : Qabs (inject_Z (trunc q) - q) < 1.
Proof.
  apply Qabs_Qlt_condition.
  destruct q as [n d]. unfold trunc. cbn [Qnum Qden].
  pose proof (Z.quot_rem' n (Zpos d)) as E.
  pose proof (Z.rem_bound_abs n (Zpos d)) as B.
  assert (Z.abs (Z.rem n (Z.pos d)) < Z.pos d)%Z.
  { rewrite (Z.abs_eq (Z.pos d)) in B by lia. apply B. lia. }
  unfold Qlt, Qminus, Qplus, Qopp, inject_Z. cbn [Qnum Qden].
  split; nia.
Qed.

Lemma speed_nonzero (s : Q) : Qltb (Qabs s) (1 # 1000) = false -> ~ s == 0.
Proof.
  intros H E. apply Qltb_ge in H. rewrite E in H. vm_compute in H.
  apply H. reflexivity.
Qed.

Lemma adjustedDiff_finite (d : Q) :
  (if gt (abs (Fin d)) (Fin 180)
   then if gt (Fin d) (Fin 0) then sub (Fin d) (Fin 360)
        else add (Fin d) (Fin 360)
   else Fin d) = Fin (adjustedDiffQ d).
Proof.
  unfold adjustedDiffQ. cbn [gt lt abs lift1 sub add lift2].
  destruct (Qltb 180 (Qabs d)); [destruct (Qltb 0 d)|]; reflexivity.
Qed.

(** On finite positions and a valid date, in exact arithmetic. *)
Lemma estimatePeakDate_finite (tp np : Position) (l s n t : Q) (asOf : Z) :
  longitude tp = Fin l -> longitudeSpeed tp = Fin s -> longitude np = Fin n ->
  TransitCalculator.estimatePeakDate tp np (Fin t) (Instant asOf)
  = peakQ 365 l s n t asOf
  /\ AstrologicalCalculator.estimatePeakDate tp np (Fin t) (Instant asOf)
     = peakQ (365 * 5) l s n t asOf.
Proof.
  intros Hl Hs Hn.
  unfold TransitCalculator.estimatePeakDate,
    AstrologicalCalculator.estimatePeakDate, peakQ.
  rewrite Hl, Hs, Hn. cbn [abs lift1 lt].
  destruct (Qltb (Qabs s) (1 # 1000)) eqn:S; [split; reflexivity|].
  pose proof (speed_nonzero s S) as Hs0.
  rewrite angle_finite.
  change (sub (Fin t) (Fin (angleQ l n))) with (Fin (t - angleQ l n)).
  rewrite adjustedDiff_finite, (div_finite _ s Hs0).
  cbn [abs lift1 gt lt mul lift2 getTime add newDate].
  split; reflexivity.
Qed.

(** C8.  [estimatePeakDate] returns nothing when the speed of the
    moving body is below 0.001 degree a day in absolute value; nothing
    when the number of days it obtains by dividing the adjusted angle
    difference by the speed exceeds, in absolute value, 365 (transit
    calculator) or 5 times 365 (astrological calculator); and otherwise
    the date built from the time of the given date plus that number of
    days, in milliseconds.  In terms of the exact quotient, for
    longitudes from 0 to 360, a target from 0 to 180 and a date within
    8e15 milliseconds of the epoch: nothing is returned when the
    quotient exceeds the bound by a billionth of a day or more, and
    when it is below the bound by as much the date returned lies
    within two milliseconds of the given date plus the quotient. *)
Theorem estimatePeakDate_linear :
  (forall (tp np : Position) (target : num) (asOf : Date),
      let speed := longitudeSpeed tp in
      let angleDifference :=
        sub target
          (calculateAngleBetweenPlanets (longitude tp) (longitude np)) in
      let adjustedDiff :=
        if gt (abs angleDifference) (Fin 180) then
          if gt angleDifference (Fin 0) then sub angleDifference (Fin 360)
          else add angleDifference (Fin 360)
        else angleDifference in
      let daysToExact := div adjustedDiff speed in
      let estimate bound (r : option Date) :=
        (lt (abs speed) (Fin (1 # 1000)) = true -> r = None)
        /\ (lt (abs speed) (Fin (1 # 1000)) = false ->
            gt (abs daysToExact) bound = true -> r = None)
        /\ (lt (abs speed) (Fin (1 # 1000)) = false ->
            gt (abs daysToExact) bound = false ->
            r = Some (newDate
                        (add (getTime asOf)
                           (mul (mul (mul (mul daysToExact (Fin 24)) (Fin 60))
                                   (Fin 60)) (Fin 1000))))) in
      estimate (Fin 365)
        (TransitCalculator.estimatePeakDate tp np target asOf)
      /\ estimate (mul (Fin 365) (Fin 5))
           (AstrologicalCalculator.estimatePeakDate tp np target asOf))
  /\ (forall (tp np : Position) (l s n t : Q) (asOf : Z),
         longitude tp = Fin l -> longitudeSpeed tp = Fin s ->
         longitude np = Fin n ->
         0 <= l -> l <= 360 -> 0 <= n -> n <= 360 -> 0 <= t -> t <= 180 ->
         (- 8000000000000000 <= asOf <= 8000000000000000)%Z ->
         let days := adjustedDiffQ (t - angleQ l n) / s in
         let estimate bound (r : option Date) :=
           (Qabs s < 1 # 1000 -> r = None)
           /\ (1 # 1000 <= Qabs s -> bound + rounding <= Qabs days ->
               r = None)
           /\ (1 # 1000 <= Qabs s -> Qabs days <= bound - rounding ->
               exists ms,
                 r = Some (Instant ms)
                 /\ Qabs (inject_Z ms - (inject_Z asOf + days * 86400000))
                    < 2) in
         estimate 365
           (TransitCalculator.estimatePeakDate tp np (Fin t) (Instant asOf))
         /\ estimate (365 * 5)
              (AstrologicalCalculator.estimatePeakDate tp np (Fin t)
                 (Instant asOf))).
Proof.
  split.
  - intros tp np target asOf speed angleDifference adjustedDiff daysToExact
      estimate.
    unfold estimate, TransitCalculator.estimatePeakDate,
      AstrologicalCalculator.estimatePeakDate.
    fold speed. fold angleDifference. fold adjustedDiff. fold daysToExact.
    split; (split; [intros ->; reflexivity|]);
      (split; [intros -> ->; reflexivity|intros -> ->; reflexivity]).
  - intros tp np l s n t asOf Hl Hs Hn _ _ _ _ _ _ _ days estimate.
    destruct (estimatePeakDate_finite tp np l s n t asOf Hl Hs Hn) as [-> ->].
    assert (G : forall bound, estimate bound (peakQ bound l s n t asOf)).
    { intros bound. unfold estimate, peakQ, rounding. fold days.
      repeat split.
      - intros H. apply Qltb_lt in H. rewrite H. reflexivity.
      - intros H1 H2. apply Qltb_ge in H1.
        assert (H3 : Qltb bound (Qabs days) = true) by (apply Qltb_lt; lra).
        rewrite H1, H3. reflexivity.
      - intros H1 H2. apply Qltb_ge in H1.
        assert (H3 : Qltb bound (Qabs days) = false) by (apply Qltb_ge; lra).
        rewrite H1, H3. eexists. split; [reflexivity|].
        assert (E : inject_Z asOf + days * 86400000
                    == inject_Z asOf + days * 24 * 60 * 60 * 1000) by ring.
        rewrite E. eapply Qlt_trans; [apply trunc_close|reflexivity]. }
    split; apply G.
Qed.

Lemma estimatePeakDate_linear_witness :
  exists ms,
    TransitCalculator.estimatePeakDate
      (at_ (Fin 10) (Fin (1 # 2))) (at_ (Fin 99) NaN) (Fin 90) (Instant 0)
    = Some (Instant ms)
    /\ Qabs (inject_Z ms
             - (inject_Z 0
                + adjustedDiffQ (90 - angleQ 10 99) / (1 # 2) * 86400000)) < 2.
Proof.
  destruct estimatePeakDate_linear as [_ Exact].
  assert (Q0 : forall x y : Q, Qle_bool x y = true -> x <= y)
    by (intros x y; apply Qle_bool_iff).
  destruct (Exact (at_ (Fin 10) (Fin (1 # 2))) (at_ (Fin 99) NaN)
              10 (1 # 2) 99 90 0%Z eq_refl eq_refl eq_refl
              (Q0 0 10 eq_refl) (Q0 10 360 eq_refl)
              (Q0 0 99 eq_refl) (Q0 99 360 eq_refl)
              (Q0 0 90 eq_refl) (Q0 90 180 eq_refl)
              ltac:(lia))
    as [(_ & _ & Near) _].
  apply Near; vm_compute; discriminate.
Defined.

(** ** The sort of the transit list *)

Section SortFacts.

Context {A : Type} (cmp : A -> A -> num).

Lemma insert_perm (x : A) (l : list A) :
  Permutation (TransitCalculator.insert cmp x l) (x :: l).
Proof.
  induction l as [|y ys IH]; cbn [TransitCalculator.insert].
  - apply Permutation_refl.
  - destruct (gt (cmp x y) (Fin 0)).
    + eapply perm_trans; [apply perm_skip, IH|apply perm_swap].
    + apply Permutation_refl.
Qed.

Lemma sort_perm (l : list A) : Permutation (TransitCalculator.sort cmp l) l.
Proof.
  induction l as [|x l IH]; [apply perm_nil|].
  cbn [TransitCalculator.sort fold_right].
  eapply perm_trans; [apply insert_perm|apply perm_skip, IH].
Qed.

End SortFacts.

Lemma countIf_perm {A : Type} (p : A -> bool) (l l' : list A) :
  Permutation l l' -> countIf p l = countIf p l'.
Proof.
  unfold countIf. induction 1 as [|x l l' _ IH|x y l|l l' l'' _ IH1 _ IH2].
  - reflexivity.
  - cbn [filter]. destruct (p x); cbn [List.length]; congruence.
  - cbn [filter]. destruct (p x), (p y); reflexivity.
  - congruence.
Qed.

Lemma byOrb_gt (a b : TransitCalculator.Aspect) (x y : Q) :
  TransitCalculator.orb a = Fin x -> TransitCalculator.orb b = Fin y ->
  gt (TransitCalculator.byOrb a b) (Fin 0) = Qltb y x.
Proof.
  intros Ha Hb. unfold TransitCalculator.byOrb. rewrite Ha, Hb.
  cbn [sub lift2 gt lt].
  destruct (Qltb y x) eqn:E.
  - apply Qltb_lt in E. apply Qltb_lt. lra.
  - apply Qltb_ge in E. apply Qltb_ge. lra.
Qed.

Lemma insert_sorted (x : TransitCalculator.Aspect)
    (l : list TransitCalculator.Aspect) :
  finiteOrb x -> Forall finiteOrb l -> StronglySorted orbLe l ->
  StronglySorted orbLe (TransitCalculator.insert TransitCalculator.byOrb x l).
Proof.
  intros [qx Hx] Hfin Hs.
  induction Hs as [|y ys Hys IH Hall]; cbn [TransitCalculator.insert].
  - repeat constructor.
  - inversion Hfin as [|? ? [qy Hy] Hfin']; subst.
    rewrite (byOrb_gt x y qx qy Hx Hy).
    destruct (Qltb qy qx) eqn:E.
    + apply Qltb_lt in E.
      apply SSorted_cons; [apply IH; exact Hfin'|].
      apply (Permutation_Forall
               (Permutation_sym (insert_perm TransitCalculator.byOrb x ys))).
      apply Forall_cons; [|exact Hall].
      unfold orbLe. rewrite Hx, Hy. apply Qle_bool_iff. lra.
    + apply Qltb_ge in E.
      assert (Hxy : orbLe x y)
        by (unfold orbLe; rewrite Hx, Hy; apply Qle_bool_iff; exact E).
      apply SSorted_cons; [apply SSorted_cons; assumption|].
      apply Forall_cons; [exact Hxy|].
      apply (Forall_impl _ (P := orbLe y)); [|exact Hall].
      intros z Hyz. unfold orbLe in *. rewrite Hx, Hy in *.
      destruct (TransitCalculator.orb z) as [qz|]; [|discriminate].
      cbn [le] in *. apply Qle_bool_iff in Hyz. apply Qle_bool_iff. lra.
Qed.

Lemma sort_sorted (l : list TransitCalculator.Aspect) :
  Forall finiteOrb l ->
  StronglySorted orbLe (TransitCalculator.sort TransitCalculator.byOrb l).
Proof.
  induction l as [|x l IH]; intros H; cbn [TransitCalculator.sort fold_right].
  - constructor.
  - inversion H; subst. apply insert_sorted; try assumption.
    + apply (Permutation_Forall
               (Permutation_sym (sort_perm TransitCalculator.byOrb l))).
      assumption.
    + apply IH. assumption.
Qed.

(** Aspects of equal orb keep the order in which they were pushed. *)
Lemma insert_stable (q : Q) (x : TransitCalculator.Aspect)
    (l : list TransitCalculator.Aspect) :
  finiteOrb x -> Forall finiteOrb l ->
  filter (hasOrb q) (TransitCalculator.insert TransitCalculator.byOrb x l)
  = filter (hasOrb q) (x :: l).
Proof.
  intros [qx Hx] Hfin.
  induction l as [|y ys IH]; cbn [TransitCalculator.insert]; [reflexivity|].
  inversion Hfin as [|? ? [qy Hy] Hfin']; subst.
  rewrite (byOrb_gt x y qx qy Hx Hy).
  destruct (Qltb qy qx) eqn:E; [|reflexivity].
  apply Qltb_lt in E.
  assert (Ox : hasOrb q x = Qeq_bool qx q) by (unfold hasOrb; rewrite Hx; reflexivity).
  assert (Oy : hasOrb q y = Qeq_bool qy q) by (unfold hasOrb; rewrite Hy; reflexivity).
  cbn [filter] in *. rewrite (IH Hfin'), Ox, Oy.
  destruct (Qeq_bool qx q) eqn:Ex; [|reflexivity].
  destruct (Qeq_bool qy q) eqn:Ey; [|reflexivity].
  apply Qeq_bool_iff in Ex. apply Qeq_bool_iff in Ey. lra.
Qed.

Lemma sort_stable (q : Q) (l : list TransitCalculator.Aspect) :
  Forall finiteOrb l ->
  filter (hasOrb q) (TransitCalculator.sort TransitCalculator.byOrb l)
  = filter (hasOrb q) l.
Proof.
  induction l as [|x l IH]; intros H; [reflexivity|].
  inversion H; subst.
  cbn [TransitCalculator.sort fold_right].
  rewrite insert_stable.
  - cbn [filter]. fold (TransitCalculator.sort TransitCalculator.byOrb l).
    rewrite IH by assumption. reflexivity.
  - assumption.
  - apply (Permutation_Forall
             (Permutation_sym (sort_perm TransitCalculator.byOrb l))).
    assumption.
Qed.

(** ** C10: the summary of calculateTransits *)

Lemma findAmong_finite (p : string) (a : num) :
  forall entries d,
    TransitCalculator.findAmong entries a p = Some d ->
    exists q, TransitCalculator.matchOrb d = Fin q.
Proof.
  induction entries as [|[k e] rest IH]; intros d H; [discriminate|].
  cbn [TransitCalculator.findAmong] in H.
  destruct (le (abs (sub a (Fin (TransitCalculator.angle e))))
              (Fin (TransitCalculator.getTransitOrb p k))) eqn:T.
  - inversion H; subst. cbn [TransitCalculator.matchOrb].
    destruct (abs (sub a (Fin (TransitCalculator.angle e)))) as [q|];
      [exists q; reflexivity|discriminate].
  - apply IH. exact H.
Qed.

Lemma countIf_snoc {A : Type} (p : A -> bool) (l : list A) (x : A) :
  countIf p (l ++ [x]) = (countIf p l + if p x then 1 else 0)%nat.
Proof.
  unfold countIf. rewrite filter_app, length_app. cbn [filter].
  destruct (p x); reflexivity.
Qed.

Lemma transitStep_consistent (transitDate : Date) (transitPlanet : string)
    (transitPos : Position) st natal :
  consistent st ->
  consistent (TransitCalculator.transitStep transitDate transitPlanet
                transitPos st natal).
Proof.
  destruct st as [l sm]. destruct natal as [natalPlanet natalPos].
  intros (Ht & Ha & Hs & He & Hf).
  unfold TransitCalculator.transitStep.
  destruct (TransitCalculator.findTransitAspect (longitude transitPos)
              (longitude natalPos) transitPlanet) as [d|] eqn:F;
    [|repeat split; assumption].
  apply findAmong_finite in F.
  cbn [fst snd consistent TransitCalculator.updateTransitSummary
         TransitCalculator.total TransitCalculator.nApplying
         TransitCalculator.nSeparating TransitCalculator.exact
         TransitCalculator.applying TransitCalculator.orb].
  rewrite length_app, !countIf_snoc.
  cbn [List.length TransitCalculator.applying isExact TransitCalculator.orb].
  unfold isExact at 2. cbn [TransitCalculator.orb].
  repeat split.
  - lia.
  - destruct (TransitCalculator.isTransitApplying _ _ _); lia.
  - destruct (TransitCalculator.isTransitApplying _ _ _); cbn [negb]; lia.
  - destruct (lt (TransitCalculator.matchOrb d) (Fin (1 # 2))); lia.
  - apply Forall_app. split; [exact Hf|].
    constructor; [exact F|constructor].
Qed.

Lemma fold_left_consistent {X : Type}
    (f : list TransitCalculator.Aspect * TransitCalculator.Summary -> X ->
         list TransitCalculator.Aspect * TransitCalculator.Summary)
    (xs : list X) :
  (forall st x, consistent st -> consistent (f st x)) ->
  forall st, consistent st -> consistent (fold_left f xs st).
Proof.
  intros Hf. induction xs as [|x xs IH]; intros st H; [exact H|].
  cbn [fold_left]. apply IH, Hf, H.
Qed.

Lemma transitLoops_consistent (transitDate : Date)
    (transitPositions natalPositions : dict Position) :
  consistent (TransitCalculator.transitLoops transitDate transitPositions
                natalPositions).
Proof.
  unfold TransitCalculator.transitLoops.
  apply fold_left_consistent.
  - intros st transit H. apply fold_left_consistent; [|exact H].
    intros st' natal H'. apply transitStep_consistent. exact H'.
  - cbn. repeat split; constructor.
Qed.

(** The list [calculateTransits] returns is the list in the order the
    aspects were pushed, sorted: ascending by orb, with the same
    entries, aspects of equal orb keeping their order. *)
Lemma calculateTransits_sorted
    (swe_calc_ut : num -> TransitCalculator.body -> CalcResult)
    (dateToJulianDay : Date -> num)
    (natalPositions : dict Position) (natalHouses : option (list House))
    (transitDate : Date) :
  let t := TransitCalculator.calculateTransits swe_calc_ut dateToJulianDay
             natalPositions natalHouses transitDate in
  let pushed :=
    fst (TransitCalculator.transitLoops transitDate
           (TransitCalculator.transitPositions t) natalPositions) in
  StronglySorted orbLe (TransitCalculator.aspects t)
  /\ Permutation (TransitCalculator.aspects t) pushed
  /\ forall q, filter (hasOrb q) (TransitCalculator.aspects t)
               = filter (hasOrb q) pushed.
Proof.
  cbn zeta. unfold TransitCalculator.calculateTransits,
    TransitCalculator.transitsFrom.
  cbn [TransitCalculator.aspects TransitCalculator.transitPositions].
  pose proof (transitLoops_consistent transitDate
                (TransitCalculator.calculatePlanetaryPositions swe_calc_ut
                   (dateToJulianDay transitDate) natalHouses)
                natalPositions) as C.
  destruct (TransitCalculator.transitLoops _ _ _) as [l sm].
  destruct C as (_ & _ & _ & _ & Hf). cbn [fst].
  repeat split.
  - apply sort_sorted. exact Hf.
  - apply sort_perm.
  - intros q. apply sort_stable. exact Hf.
Qed.

(** C10.  In what [calculateTransits] returns, [summary.total] is the
    number of entries of [aspects] and the sum of [summary.applying]
    and [summary.separating], which count the entries that are applying
    and those that are not, and [summary.exact] is the number of
    entries whose orb is below 0.5. *)
Theorem calculateTransits_summary_consistent :
  forall (swe_calc_ut : num -> TransitCalculator.body -> CalcResult)
         (dateToJulianDay : Date -> num)
         (natalPositions : dict Position) (natalHouses : option (list House))
         (transitDate : Date),
    let t := TransitCalculator.calculateTransits swe_calc_ut dateToJulianDay
               natalPositions natalHouses transitDate in
    let sm := TransitCalculator.summary t in
    TransitCalculator.total sm = List.length (TransitCalculator.aspects t)
    /\ TransitCalculator.total sm
       = (TransitCalculator.nApplying sm + TransitCalculator.nSeparating sm)%nat
    /\ TransitCalculator.nApplying sm
       = countIf TransitCalculator.applying (TransitCalculator.aspects t)
    /\ TransitCalculator.nSeparating sm
       = countIf (fun a => negb (TransitCalculator.applying a))
           (TransitCalculator.aspects t)
    /\ TransitCalculator.exact sm
       = countIf (fun a => lt (TransitCalculator.orb a) (Fin (1 # 2)))
           (TransitCalculator.aspects t).
Proof.
  intros swe_calc_ut dateToJulianDay natalPositions natalHouses transitDate.
  cbn zeta. unfold TransitCalculator.calculateTransits,
    TransitCalculator.transitsFrom.
  cbn [TransitCalculator.aspects TransitCalculator.summary].
  pose proof (transitLoops_consistent transitDate
                (TransitCalculator.calculatePlanetaryPositions swe_calc_ut
                   (dateToJulianDay transitDate) natalHouses)
                natalPositions) as C.
  destruct (TransitCalculator.transitLoops _ _ _) as [l sm].
  destruct C as (Ht & Ha & Hs & He & _). cbn [fst snd].
  pose proof (sort_perm TransitCalculator.byOrb l) as P.
  rewrite !(countIf_perm _ _ _ P).
  rewrite (Permutation_length P).
  assert (Split : forall l' : list TransitCalculator.Aspect,
             List.length l'
             = (countIf TransitCalculator.applying l'
                + countIf (fun a => negb (TransitCalculator.applying a)) l')%nat).
  { unfold countIf. induction l' as [|a l' IH]; [reflexivity|].
    cbn [filter List.length]. destruct (TransitCalculator.applying a);
      cbn [negb List.length]; lia. }
  repeat split; try assumption.
  rewrite Ht, Ha, Hs. apply Split.
Qed.

(** ** C9: inputs that are missing or not numbers *)

Lemma angle_NaN_l (b : num) : calculateAngleBetweenPlanets NaN b = NaN.
Proof. reflexivity. Qed.

Lemma angle_NaN_r (a : num) : calculateAngleBetweenPlanets a NaN = NaN.
Proof. destruct a; reflexivity. Qed.

Lemma TransitCalculator_findAmong_NaN (p : string) :
  forall entries, TransitCalculator.findAmong entries NaN p = None.
Proof.
  induction entries as [|[k e] rest IH]; [reflexivity|exact IH].
Qed.

Lemma AstrologicalCalculator_findAmong_NaN (p : string) :
  forall entries, AstrologicalCalculator.findAmong entries NaN p = None.
Proof.
  induction entries as [|[k e] rest IH]; [reflexivity|exact IH].
Qed.

(** C9, as the code has it.  No input is checked and no error is
    raised.  A longitude that is not a number matches no aspect, so the
    orbs in the list [calculateTransits] sorts are always numbers.  A
    position without a longitude speed is classified as not applying,
    and the peak estimate made for it is the invalid date. *)
Theorem unvalidated_inputs :
  (forall (tp np : Position) (l n t : Q) (asOf : Date),
      longitude tp = Fin l -> longitudeSpeed tp = NaN ->
      longitude np = Fin n ->
      TransitCalculator.isTransitApplying tp np (Fin t) = false
      /\ AstrologicalCalculator.isTransitApplying tp np (Fin t) = false
      /\ TransitCalculator.estimatePeakDate tp np (Fin t) asOf
         = Some InvalidDate
      /\ AstrologicalCalculator.estimatePeakDate tp np (Fin t) asOf
         = Some InvalidDate)
  /\ (forall (a : num) (p : string),
         TransitCalculator.findTransitAspect NaN a p = None
         /\ TransitCalculator.findTransitAspect a NaN p = None
         /\ AstrologicalCalculator.findTransitAspect NaN a p = None
         /\ AstrologicalCalculator.findTransitAspect a NaN p = None)
  /\ (forall swe_calc_ut dateToJulianDay natalPositions natalHouses
             transitDate,
         Forall finiteOrb
           (TransitCalculator.aspects
              (TransitCalculator.calculateTransits swe_calc_ut
                 dateToJulianDay natalPositions natalHouses transitDate))).
Proof.
  split; [|split].
  - intros tp np l n t asOf Hl Hs Hn.
    unfold TransitCalculator.isTransitApplying,
      AstrologicalCalculator.isTransitApplying,
      TransitCalculator.estimatePeakDate,
      AstrologicalCalculator.estimatePeakDate.
    rewrite Hl, Hs, Hn.
    cbn [add div lift2 rem abs lift1 lt].
    rewrite angle_NaN_l, angle_finite.
    change (sub (Fin t) (Fin (angleQ l n))) with (Fin (t - angleQ l n)).
    rewrite adjustedDiff_finite.
    cbn [sub abs lift1 lift2 lt gt div mul].
    assert (E : add (getTime asOf) NaN = NaN) by (destruct asOf; reflexivity).
    rewrite E. repeat split; reflexivity.
  - intros a p.
    unfold TransitCalculator.findTransitAspect,
      AstrologicalCalculator.findTransitAspect.
    rewrite angle_NaN_l, angle_NaN_r.
    rewrite !TransitCalculator_findAmong_NaN,
      !AstrologicalCalculator_findAmong_NaN.
    repeat split; reflexivity.
  - intros swe_calc_ut dateToJulianDay natalPositions natalHouses transitDate.
    unfold TransitCalculator.calculateTransits, TransitCalculator.transitsFrom.
    cbn [TransitCalculator.aspects].
    pose proof (transitLoops_consistent transitDate
                  (TransitCalculator.calculatePlanetaryPositions swe_calc_ut
                     (dateToJulianDay transitDate) natalHouses)
                  natalPositions) as C.
    destruct (TransitCalculator.transitLoops _ _ _) as [l sm].
    destruct C as (_ & _ & _ & _ & Hf). cbn [fst].
    apply (Permutation_Forall
             (Permutation_sym (sort_perm TransitCalculator.byOrb l))).
    exact Hf.
Qed.

Lemma unvalidated_inputs_witness :
  TransitCalculator.isTransitApplying
    (at_ (Fin 15) NaN) (at_ (Fin 105) NaN) (Fin 90) = false
  /\ TransitCalculator.estimatePeakDate
       (at_ (Fin 15) NaN) (at_ (Fin 105) NaN) (Fin 90) (Instant 0)
     = Some InvalidDate.
Proof.
  destruct unvalidated_inputs as [General _].
  destruct (General (at_ (Fin 15) NaN) (at_ (Fin 105) NaN) 15 105 90
              (Instant 0) eq_refl eq_refl eq_refl) as (A & _ & B & _).
  split; assumption.
Defined.

(** The claim fails on a position without a speed: the classifier
    answers (separating) instead of raising an error, the estimator
    hands back the invalid date, and the transit list built from an
    ephemeris that knows the Sun at 15.2 degrees, over a natal Moon at
    105 degrees, holds a square whose peak date is the invalid date. *)
Lemma missing_speed_is_not_rejected :
  TransitCalculator.isTransitApplying
    (at_ (Fin 15) NaN) (at_ (Fin 105) NaN) (Fin 90) = false
  /\ TransitCalculator.estimatePeakDate
       (at_ (Fin 15) NaN) (at_ (Fin 105) NaN) (Fin 90) (Instant 0)
     = Some InvalidDate
  /\ map (fun a => (TransitCalculator.aspect a, TransitCalculator.applying a,
                    TransitCalculator.peakDate a))
       (TransitCalculator.aspects
          (TransitCalculator.calculateTransits sunAlone (fun _ => Fin 2451545)
             natalMoon None (Instant 0)))
     = [("square"%string, false, Some InvalidDate)].
Proof.
  repeat split; vm_compute; reflexivity.
Qed.

(** * Further properties *)

(** ** Truncation and remainder *)

Lemma trunc_nonneg (q : Q) :
  0 <= q ->
  (0 <= trunc q)%Z /\ inject_Z (trunc q) <= q /\ q < inject_Z (trunc q) + 1.
Proof.
  destruct q as [n d]. unfold trunc, Qle, Qlt, Qplus, inject_Z.
  cbn [Qnum Qden]. intros H.
  assert (Hn : (0 <= n)%Z) by lia.
  pose proof (Z.quot_rem' n (Zpos d)) as E.
  pose proof (Z.rem_bound_pos n (Zpos d) Hn ltac:(lia)) as B.
  assert (0 <= Z.quot n (Z.pos d))%Z by (apply Z.quot_pos; lia).
  repeat split; nia.
Qed.

Lemma trunc_nonpos (q : Q) :
  q <= 0 ->
  (trunc q <= 0)%Z /\ q <= inject_Z (trunc q) /\ inject_Z (trunc q) - 1 < q.
Proof.
  destruct q as [n d]. unfold trunc, Qle, Qlt, Qminus, Qplus, Qopp, inject_Z.
  cbn [Qnum Qden]. intros H.
  assert (Hn : (n <= 0)%Z) by lia.
  pose proof (Z.quot_rem' n (Zpos d)) as E.
  pose proof (Z.rem_nonpos n (Zpos d) ltac:(lia) Hn) as B1.
  pose proof (Z.rem_bound_abs n (Zpos d) ltac:(lia)) as B2.
  rewrite (Z.abs_eq (Z.pos d)) in B2 by lia.
  assert (Z.quot n (Z.pos d) <= 0)%Z.
  { rewrite <- (Z.opp_involutive n), Z.quot_opp_l by lia.
    assert (0 <= Z.quot (- n) (Z.pos d))%Z by (apply Z.quot_pos; lia). lia. }
  repeat split; nia.
Qed.

Lemma remQ_nonneg (x m : Q) :
  0 < m -> 0 <= x -> 0 <= remQ x m /\ remQ x m < m.
Proof.
  intros Hm Hx. unfold remQ.
  assert (Hq : 0 <= x / m).
  { apply Qle_shift_div_l; [exact Hm|]. lra. }
  destruct (trunc_nonneg (x / m) Hq) as (_ & L & U).
  assert (E : x - m * inject_Z (trunc (x / m))
              == m * (x / m - inject_Z (trunc (x / m)))).
  { field. intro Z0. rewrite Z0 in Hm. apply (Qlt_irrefl 0 Hm). }
  rewrite E. split.
  - apply Qmult_le_0_compat; lra.
  - assert (H1 : m * (x / m - inject_Z (trunc (x / m))) < m * 1)
      by (apply (proj2 (Qmult_lt_l _ 1 m Hm)); lra).
    rewrite Qmult_1_r in H1. exact H1.
Qed.

Lemma remQ_nonpos (x m : Q) :
  0 < m -> x <= 0 -> - m < remQ x m /\ remQ x m <= 0.
Proof.
  intros Hm Hx. unfold remQ.
  assert (Hq : x / m <= 0).
  { apply Qle_shift_div_r; [exact Hm|]. lra. }
  destruct (trunc_nonpos (x / m) Hq) as (_ & L & U).
  assert (E : x - m * inject_Z (trunc (x / m))
              == - (m * (inject_Z (trunc (x / m)) - x / m))).
  { field. intro Z0. rewrite Z0 in Hm. apply (Qlt_irrefl 0 Hm). }
  rewrite E. split.
  - assert (H1 : m * (inject_Z (trunc (x / m)) - x / m) < m * 1)
      by (apply (proj2 (Qmult_lt_l _ 1 m Hm)); lra).
    rewrite Qmult_1_r in H1. apply Qopp_lt_compat. exact H1.
  - assert (0 <= m * (inject_Z (trunc (x / m)) - x / m))
      by (apply Qmult_le_0_compat; lra).
    lra.
Qed.

(** ** The angle between two longitudes *)

Lemma angleQ_sym (a b : Q) : angleQ a b == angleQ b a.
Proof.
  unfold angleQ.
  assert (E : Qabs (a - b) == Qabs (b - a)).
  { rewrite <- (Qabs_opp (b - a)). apply Qabs_wd. ring. }
  destruct (Qltb 180 (Qabs (a - b))) eqn:A;
    destruct (Qltb 180 (Qabs (b - a))) eqn:B;
    repeat match goal with
      | H : Qltb _ _ = true |- _ => apply Qltb_lt in H
      | H : Qltb _ _ = false |- _ => apply Qltb_ge in H
      end; lra.
Qed.

(** X1.  The angle between two longitudes does not depend on their
    order and, for longitudes in [0, 360), lies between 0 and 180; it
    is 0 exactly for equal longitudes, and 180 for longitudes half a
    circle apart.  It is NaN as soon as one longitude is. *)
Theorem calculateAngleBetweenPlanets_symmetric_bounded :
  (forall a b : Q,
      exists x y,
        calculateAngleBetweenPlanets (Fin a) (Fin b) = Fin x
        /\ calculateAngleBetweenPlanets (Fin b) (Fin a) = Fin y
        /\ x == y
        /\ (0 <= a -> a < 360 -> 0 <= b -> b < 360 ->
            0 <= x /\ x <= 180
            /\ (x == 0 <-> a == b)
            /\ (Qabs (a - b) == 180 -> x == 180)))
  /\ (forall a : num,
         calculateAngleBetweenPlanets NaN a = NaN
         /\ calculateAngleBetweenPlanets a NaN = NaN).
Proof.
  split.
  - intros a b. exists (angleQ a b), (angleQ b a).
    rewrite !angle_finite. repeat split; try reflexivity.
    + apply angleQ_sym.
    + apply angleQ_range; assumption.
    + apply angleQ_range; assumption.
    + unfold angleQ. intros E.
      destruct (Qltb 180 (Qabs (a - b))) eqn:T.
      * exfalso. revert E. apply Qabs_case; intros; lra.
      * revert E. apply Qabs_case; intros; lra.
    + intros E. unfold angleQ.
      assert (Z0 : Qabs (a - b) == 0) by (apply Qabs_case; intros; lra).
      destruct (Qltb 180 (Qabs (a - b))) eqn:T.
      * apply Qltb_lt in T. lra.
      * exact Z0.
    + unfold angleQ. intros E.
      destruct (Qltb 180 (Qabs (a - b))) eqn:T.
      * apply Qltb_lt in T. lra.
      * exact E.
  - intros a. split; [apply angle_NaN_l|apply angle_NaN_r].
Qed.

Lemma calculateAngleBetweenPlanets_symmetric_bounded_witness :
  exists x,
    calculateAngleBetweenPlanets (Fin 350) (Fin 10) = Fin x
    /\ 0 <= x /\ x <= 180.
Proof.
  destruct calculateAngleBetweenPlanets_symmetric_bounded as [General _].
  destruct (General 350 10) as (x & y & Hx & _ & _ & Range).
  destruct Range as (L & U & _); try (vm_compute; congruence).
  exists x. repeat split; assumption.
Defined.

(** ** Longitudes, signs and houses *)

(** X2.  The normalisation at the head of [determinePlanetHouse]
    takes a longitude of 0 or more to the longitude in [0, 360) that
    lies a whole number of turns below it, and a negative longitude to
    a longitude from 0 to 360. *)
Theorem normalizeLongitude_range :
  (forall x : Q, 0 <= x ->
     exists y (k : Z),
       TransitCalculator.normalizeLongitude (Fin x) = Fin y
       /\ 0 <= y /\ y < 360
       /\ (0 <= k)%Z /\ x == y + 360 * inject_Z k)
  /\ (forall x : Q, x < 0 ->
        exists y,
          TransitCalculator.normalizeLongitude (Fin x) = Fin y
          /\ 0 <= y /\ y <= 360).
Proof.
  assert (N360 : ~ 360 == 0) by (intro H; discriminate H).
  split; intros x Hx; unfold TransitCalculator.normalizeLongitude;
    rewrite (rem_finite x 360 N360); cbn [lt add lift2].
  - destruct (remQ_nonneg x 360 ltac:(reflexivity) Hx) as [L U].
    assert (S : Qltb (remQ x 360) 0 = false) by (apply Qltb_ge; exact L).
    rewrite S. exists (remQ x 360), (trunc (x / 360)).
    split; [reflexivity|]. split; [exact L|]. split; [exact U|].
    split.
    + apply trunc_nonneg. apply Qle_shift_div_l; [reflexivity|lra].
    + unfold remQ. ring.
  - destruct (remQ_nonpos x 360 ltac:(reflexivity) (Qlt_le_weak _ _ Hx))
      as [L U].
    destruct (Qltb (remQ x 360) 0) eqn:S.
    + exists (remQ x 360 + 360). split; [reflexivity|]. split; lra.
    + apply Qltb_ge in S. exists (remQ x 360).
      split; [reflexivity|]. split; lra.
Qed.

Lemma normalizeLongitude_range_witness :
  exists y (k : Z),
    TransitCalculator.normalizeLongitude (Fin 725) = Fin y
    /\ 0 <= y /\ y < 360 /\ (0 <= k)%Z /\ 725 == y + 360 * inject_Z k.
Proof.
  apply (proj1 normalizeLongitude_range 725). vm_compute. discriminate.
Defined.

Lemma houseLoop_index (cusps : list num) (x : num) :
  forall r i j,
    TransitCalculator.houseLoop cusps x i r = Some j ->
    (i <= j < i + r)%nat.
Proof.
  induction r as [|r IH]; intros i j H; [discriminate|].
  cbn [TransitCalculator.houseLoop] in H.
  destruct (lt (cuspAt cusps ((i + 1) mod 12)) (cuspAt cusps i)).
  - destruct (ge x (cuspAt cusps i) || lt x (cuspAt cusps ((i + 1) mod 12))).
    + inversion H; subst. lia.
    + apply IH in H. lia.
  - destruct (ge x (cuspAt cusps i) && lt x (cuspAt cusps ((i + 1) mod 12))).
    + inversion H; subst. lia.
    + apply IH in H. lia.
Qed.

Lemma houseLoop_NaN (cusps : list num) :
  forall r i, TransitCalculator.houseLoop cusps NaN i r = None.
Proof.
  induction r as [|r IH]; intros i; [reflexivity|].
  cbn [TransitCalculator.houseLoop].
  destruct (lt (cuspAt cusps ((i + 1) mod 12)) (cuspAt cusps i));
    destruct (cuspAt cusps i), (cuspAt cusps ((i + 1) mod 12));
    cbn; apply IH.
Qed.

Lemma houseLoop_empty (x : num) :
  forall r i, TransitCalculator.houseLoop [] x i r = None.
Proof.
  induction r as [|r IH]; intros i; [reflexivity|].
  cbn [TransitCalculator.houseLoop]. unfold cuspAt.
  assert (E : forall k, nth k (@nil num) NaN = NaN) by (intros [|k]; reflexivity).
  rewrite !E. destruct x; cbn; apply IH.
Qed.

(** X3.  Whatever the longitude and the cusps, the house returned by
    either calculator is a number from 1 to 12.  A longitude that is
    not a number, or an empty list of cusps, gives house 1 through the
    fallback. *)
Theorem determinePlanetHouse_number_range :
  forall (lon : num) (hs : list House),
    (1 <= TransitCalculator.number
            (TransitCalculator.determinePlanetHouse lon hs) <= 12)%nat
    /\ (1 <= AstrologicalCalculator.determinePlanetHouse lon hs <= 12)%nat
    /\ (lon = NaN \/ hs = [] ->
        TransitCalculator.number
          (TransitCalculator.determinePlanetHouse lon hs) = 1%nat
        /\ TransitCalculator.distanceFromCusp
             (TransitCalculator.determinePlanetHouse lon hs) = Some (Fin 0)
        /\ AstrologicalCalculator.determinePlanetHouse lon hs = 1%nat).
Proof.
  intros lon hs.
  unfold TransitCalculator.determinePlanetHouse,
    AstrologicalCalculator.determinePlanetHouse.
  split; [|split].
  - destruct (TransitCalculator.houseLoop _ _ 0 12) as [i|] eqn:E.
    + apply houseLoop_index in E. cbn [TransitCalculator.number]. lia.
    + cbn [TransitCalculator.number]. lia.
  - destruct (TransitCalculator.houseLoop _ _ 0 12) as [i|] eqn:E.
    + apply houseLoop_index in E. lia.
    + lia.
  - intros [-> | ->].
    + change (TransitCalculator.normalizeLongitude NaN) with NaN.
      rewrite houseLoop_NaN. repeat split; reflexivity.
    + cbn [map]. rewrite houseLoop_empty. repeat split; reflexivity.
Qed.

Lemma determinePlanetHouse_number_range_witness :
  TransitCalculator.number (TransitCalculator.determinePlanetHouse NaN equalHouses)
  = 1%nat.
Proof.
  destruct (determinePlanetHouse_number_range NaN equalHouses)
    as (_ & _ & Fallback).
  apply Fallback. left. reflexivity.
Defined.

(** X4.  A longitude in [0, 360) has the sign of index
    floor(longitude / 30).  A longitude of 360 or more, one of a
    thousandth of a degree or more below 0, or NaN has no sign
    ([undefined]). *)
Theorem getZodiacSign_defined :
  (forall x : Q, 0 <= x -> x < 360 ->
     (0 <= Qfloor (x / 30) < 12)%Z
     /\ getZodiacSign (Fin x)
        = Some (nth (Z.to_nat (Qfloor (x / 30))) signs Aries))
  /\ (forall x : Q, x <= - (1 # 1000) \/ 360 <= x ->
        getZodiacSign (Fin x) = None)
  /\ getZodiacSign NaN = None.
Proof.
  assert (N30 : ~ 30 == 0) by (intro H; discriminate H).
  assert (Floor : forall x, floor (div (Fin x) (Fin 30))
                            = Fin (inject_Z (Qfloor (x / 30)))).
  { intros x. rewrite (div_finite x 30 N30). reflexivity. }
  split; [|split; [|reflexivity]].
  - intros x H0 H1.
    assert (B : (0 <= Qfloor (x / 30) < 12)%Z).
    { split.
      - change 0%Z with (Qfloor 0). apply Qfloor_resp_le.
        apply Qle_shift_div_l; [reflexivity|lra].
      - assert (L : inject_Z (Qfloor (x / 30)) < inject_Z 12).
        { eapply Qle_lt_trans; [apply Qfloor_le|].
          apply Qlt_shift_div_r; [reflexivity|].
          change (inject_Z 12 * 30) with (360 # 1). lra. }
        rewrite <- Zlt_Qlt in L. exact L. }
    split; [exact B|].
    unfold getZodiacSign. rewrite Floor.
    assert (P : Qle_bool 0 (inject_Z (Qfloor (x / 30))) = true).
    { apply Qle_bool_iff. change 0 with (inject_Z 0).
      rewrite <- Zle_Qle. lia. }
    rewrite P, Qfloor_Z.
    assert (Hn : (Z.to_nat (Qfloor (x / 30)) < 12)%nat) by lia.
    revert Hn. generalize (Z.to_nat (Qfloor (x / 30))). intros n Hn.
    do 12 (destruct n as [|n]; [reflexivity|]). lia.
  - intros x [H|H]; unfold getZodiacSign; rewrite Floor.
    + assert (P : Qle_bool 0 (inject_Z (Qfloor (x / 30))) = false).
      { apply Qle_bool_false. change 0 with (inject_Z 0).
        rewrite <- Zlt_Qlt.
        assert (L : inject_Z (Qfloor (x / 30)) < inject_Z 0).
        { eapply Qle_lt_trans; [apply Qfloor_le|].
          apply Qlt_shift_div_r; [reflexivity|].
          change (inject_Z 0 * 30) with 0. lra. }
        rewrite <- Zlt_Qlt in L. exact L. }
      rewrite P. reflexivity.
    + assert (B : (12 <= Qfloor (x / 30))%Z).
      { change 12%Z with (Qfloor (inject_Z 12)) at 1.
        apply Qfloor_resp_le. apply Qle_shift_div_l; [reflexivity|].
        change (inject_Z 12 * 30) with (360 # 1). exact H. }
      destruct (Qle_bool 0 (inject_Z (Qfloor (x / 30)))); [|reflexivity].
      rewrite Qfloor_Z.
      assert (Hn : (12 <= Z.to_nat (Qfloor (x / 30)))%nat) by lia.
      apply nth_error_None. exact Hn.
Qed.

Lemma getZodiacSign_defined_witness :
  getZodiacSign (Fin 45) = Some Taurus /\ getZodiacSign (Fin 360) = None.
Proof.
  destruct getZodiacSign_defined as (In_range & Out & _).
  split.
  - destruct (In_range 45 ltac:(vm_compute; discriminate) ltac:(reflexivity))
      as [_ E].
    exact E.
  - apply Out. right. vm_compute. discriminate.
Defined.

(** ** The binary search on an arbitrary predicate *)

Lemma bisect_keeps_bracket (P : Date -> bool) (p : Q) :
  1 <= p * 60 * 1000 ->
  forall (n : nat) (lo hi : Z),
    (lo < hi)%Z -> (hi - lo <= 2 ^ Z.of_nat n)%Z ->
    P (Instant lo) = false -> P (Instant hi) = true ->
    exists m h,
      TransitCalculator.bisect (S n) P (Fin (p * 60 * 1000))
        (Instant lo) (Instant hi) = Returns (Instant m)
      /\ (lo <= m)%Z /\ (m < h)%Z /\ (h <= hi)%Z
      /\ P (Instant m) = false /\ P (Instant h) = true
      /\ inject_Z (h - m) <= p * 60 * 1000.
Proof.
  intros Hp.
  induction n as [|n IH]; intros lo hi Hlt Hgap Plo Phi;
    cbn [TransitCalculator.bisect getTime sub add lift2 gt lt];
    destruct (Qltb (p * 60 * 1000) (inject_Z hi - inject_Z lo)) eqn:T.
  - exfalso. apply Qltb_lt in T.
    pose proof (wide_gap p Hp lo hi T). cbn in Hgap. lia.
  - apply Qltb_ge in T. exists lo, hi. repeat split; try lia; try assumption.
    apply (narrow_gap hi p lo hi); [lia|exact T].
  - apply Qltb_lt in T.
    pose proof (wide_gap p Hp lo hi T) as Hwide.
    rewrite midpoint.
    pose proof (quot2_between lo hi Hwide) as [B1 B2].
    pose proof (quot2_halves lo hi) as [B3 B4].
    rewrite Nat2Z.inj_succ, Z.pow_succ_r in Hgap by lia.
    destruct (P (Instant (Z.quot (lo + hi) 2))) eqn:Pm.
    + destruct (IH lo (Z.quot (lo + hi) 2)) as (m & h & E & R);
        try assumption; try lia.
      exists m, h. split; [exact E|]. repeat split; try apply R; lia.
    + destruct (IH (Z.quot (lo + hi) 2) hi) as (m & h & E & R);
        try assumption; try lia.
      exists m, h. split; [exact E|]. repeat split; try apply R; lia.
  - apply Qltb_ge in T. exists lo, hi. repeat split; try lia; try assumption.
    apply (narrow_gap hi p lo hi); [lia|exact T].
Qed.

Lemma findExactMoment_keeps_bracket (P : Date -> bool) (s e : Z) (p : Q)
    (depth : nat) :
  1 <= p * 60 * 1000 ->
  (s <= e)%Z -> (e - s <= 2 ^ Z.of_nat depth)%Z ->
  P (Instant s) = false -> P (Instant e) = true ->
  exists m h,
    TransitCalculator.findExactMoment (S depth) (Instant s) (Instant e)
      P (Fin p) = Returns (Some (Instant m))
    /\ (s <= m < h)%Z /\ (h <= e)%Z
    /\ P (Instant m) = false /\ P (Instant h) = true
    /\ inject_Z (h - m) <= p * 60 * 1000.
Proof.
  intros Hp Hse Hdepth Ps Pe.
  assert (Hlt : (s < e)%Z).
  { destruct (Z.eq_dec s e) as [->|]; [congruence|lia]. }
  unfold TransitCalculator.findExactMoment.
  rewrite Ps, Pe. cbn [negb mul lift2].
  destruct (bisect_keeps_bracket P p Hp depth s e Hlt Hdepth Ps Pe)
    as (m & h & E & B1 & B2 & B3 & B4 & B5 & B6).
  exists m, h. rewrite E. repeat split; try lia; assumption.
Qed.

(** X5.  Whatever the predicate, if it fails at [start] and holds at
    [end], with a precision that is a whole number [k] of milliseconds,
    from 1 up and below 2^53, the search ends within a number of halvings
    logarithmic in the length of the interval and returns an instant of
    the interval where the predicate fails, followed within the
    precision by an instant where it holds.  The search neither returns
    nothing nor runs on. *)
Theorem findExactMoment_brackets_any_predicate :
  forall (P : Date -> bool) (s e : Z) (p : Q) (k : Z) (depth : nat),
    p * 60 * 1000 == inject_Z k -> (1 <= k < 2 ^ 53)%Z ->
    (s <= e)%Z -> (e - s <= 2 ^ Z.of_nat depth)%Z ->
    P (Instant s) = false -> P (Instant e) = true ->
    exists m h,
      TransitCalculator.findExactMoment (S depth) (Instant s) (Instant e)
        P (Fin p) = Returns (Some (Instant m))
      /\ (s <= m < h)%Z /\ (h <= e)%Z
      /\ P (Instant m) = false /\ P (Instant h) = true
      /\ (h - m <= k)%Z.
Proof.
  intros P s e p k depth Hk Hk1 Hse Hdepth Ps Pe.
  assert (Hp : 1 <= p * 60 * 1000).
  { rewrite Hk. change 1 with (inject_Z 1). rewrite <- Zle_Qle. lia. }
  destruct (findExactMoment_keeps_bracket P s e p depth Hp Hse Hdepth Ps Pe)
    as (m & h & E & B1 & B2 & B3 & B4 & B5).
  exists m, h. repeat split; try assumption; try lia.
  rewrite Hk, <- Zle_Qle in B5. exact B5.
Qed.

Lemma findExactMoment_brackets_any_predicate_witness :
  exists m h,
    TransitCalculator.findExactMoment 19 (Instant 0) (Instant 200000)
      (fun d => reached 70000 d && negb (reached 90000 d) || reached 150000 d)
      (Fin 1) = Returns (Some (Instant m))
    /\ (0 <= m < h)%Z /\ (h <= 200000)%Z /\ (h - m <= 60000)%Z.
Proof.
  destruct (findExactMoment_brackets_any_predicate
              (fun d => reached 70000 d && negb (reached 90000 d)
                        || reached 150000 d)
              0 200000 1 60000 18)
    as (m & h & E & B1 & B2 & _ & _ & B5).
  - reflexivity.
  - lia.
  - lia.
  - vm_compute. discriminate.
  - reflexivity.
  - reflexivity.
  - exists m, h. repeat split; try assumption; lia.
Defined.

(** ** The moon phase *)

Lemma moonAge_finite (t : Z) :
  TransitCalculator.moonAge (TransitCalculator.calculateMoonPhase (Instant t))
  = Fin (remQ (inject_Z t / 86400000 + (24405875 # 10) - (24515495 # 10))
           (2953058867 # 100000000)).
Proof.
  unfold TransitCalculator.calculateMoonPhase.
  cbn [TransitCalculator.moonAge getTime].
  rewrite (div_finite (inject_Z t) 86400000) by (intro H; discriminate H).
  cbn [add sub lift2].
  rewrite rem_finite by (intro H; discriminate H). reflexivity.
Qed.

Lemma phaseOfAge_negative (a : Q) :
  a <= 0 -> TransitCalculator.phaseOfAge (Fin a) = "New Moon"%string.
Proof.
  intros H. unfold TransitCalculator.phaseOfAge. cbn [lt].
  assert (E : Qltb a (184566 # 100000) = true).
  { apply Qltb_lt. eapply Qle_lt_trans; [exact H|reflexivity]. }
  rewrite E. reflexivity.
Qed.

(** X6.  The age of the moon is counted from 6 January 2000, 0h UTC
    (947116800000 ms).  From that instant on it lies in [0, 29.53058867)
    days.  For every earlier date it is negative or zero and the phase
    is "New Moon", whatever the date; for the invalid date the age is
    NaN and the phase is "Waning Crescent". *)
Theorem calculateMoonPhase_age :
  (forall t : Z, (947116800000 <= t)%Z ->
     exists a,
       TransitCalculator.moonAge
         (TransitCalculator.calculateMoonPhase (Instant t)) = Fin a
       /\ 0 <= a /\ a < 2953058867 # 100000000)
  /\ (forall t : Z, (t <= 947116800000)%Z ->
        (exists a,
            TransitCalculator.moonAge
              (TransitCalculator.calculateMoonPhase (Instant t)) = Fin a
            /\ a <= 0)
        /\ TransitCalculator.phase
             (TransitCalculator.calculateMoonPhase (Instant t))
           = "New Moon"%string)
  /\ TransitCalculator.calculateMoonPhase InvalidDate
     = TransitCalculator.mkMoonPhase "Waning Crescent" "Waning Crescent" NaN.
Proof.
  split; [|split; [|reflexivity]].
  - intros t Ht. eexists. split; [apply moonAge_finite|].
    apply remQ_nonneg; [reflexivity|].
    rewrite Zle_Qle in Ht.
    change (inject_Z 947116800000) with 947116800000 in Ht.
    unfold Qdiv. change (/ 86400000) with (1 # 86400000). lra.
  - intros t Ht.
    assert (N : inject_Z t / 86400000 + (24405875 # 10) - (24515495 # 10) <= 0).
    { rewrite Zle_Qle in Ht.
      change (inject_Z 947116800000) with 947116800000 in Ht.
      unfold Qdiv. change (/ 86400000) with (1 # 86400000). lra. }
    destruct (remQ_nonpos _ (2953058867 # 100000000) ltac:(reflexivity) N)
      as [_ U].
    split.
    + eexists. split; [apply moonAge_finite|exact U].
    + pose proof (moonAge_finite t) as E.
      unfold TransitCalculator.calculateMoonPhase in *.
      cbn [TransitCalculator.moonAge TransitCalculator.phase] in *.
      rewrite E. apply phaseOfAge_negative. exact U.
Qed.

Lemma calculateMoonPhase_age_witness :
  TransitCalculator.phase
    (TransitCalculator.calculateMoonPhase (Instant 0)) = "New Moon"%string.
Proof.
  destruct calculateMoonPhase_age as (_ & Before & _).
  apply (Before 0%Z). lia.
Defined.

(** X7.  [checkMoonPhaseChange] reports nothing exactly when the phase
    is the same at both ends.  When it reports a change, the exact
    time is always a date: an instant of the interval where the moon is
    not in the phase of the end, at most a minute before an instant
    where it is. *)
Theorem checkMoonPhaseChange_reports :
  forall (s e : Z) (depth : nat),
    (s <= e)%Z -> (e - s <= 2 ^ Z.of_nat depth)%Z ->
    let phaseAt t :=
      TransitCalculator.phase
        (TransitCalculator.calculateMoonPhase (Instant t)) in
    let nameAt t :=
      TransitCalculator.phaseName
        (TransitCalculator.calculateMoonPhase (Instant t)) in
    let r :=
      TransitCalculator.checkMoonPhaseChange (S depth) (Instant s)
        (Instant e) in
    (phaseAt s = phaseAt e -> r = Returns None)
    /\ (phaseAt s <> phaseAt e ->
        exists m h,
          r = Returns
                (Some (TransitCalculator.mkPhaseChange (phaseAt s) (nameAt s)
                         (phaseAt e) (nameAt e) (Some (Instant m))))
          /\ (s <= m < h)%Z /\ (h <= e)%Z /\ (h - m <= 60000)%Z
          /\ phaseAt m <> phaseAt e /\ phaseAt h = phaseAt e).
Proof.
  intros s e depth Hse Hdepth phaseAt nameAt r.
  unfold r, TransitCalculator.checkMoonPhaseChange.
  fold (phaseAt s). fold (phaseAt e). fold (nameAt s). fold (nameAt e).
  split.
  - intros E. rewrite E, String.eqb_refl. reflexivity.
  - intros N.
    assert (Ne : String.eqb (phaseAt s) (phaseAt e) = false)
      by (apply String.eqb_neq; exact N).
    rewrite Ne. cbn [negb].
    destruct (findExactMoment_keeps_bracket
                (fun date =>
                   String.eqb
                     (TransitCalculator.phase
                        (TransitCalculator.calculateMoonPhase date))
                     (phaseAt e))
                s e 1 depth)
      as (m & h & E & B1 & B2 & B3 & B4 & B5);
      try assumption.
    + vm_compute. discriminate.
    + apply String.eqb_refl.
    + unfold TransitCalculator.defaultPrecision. rewrite E.
      exists m, h. split; [reflexivity|].
      repeat split; try lia.
      * change (1 * 60 * 1000) with (inject_Z 60000) in B5.
        rewrite <- Zle_Qle in B5. exact B5.
      * apply String.eqb_neq. exact B3.
      * apply String.eqb_eq. exact B4.
Qed.

Lemma checkMoonPhaseChange_reports_witness :
  TransitCalculator.checkMoonPhaseChange 11 (Instant 947116800000)
    (Instant 947116801000) = Returns None.
Proof.
  destruct (checkMoonPhaseChange_reports 947116800000 947116801000 10)
    as [Same _]; try lia.
  apply Same. vm_compute. reflexivity.
Defined.

(** ** Objects used as dictionaries *)

Lemma lookup_assign_same {A : Type} (k : string) (v : A) (d : dict A) :
  lookup k (assign k v d) = Some v.
Proof.
  induction d as [|[k' v'] d IH]; cbn [assign lookup].
  - rewrite String.eqb_refl. reflexivity.
  - destruct (String.eqb k k') eqn:E; cbn [lookup]; rewrite E; auto.
Qed.

Lemma lookup_assign_other {A : Type} (k k' : string) (v : A) (d : dict A) :
  k <> k' -> lookup k' (assign k v d) = lookup k' d.
Proof.
  intros N. induction d as [|[k0 v0] d IH]; cbn [assign lookup].
  - assert (E : String.eqb k' k = false) by (apply String.eqb_neq; congruence).
    rewrite E. reflexivity.
  - destruct (String.eqb k k0) eqn:E; cbn [lookup].
    + apply String.eqb_eq in E. subst k0.
      assert (E' : String.eqb k' k = false)
        by (apply String.eqb_neq; congruence).
      rewrite E'. reflexivity.
    + rewrite IH. reflexivity.
Qed.

Lemma lookup_None {A : Type} (k : string) (d : dict A) :
  lookup k d = None <-> ~ In k (map fst d).
Proof.
  induction d as [|[k' v'] d IH]; cbn [lookup map fst In]; [tauto|].
  destruct (String.eqb k k') eqn:E.
  - apply String.eqb_eq in E. subst. split; [discriminate|tauto].
  - apply String.eqb_neq in E. rewrite IH. split; intros H; [|tauto].
    intros [C|C]; [congruence|tauto].
Qed.

Lemma lookup_In {A : Type} (k : string) (v : A) (d : dict A) :
  lookup k d = Some v -> In (k, v) d.
Proof.
  induction d as [|[k' v'] d IH]; cbn [lookup In]; [discriminate|].
  destruct (String.eqb k k') eqn:E.
  - apply String.eqb_eq in E. intros H. inversion H; subst. left. reflexivity.
  - intros H. right. apply IH. exact H.
Qed.

Lemma In_lookup {A : Type} (k : string) (v : A) (d : dict A) :
  NoDup (map fst d) -> In (k, v) d -> lookup k d = Some v.
Proof.
  induction d as [|[k' v'] d IH]; cbn [lookup In map fst]; [tauto|].
  intros N [H|H].
  - inversion H; subst. rewrite String.eqb_refl. reflexivity.
  - inversion N as [|? ? Hn N']; subst.
    destruct (String.eqb k k') eqn:E.
    + apply String.eqb_eq in E. subst. exfalso. apply Hn.
      apply (in_map fst) in H. exact H.
    + apply IH; assumption.
Qed.

Lemma assign_fresh {A : Type} (k : string) (v : A) (d : dict A) :
  ~ In k (map fst d) -> assign k v d = d ++ [(k, v)].
Proof.
  induction d as [|[k' v'] d IH]; cbn [assign map fst In app]; intros H.
  - reflexivity.
  - assert (E : String.eqb k k' = false)
      by (apply String.eqb_neq; intro; subst; tauto).
    rewrite E, IH by tauto. reflexivity.
Qed.

(** ** Absolute values against constants *)

Lemma Qabs_le_cases (x y : Q) : Qabs x <= y -> - y <= x /\ x <= y.
Proof. apply Qabs_Qle_condition. Qed.

Lemma Qabs_gt_cases (x y : Q) : y < Qabs x -> x < - y \/ y < x.
Proof. apply Qabs_case; intros; [right|left]; lra. Qed.

Ltac abs_cases :=
  repeat match goal with
    | H : Qle_bool _ _ = true |- _ => apply Qle_bool_iff in H
    | H : Qle_bool _ _ = false |- _ => apply Qle_bool_false in H
    | H : Qabs _ <= _ |- _ => apply Qabs_le_cases in H; destruct H
    | H : _ < Qabs _ |- _ => apply Qabs_gt_cases in H; destruct H
    end.

(** ** The matchers *)

Lemma findNatalAspect_in_sound (a : Q) :
  forall entries e,
    AstrologicalCalculator.findNatalAspect_in entries (Fin a) = Some e ->
    In e (map snd entries)
    /\ Qabs (a - AstrologicalCalculator.natalAngle e)
       <= AstrologicalCalculator.natalOrb e.
Proof.
  induction entries as [|[k e0] rest IH]; intros e H; [discriminate|].
  cbn [AstrologicalCalculator.findNatalAspect_in sub abs lift1 lift2 le] in H.
  destruct (Qle_bool (Qabs (a - AstrologicalCalculator.natalAngle e0))
              (AstrologicalCalculator.natalOrb e0)) eqn:T.
  - inversion H; subst. apply Qle_bool_iff in T. cbn [map snd In]. auto.
  - destruct (IH e H). cbn [map snd In]. auto.
Qed.

Lemma findNatalAspect_in_none (a : Q) :
  forall entries,
    AstrologicalCalculator.findNatalAspect_in entries (Fin a) = None
    <-> forall e, In e (map snd entries) ->
          AstrologicalCalculator.natalOrb e
          < Qabs (a - AstrologicalCalculator.natalAngle e).
Proof.
  induction entries as [|[k e0] rest IH];
    cbn [AstrologicalCalculator.findNatalAspect_in sub abs lift1 lift2 le
           map snd In].
  - split; [intros _ e []|reflexivity].
  - destruct (Qle_bool (Qabs (a - AstrologicalCalculator.natalAngle e0))
                (AstrologicalCalculator.natalOrb e0)) eqn:T.
    + apply Qle_bool_iff in T. split; [discriminate|].
      intros H. specialize (H e0 (or_introl eq_refl)). lra.
    + apply Qle_bool_false in T. rewrite IH. split.
      * intros H e [<-|Hin]; [exact T|apply H; exact Hin].
      * intros H e Hin. apply H. right. exact Hin.
Qed.

Lemma natal_windows_disjoint (a : Q) :
  forall e1 e2,
    In e1 (map snd AstrologicalCalculator.aspects) ->
    In e2 (map snd AstrologicalCalculator.aspects) ->
    Qabs (a - AstrologicalCalculator.natalAngle e1)
    <= AstrologicalCalculator.natalOrb e1 ->
    Qabs (a - AstrologicalCalculator.natalAngle e2)
    <= AstrologicalCalculator.natalOrb e2 ->
    e1 = e2.
Proof.
  intros e1 e2 H1 H2 W1 W2. cbn in H1, H2.
  destruct H1 as [H1|[H1|[H1|[H1|[H1|[]]]]]]; subst e1;
    destruct H2 as [H2|[H2|[H2|[H2|[H2|[]]]]]]; subst e2;
    try reflexivity; exfalso;
    cbn [AstrologicalCalculator.natalAngle AstrologicalCalculator.natalOrb]
      in W1, W2;
    abs_cases; lra.
Qed.

(** X8.  The windows of the natal catalog do not overlap: a finite
    angle is matched to an aspect exactly when it lies within the orb
    of that aspect (8 degrees, 6 for the sextile), and nothing is
    returned exactly when it lies within the orb of none.  The order in
    which the catalog is listed plays no part. *)
Theorem findNatalAspect_unique_window :
  forall (a : Q) (e : AstrologicalCalculator.NatalDef),
    (AstrologicalCalculator.findNatalAspect (Fin a) = Some e
     <-> In e (map snd AstrologicalCalculator.aspects)
         /\ Qabs (a - AstrologicalCalculator.natalAngle e)
            <= AstrologicalCalculator.natalOrb e)
    /\ (AstrologicalCalculator.findNatalAspect (Fin a) = None
        <-> forall e', In e' (map snd AstrologicalCalculator.aspects) ->
              AstrologicalCalculator.natalOrb e'
              < Qabs (a - AstrologicalCalculator.natalAngle e')).
Proof.
  intros a e. unfold AstrologicalCalculator.findNatalAspect.
  split; [|apply findNatalAspect_in_none].
  split; [apply findNatalAspect_in_sound|].
  intros [Hin W].
  destruct (AstrologicalCalculator.findNatalAspect_in
              AstrologicalCalculator.aspects (Fin a)) as [e'|] eqn:F.
  - destruct (findNatalAspect_in_sound a _ _ F) as [Hin' W'].
    f_equal. apply (natal_windows_disjoint a); assumption.
  - exfalso. rewrite findNatalAspect_in_none in F.
    specialize (F e Hin). lra.
Qed.

Lemma findNatalAspect_unique_window_witness :
  AstrologicalCalculator.findNatalAspect (Fin 57)
  = Some (AstrologicalCalculator.mkNatalDef 60 6 "sextile").
Proof.
  destruct (findNatalAspect_unique_window 57
              (AstrologicalCalculator.mkNatalDef 60 6 "sextile")) as [Match _].
  apply Match. split.
  - cbn. tauto.
  - vm_compute. discriminate.
Defined.

Lemma AstrologicalCalculator_orb_bounds (p n : string) :
  1 # 2 <= AstrologicalCalculator.getTransitOrb p n
  /\ AstrologicalCalculator.getTransitOrb p n <= 2.
Proof.
  unfold AstrologicalCalculator.getTransitOrb.
  destruct (lookup p AstrologicalCalculator.transitOrbs) as [o|] eqn:L.
  - apply lookup_In in L. cbn in L.
    repeat (destruct L as [L|L];
            [inversion L; subst;
             destruct (includes AstrologicalCalculator.majorAspects n);
             cbn; split; discriminate|]).
    contradiction.
  - destruct (includes AstrologicalCalculator.majorAspects n);
      cbn; split; discriminate.
Qed.

Lemma TransitCalculator_orb_values (p k : string) :
  forall e, In (k, e) TransitCalculator.transitAspects ->
    TransitCalculator.getTransitOrb p k = 1
    \/ TransitCalculator.getTransitOrb p k = 1 # 2.
Proof.
  intros e Hin. rewrite (TransitCalculator_orb_is_minor k e p Hin).
  destruct (lookup p TransitCalculator.transitOrbs) as [o|] eqn:L;
    [|right; reflexivity].
  apply lookup_In in L. cbn in L.
  repeat (destruct L as [L|L];
          [inversion L; subst; cbn; first [left; reflexivity|right; reflexivity]|]).
  contradiction.
Qed.

Lemma astrological_windows_disjoint (p : string) (a : Q) :
  forall e1 e2,
    In e1 (map snd AstrologicalCalculator.transitAspects) ->
    In e2 (map snd AstrologicalCalculator.transitAspects) ->
    Qabs (a - AstrologicalCalculator.angle e1)
    <= AstrologicalCalculator.getTransitOrb p (AstrologicalCalculator.name e1) ->
    Qabs (a - AstrologicalCalculator.angle e2)
    <= AstrologicalCalculator.getTransitOrb p (AstrologicalCalculator.name e2) ->
    e1 = e2.
Proof.
  intros e1 e2 H1 H2 W1 W2.
  pose proof (AstrologicalCalculator_orb_bounds p
                (AstrologicalCalculator.name e1)) as [_ U1].
  pose proof (AstrologicalCalculator_orb_bounds p
                (AstrologicalCalculator.name e2)) as [_ U2].
  assert (V1 : Qabs (a - AstrologicalCalculator.angle e1) <= 2) by lra.
  assert (V2 : Qabs (a - AstrologicalCalculator.angle e2) <= 2) by lra.
  clear W1 W2 U1 U2. cbn in H1, H2.
  destruct H1 as [H1|[H1|[H1|[H1|[H1|[]]]]]]; subst e1;
    destruct H2 as [H2|[H2|[H2|[H2|[H2|[]]]]]]; subst e2;
    try reflexivity; exfalso;
    cbn [AstrologicalCalculator.angle] in V1, V2; abs_cases; lra.
Qed.

Lemma transit_windows_disjoint (p : string) (a : Q) :
  forall k1 e1 k2 e2,
    In (k1, e1) TransitCalculator.transitAspects ->
    In (k2, e2) TransitCalculator.transitAspects ->
    Qabs (a - TransitCalculator.angle e1)
    <= TransitCalculator.getTransitOrb p k1 ->
    Qabs (a - TransitCalculator.angle e2)
    <= TransitCalculator.getTransitOrb p k2 ->
    e1 = e2.
Proof.
  intros k1 e1 k2 e2 H1 H2 W1 W2.
  assert (V1 : Qabs (a - TransitCalculator.angle e1) <= 1).
  { destruct (TransitCalculator_orb_values p k1 e1 H1) as [E|E];
      rewrite E in W1; lra. }
  assert (V2 : Qabs (a - TransitCalculator.angle e2) <= 1).
  { destruct (TransitCalculator_orb_values p k2 e2 H2) as [E|E];
      rewrite E in W2; lra. }
  clear W1 W2. cbn in H1, H2.
  destruct H1 as [H1|[H1|[H1|[H1|[H1|[]]]]]]; inversion H1; subst;
    destruct H2 as [H2|[H2|[H2|[H2|[H2|[]]]]]]; inversion H2; subst;
    try reflexivity; exfalso;
    cbn [TransitCalculator.angle] in V1, V2; abs_cases; lra.
Qed.

(** X9.  With the orbs of the tables (2 degrees at most) no two
    windows of the transit catalog overlap.  In both calculators, for
    a transiting body whose name is not one every object inherits, the
    loop of [findTransitAspect] returns an aspect for the angle of the
    two bodies exactly when that angle lies within the orb applied to
    that aspect, so the first match is the only one and the order of
    the catalog plays no part. *)
Theorem findTransitAspect_unique_window :
  forall (a : Q) (p : string),
    ~ In p inheritedNames ->
    (forall x y,
        AstrologicalCalculator.findTransitAspect x y p
        = AstrologicalCalculator.findAmong
            AstrologicalCalculator.transitAspects
            (calculateAngleBetweenPlanets x y) p
        /\ TransitCalculator.findTransitAspect x y p
           = TransitCalculator.findAmong TransitCalculator.transitAspects
               (calculateAngleBetweenPlanets x y) p)
    /\ (forall e,
           option_map AstrologicalCalculator.matched
             (AstrologicalCalculator.findAmong
                AstrologicalCalculator.transitAspects (Fin a) p) = Some e
           <-> In e (map snd AstrologicalCalculator.transitAspects)
               /\ Qabs (a - AstrologicalCalculator.angle e)
                  <= AstrologicalCalculator.getTransitOrb p
                       (AstrologicalCalculator.name e))
    /\ (forall e,
           option_map TransitCalculator.matched
             (TransitCalculator.findAmong TransitCalculator.transitAspects
                (Fin a) p) = Some e
           <-> exists k,
                 In (k, e) TransitCalculator.transitAspects
                 /\ Qabs (a - TransitCalculator.angle e)
                    <= TransitCalculator.getTransitOrb p k).
Proof.
  intros a p _.
  split; [intros x y; split; reflexivity|].
  split; intros e.
  - pose proof (AstrologicalCalculator_findAmong_orb p a
                  AstrologicalCalculator.transitAspects) as S.
    destruct (AstrologicalCalculator.findAmong
                AstrologicalCalculator.transitAspects (Fin a) p) as [d|];
      cbn [option_map].
    + destruct S as (I1 & I2 & _ & I4). rewrite I2 in I4. split.
      * intros H. inversion H; subst. split; assumption.
      * intros [Hin W]. f_equal.
        apply (astrological_windows_disjoint p a); assumption.
    + split; [discriminate|]. intros [Hin W]. specialize (S e Hin). lra.
  - pose proof (TransitCalculator_findAmong_orb p a
                  TransitCalculator.transitAspects) as S.
    destruct (TransitCalculator.findAmong
                TransitCalculator.transitAspects (Fin a) p) as [d|] eqn:F;
      cbn [option_map].
    + destruct S as (k & I1 & I2 & I3).
      assert (T : TransitCalculator.targetAngle d
                  = TransitCalculator.angle (TransitCalculator.matched d)).
      { clear -F. revert F.
        generalize TransitCalculator.transitAspects.
        induction d0 as [|[k0 e0] rest IH]; intros F; [discriminate|].
        cbn [TransitCalculator.findAmong] in F.
        destruct (le _ _); [inversion F; reflexivity|apply IH; exact F]. }
      rewrite T in I3. split.
      * intros H. inversion H; subst. exists k. split; assumption.
      * intros (k' & Hin & W). f_equal.
        apply (transit_windows_disjoint p a k _ k' e); assumption.
    + split; [discriminate|]. intros (k & Hin & W).
      specialize (S k e Hin). lra.
Qed.

Lemma findTransitAspect_unique_window_witness :
  option_map AstrologicalCalculator.matched
    (AstrologicalCalculator.findAmong AstrologicalCalculator.transitAspects
       (Fin 121) "Saturn")
  = Some (AstrologicalCalculator.mkAspectDef 120 "trine").
Proof.
  destruct (findTransitAspect_unique_window 121 "Saturn") as (_ & Astro & _).
  - cbn. intuition discriminate.
  - apply Astro. split.
    + cbn. tauto.
    + vm_compute. discriminate.
Defined.

Lemma TransitCalculator_findAmong_exactness (p : string) (a : Q) :
  forall entries d,
    TransitCalculator.findAmong entries (Fin a) p = Some d ->
    exists k e,
      In (k, e) entries
      /\ d = TransitCalculator.mkAspectData e
               (Fin (Qabs (a - TransitCalculator.angle e)))
               (mul (div (Fin (TransitCalculator.getTransitOrb p k
                               - Qabs (a - TransitCalculator.angle e)))
                       (Fin (TransitCalculator.getTransitOrb p k)))
                  (Fin 100))
               (TransitCalculator.angle e)
      /\ Qabs (a - TransitCalculator.angle e)
         <= TransitCalculator.getTransitOrb p k.
Proof.
  induction entries as [|[k e] rest IH]; intros d H; [discriminate|].
  cbn [TransitCalculator.findAmong sub abs lift1 lift2 le] in H.
  destruct (Qle_bool (Qabs (a - TransitCalculator.angle e))
              (TransitCalculator.getTransitOrb p k)) eqn:T.
  - inversion H; subst. apply Qle_bool_iff in T.
    exists k, e. cbn [In]. auto.
  - destruct (IH d H) as (k' & e' & I1 & I2 & I3).
    exists k', e'. cbn [In]. auto.
Qed.

(** X10.  In the transit calculator every match has an orb between 0
    and 1 degree and an exactness between 0 and 100 per cent; the
    exactness is 100 when the orb is 0.  The division by the orb
    applied is never a division by zero. *)
Theorem findTransitAspect_exactness_range :
  forall (x y : Q) (p : string) (d : TransitCalculator.AspectData),
    TransitCalculator.findTransitAspect (Fin x) (Fin y) p = Some d ->
    exists o ex,
      TransitCalculator.matchOrb d = Fin o
      /\ TransitCalculator.matchExactness d = Fin ex
      /\ 0 <= o /\ o <= 1
      /\ 0 <= ex /\ ex <= 100
      /\ (o == 0 -> ex == 100).
Proof.
  intros x y p d H. unfold TransitCalculator.findTransitAspect in H.
  rewrite angle_finite in H.
  destruct (TransitCalculator_findAmong_exactness p _ _ _ H)
    as (k & e & Hin & -> & W).
  cbn [TransitCalculator.matchOrb TransitCalculator.matchExactness].
  set (o := Qabs (angleQ x y - TransitCalculator.angle e)) in *.
  assert (O0 : 0 <= o) by apply Qabs_nonneg.
  destruct (TransitCalculator_orb_values p k e Hin) as [E|E];
    rewrite E in *; cbn [div mul lift2];
    match goal with
    | |- context [Qeq_bool ?c 0] => change (Qeq_bool c 0) with false
    end; cbn iota.
  - exists o, ((1 - o) / 1 * 100). unfold Qdiv. change (/ 1) with 1.
    repeat split; try reflexivity; try lra; intros; lra.
  - exists o, (((1 # 2) - o) / (1 # 2) * 100).
    unfold Qdiv. change (/ (1 # 2)) with 2.
    repeat split; try reflexivity; try lra; intros; lra.
Qed.

Lemma findTransitAspect_exactness_range_witness :
  exists o ex,
    option_map TransitCalculator.matchOrb
      (TransitCalculator.findTransitAspect (Fin 10) (Fin (1003 # 10)) "Mars")
    = Some (Fin o)
    /\ option_map TransitCalculator.matchExactness
         (TransitCalculator.findTransitAspect (Fin 10) (Fin (1003 # 10)) "Mars")
       = Some (Fin ex)
    /\ 0 <= ex /\ ex <= 100.
Proof.
  destruct (TransitCalculator.findTransitAspect (Fin 10) (Fin (1003 # 10)) "Mars")
    as [d|] eqn:F; [|vm_compute in F; discriminate F].
  destruct (findTransitAspect_exactness_range 10 (1003 # 10) "Mars" d F)
    as (o & ex & A & B & _ & _ & C & D & _).
  exists o, ex. cbn [option_map]. rewrite A, B. repeat split; assumption.
Defined.

(** ** The positions of a date *)

Section TransitPositions.

Variable swe_calc_ut : num -> TransitCalculator.body -> CalcResult.
Variable jd : num.
Variable houses : option (list House).

Lemma transitEntry_keys (entries : dict TransitCalculator.body) :
  forall k,
    In k (map fst (flat_map (transitEntry swe_calc_ut jd houses) entries)) ->
    In k (map fst entries).
Proof.
  induction entries as [|[name id] rest IH]; intros k H; [exact H|].
  cbn [flat_map] in H. rewrite map_app, in_app_iff in H.
  cbn [map fst In]. destruct H as [H|H]; [|right; apply IH; exact H].
  unfold transitEntry in H. cbn [fst snd] in H.
  destruct (swe_calc_ut jd id) as [rflag lon speed|]; [|contradiction].
  destruct (0 <=? rflag)%Z; [|contradiction].
  cbn in H. destruct H as [H|[]]. left. exact H.
Qed.

Lemma positionsOf_closed_form (entries : dict TransitCalculator.body) :
  NoDup (map fst entries) ->
  forall acc,
    (forall k, In k (map fst entries) -> ~ In k (map fst acc)) ->
    TransitCalculator.positionsOf swe_calc_ut jd houses entries acc
    = acc ++ flat_map (transitEntry swe_calc_ut jd houses) entries.
Proof.
  induction entries as [|[name id] rest IH]; intros N acc D.
  - cbn. rewrite app_nil_r. reflexivity.
  - inversion N as [|? ? Hn N']; subst.
    cbn [TransitCalculator.positionsOf flat_map].
    unfold transitEntry at 1. cbn [fst snd].
    assert (Drest : forall k, In k (map fst rest) -> ~ In k (map fst acc)).
    { intros k Hk. apply D. right. exact Hk. }
    destruct (swe_calc_ut jd id) as [rflag lon speed|];
      [|rewrite IH by assumption; reflexivity].
    destruct (0 <=? rflag)%Z; [|rewrite IH by assumption; reflexivity].
    rewrite assign_fresh by (apply D; left; reflexivity).
    rewrite IH; [rewrite <- app_assoc; reflexivity|exact N'|].
    intros k Hk. rewrite map_app, in_app_iff. cbn [map fst In].
    intros [C|[C|[]]]; [exact (Drest k Hk C)|subst; tauto].
Qed.

End TransitPositions.

Section AstroPositions.

Variable swe_calc_ut : num -> AstrologicalCalculator.body -> CalcResult.
Variable jd : num.
Variable houses : option (list House).

Lemma astroEntry_keys (entries : dict AstrologicalCalculator.body) :
  forall k,
    In k (map fst (flat_map (astroEntry swe_calc_ut jd houses) entries)) ->
    In k (map fst entries).
Proof.
  induction entries as [|[name id] rest IH]; intros k H; [exact H|].
  cbn [flat_map] in H. rewrite map_app, in_app_iff in H.
  cbn [map fst In]. destruct H as [H|H]; [|right; apply IH; exact H].
  unfold astroEntry in H. cbn [fst snd] in H.
  destruct (swe_calc_ut jd id) as [rflag lon speed|]; [|contradiction].
  destruct (0 <=? rflag)%Z; [|contradiction].
  cbn in H. destruct H as [H|[]]. left. exact H.
Qed.

Lemma astro_positionsOf_closed_form (entries : dict AstrologicalCalculator.body) :
  NoDup (map fst entries) ->
  forall acc,
    (forall k, In k (map fst entries) -> ~ In k (map fst acc)) ->
    AstrologicalCalculator.positionsOf swe_calc_ut jd houses entries acc
    = acc ++ flat_map (astroEntry swe_calc_ut jd houses) entries.
Proof.
  induction entries as [|[name id] rest IH]; intros N acc D.
  - cbn. rewrite app_nil_r. reflexivity.
  - inversion N as [|? ? Hn N']; subst.
    cbn [AstrologicalCalculator.positionsOf flat_map].
    unfold astroEntry at 1. cbn [fst snd].
    assert (Drest : forall k, In k (map fst rest) -> ~ In k (map fst acc)).
    { intros k Hk. apply D. right. exact Hk. }
    destruct (swe_calc_ut jd id) as [rflag lon speed|];
      [|rewrite IH by assumption; reflexivity].
    destruct (0 <=? rflag)%Z; [|rewrite IH by assumption; reflexivity].
    rewrite assign_fresh by (apply D; left; reflexivity).
    rewrite IH; [rewrite <- app_assoc; reflexivity|exact N'|].
    intros k Hk. rewrite map_app, in_app_iff. cbn [map fst In].
    intros [C|[C|[]]]; [exact (Drest k Hk C)|subst; tauto].
Qed.

End AstroPositions.

Lemma transit_planets_NoDup : NoDup (map fst TransitCalculator.planets).
Proof.
  cbn. repeat (constructor; [cbn; intuition discriminate|]). constructor.
Qed.

Lemma astro_planets_NoDup : NoDup (map fst AstrologicalCalculator.planets).
Proof.
  cbn. repeat (constructor; [cbn; intuition discriminate|]). constructor.
Qed.

Lemma lookup_app {A : Type} (k : string) (l1 l2 : dict A) :
  lookup k (l1 ++ l2)
  = match lookup k l1 with Some v => Some v | None => lookup k l2 end.
Proof.
  induction l1 as [|[k' v'] l1 IH]; cbn [app lookup]; [reflexivity|].
  destruct (String.eqb k k'); [reflexivity|exact IH].
Qed.

Lemma north_node_entry
    (swe_calc_ut : num -> AstrologicalCalculator.body -> CalcResult)
    (jd : num) (houses : option (list House)) :
  let base :=
    flat_map (astroEntry swe_calc_ut jd houses) AstrologicalCalculator.planets in
  (succeeded (swe_calc_ut jd AstrologicalCalculator.SE_TRUE_NODE) = true ->
   exists n, lookup "NNode" base = Some n)
  /\ (succeeded (swe_calc_ut jd AstrologicalCalculator.SE_TRUE_NODE) = false ->
      lookup "NNode" base = None).
Proof.
  cbn zeta.
  change AstrologicalCalculator.planets with
    (firstn 10 AstrologicalCalculator.planets
     ++ [("NNode"%string, AstrologicalCalculator.SE_TRUE_NODE)]
     ++ skipn 11 AstrologicalCalculator.planets).
  rewrite !flat_map_app, !lookup_app.
  assert (Pre : lookup "NNode"
                  (flat_map (astroEntry swe_calc_ut jd houses)
                     (firstn 10 AstrologicalCalculator.planets)) = None).
  { apply lookup_None. intros C. apply astroEntry_keys in C.
    cbn in C. intuition discriminate. }
  assert (Post : lookup "NNode"
                   (flat_map (astroEntry swe_calc_ut jd houses)
                      (skipn 11 AstrologicalCalculator.planets)) = None).
  { apply lookup_None. intros C. apply astroEntry_keys in C.
    cbn in C. intuition discriminate. }
  rewrite Pre, Post. cbn [flat_map app]. rewrite app_nil_r.
  unfold astroEntry, succeeded. cbn [fst snd].
  destruct (swe_calc_ut jd AstrologicalCalculator.SE_TRUE_NODE)
    as [rflag lon speed|]; [|split; [discriminate|reflexivity]].
  destruct (0 <=? rflag)%Z; split; try discriminate; try reflexivity.
  intros _. eexists. reflexivity.
Qed.

(** X11.  The positions of a date hold, in the order of the catalog,
    one entry for each body whose query succeeded; a body whose query
    fails (negative flag or exception) is left out and the others are
    not affected.  The astrological calculator adds the south node
    last, exactly when the north node was computed. *)
Theorem calculatePlanetaryPositions_entries :
  (forall (swe_calc_ut : num -> TransitCalculator.body -> CalcResult)
          (jd : num) (houses : option (list House)),
      TransitCalculator.calculatePlanetaryPositions swe_calc_ut jd houses
      = flat_map (transitEntry swe_calc_ut jd houses) TransitCalculator.planets)
  /\ (forall (swe_calc_ut : num -> AstrologicalCalculator.body -> CalcResult)
             (jd : num) (houses : option (list House)),
         exists tail,
           AstrologicalCalculator.calculatePlanetaryPositions swe_calc_ut jd
             houses
           = flat_map (astroEntry swe_calc_ut jd houses)
               AstrologicalCalculator.planets ++ tail
           /\ map fst tail
              = if succeeded
                     (swe_calc_ut jd AstrologicalCalculator.SE_TRUE_NODE)
                then ["SNode"%string] else []).
Proof.
  split.
  - intros swe_calc_ut jd houses.
    unfold TransitCalculator.calculatePlanetaryPositions.
    rewrite positionsOf_closed_form;
      [reflexivity|apply transit_planets_NoDup|intros k _ []].
  - intros swe_calc_ut jd houses.
    unfold AstrologicalCalculator.calculatePlanetaryPositions.
    rewrite astro_positionsOf_closed_form;
      [|apply astro_planets_NoDup|intros k _ []].
    cbn [app].
    destruct (north_node_entry swe_calc_ut jd houses) as [Yes No].
    destruct (succeeded (swe_calc_ut jd AstrologicalCalculator.SE_TRUE_NODE)).
    + destruct (Yes eq_refl) as [n ->].
      rewrite assign_fresh.
      * eexists. split; reflexivity.
      * intros C. apply astroEntry_keys in C. cbn in C. intuition discriminate.
    + rewrite (No eq_refl). exists []. rewrite app_nil_r. split; reflexivity.
Qed.

(** ** Where the aspects of calculateTransits come from *)

Lemma inner_loop_provenance (transitDate : Date) (t : string * Position)
    (a : TransitCalculator.Aspect) :
  forall natalPositions st,
    In a (fst (fold_left
                 (TransitCalculator.transitStep transitDate (fst t) (snd t))
                 natalPositions st)) ->
    In a (fst st)
    \/ exists n d,
         In n natalPositions
         /\ TransitCalculator.findTransitAspect (longitude (snd t))
              (longitude (snd n)) (fst t) = Some d
         /\ a = aspectOf transitDate t n d.
Proof.
  induction natalPositions as [|n rest IH]; intros st H; [left; exact H|].
  cbn [fold_left] in H. apply IH in H.
  destruct H as [H|(n' & d & I1 & I2 & I3)].
  - unfold TransitCalculator.transitStep in H. destruct n as [nk npos].
    destruct (TransitCalculator.findTransitAspect (longitude (snd t))
                (longitude npos) (fst t)) as [d|] eqn:F; [|left; exact H].
    cbn [fst] in H. apply in_app_iff in H. destruct H as [H|[H|[]]].
    + left. exact H.
    + right. exists (nk, npos), d. cbn [In]. repeat split; auto.
  - right. exists n', d. cbn [In]. auto.
Qed.

Lemma transitLoops_provenance (transitDate : Date)
    (natalPositions : dict Position) (a : TransitCalculator.Aspect) :
  forall transitPositions st,
    In a (fst (fold_left
                 (fun st transit =>
                    fold_left
                      (TransitCalculator.transitStep transitDate
                         (fst transit) (snd transit))
                      natalPositions st)
                 transitPositions st)) ->
    In a (fst st)
    \/ exists t n d,
         In t transitPositions /\ In n natalPositions
         /\ TransitCalculator.findTransitAspect (longitude (snd t))
              (longitude (snd n)) (fst t) = Some d
         /\ a = aspectOf transitDate t n d.
Proof.
  induction transitPositions as [|t rest IH]; intros st H; [left; exact H|].
  cbn [fold_left] in H. apply IH in H.
  destruct H as [H|(t' & n & d & I1 & I2 & I3 & I4)].
  - apply inner_loop_provenance in H.
    destruct H as [H|(n & d & I1 & I2 & I3)]; [left; exact H|].
    right. exists t, n, d. cbn [In]. auto.
  - right. exists t', n, d. cbn [In]. auto.
Qed.

Lemma calculateTransits_provenance
    (swe_calc_ut : num -> TransitCalculator.body -> CalcResult)
    (dateToJulianDay : Date -> num)
    (natalPositions : dict Position) (natalHouses : option (list House))
    (transitDate : Date) (a : TransitCalculator.Aspect) :
  In a (TransitCalculator.aspects
          (TransitCalculator.calculateTransits swe_calc_ut dateToJulianDay
             natalPositions natalHouses transitDate)) ->
  exists t n d,
    In t (TransitCalculator.calculatePlanetaryPositions swe_calc_ut
            (dateToJulianDay transitDate) natalHouses)
    /\ In n natalPositions
    /\ TransitCalculator.findTransitAspect (longitude (snd t))
         (longitude (snd n)) (fst t) = Some d
    /\ a = aspectOf transitDate t n d.
Proof.
  unfold TransitCalculator.calculateTransits, TransitCalculator.transitsFrom.
  cbn [TransitCalculator.aspects]. intros H.
  apply (Permutation_in _ (sort_perm TransitCalculator.byOrb _)) in H.
  unfold TransitCalculator.transitLoops in H.
  apply transitLoops_provenance in H. destruct H as [[]|H]. exact H.
Qed.

Lemma transit_position_has_no_speed
    (swe_calc_ut : num -> TransitCalculator.body -> CalcResult)
    (jd : num) (houses : option (list House)) (t : string * Position) :
  In t (TransitCalculator.calculatePlanetaryPositions swe_calc_ut jd houses) ->
  In (fst t) (map fst TransitCalculator.planets)
  /\ longitudeSpeed (snd t) = NaN.
Proof.
  unfold TransitCalculator.calculatePlanetaryPositions.
  rewrite positionsOf_closed_form;
    [|apply transit_planets_NoDup|intros k _ []].
  cbn [app]. intros H. apply in_flat_map in H.
  destruct H as ([name id] & Hin & H).
  unfold transitEntry in H. cbn [fst snd] in H.
  destruct (swe_calc_ut jd id) as [rflag lon speed|]; [|contradiction].
  destruct (0 <=? rflag)%Z; [|contradiction].
  destruct H as [<-|[]]. cbn [fst snd]. split; [|reflexivity].
  apply (in_map fst) in Hin. exact Hin.
Qed.

Lemma no_speed_never_applying (tp np : Position) (t : num) (d : Date) :
  longitudeSpeed tp = NaN ->
  TransitCalculator.isTransitApplying tp np t = false
  /\ TransitCalculator.estimatePeakDate tp np t d = Some InvalidDate.
Proof.
  intros S. unfold TransitCalculator.isTransitApplying,
    TransitCalculator.estimatePeakDate. rewrite S.
  assert (A : add (longitude tp) NaN = NaN)
    by (destruct (longitude tp); reflexivity).
  rewrite A. cbn [rem abs lift1 lt]. rewrite angle_NaN_l.
  split; [reflexivity|].
  assert (D : forall x, div x NaN = NaN) by (intros [q|]; reflexivity).
  rewrite D. cbn [abs lift1 gt lt mul lift2].
  assert (E : add (getTime d) NaN = NaN) by (destruct d; reflexivity).
  rewrite E. reflexivity.
Qed.

Lemma calculateTransits_applying_count
    (swe_calc_ut : num -> TransitCalculator.body -> CalcResult)
    (dateToJulianDay : Date -> num)
    (natalPositions : dict Position) (natalHouses : option (list House))
    (transitDate : Date) :
  let sm :=
    TransitCalculator.summary
      (TransitCalculator.calculateTransits swe_calc_ut dateToJulianDay
         natalPositions natalHouses transitDate) in
  TransitCalculator.total sm
  = (TransitCalculator.nApplying sm + TransitCalculator.nSeparating sm)%nat
  /\ TransitCalculator.nApplying sm
     = countIf TransitCalculator.applying
         (TransitCalculator.aspects
            (TransitCalculator.calculateTransits swe_calc_ut dateToJulianDay
               natalPositions natalHouses transitDate)).
Proof.
  cbn zeta. unfold TransitCalculator.calculateTransits,
    TransitCalculator.transitsFrom.
  cbn [TransitCalculator.aspects TransitCalculator.summary].
  pose proof (transitLoops_consistent transitDate
                (TransitCalculator.calculatePlanetaryPositions swe_calc_ut
                   (dateToJulianDay transitDate) natalHouses)
                natalPositions) as C.
  destruct (TransitCalculator.transitLoops _ _ _) as [l sm].
  destruct C as (Ht & Ha & Hs & _ & _). cbn [fst snd].
  rewrite (countIf_perm _ _ _ (sort_perm TransitCalculator.byOrb l)).
  split; [|exact Ha].
  rewrite Ht, Ha, Hs. unfold countIf. clear Ht Ha Hs.
  induction l as [|a l IH]; [reflexivity|].
  cbn [filter List.length]. destruct (TransitCalculator.applying a);
    cbn [negb List.length]; lia.
Qed.

Lemma calculateTransits_each_aspect
    (swe_calc_ut : num -> TransitCalculator.body -> CalcResult)
    (dateToJulianDay : Date -> num)
    (natalPositions : dict Position) (natalHouses : option (list House))
    (transitDate : Date) (a : TransitCalculator.Aspect) :
  In a (TransitCalculator.aspects
          (TransitCalculator.calculateTransits swe_calc_ut dateToJulianDay
             natalPositions natalHouses transitDate)) ->
  In (TransitCalculator.transitingPlanet a) (map fst TransitCalculator.planets)
  /\ In (TransitCalculator.natalPlanet a) (map fst natalPositions)
  /\ (exists o, TransitCalculator.orb a = Fin o /\ 0 <= o /\ o <= 1 # 2)
  /\ TransitCalculator.applying a = false
  /\ TransitCalculator.peakDate a = Some InvalidDate.
Proof.
  intros Ha. apply calculateTransits_provenance in Ha.
  destruct Ha as (tp & np & d & I1 & I2 & F & ->).
  apply transit_position_has_no_speed in I1. destruct I1 as [Name Speed].
  unfold aspectOf.
  cbn [TransitCalculator.transitingPlanet TransitCalculator.natalPlanet
         TransitCalculator.orb TransitCalculator.applying
         TransitCalculator.peakDate].
  destruct (no_speed_never_applying (snd tp) (snd np)
              (Fin (TransitCalculator.targetAngle d)) transitDate Speed)
    as [-> ->].
  repeat split; try assumption.
  - apply (in_map fst) in I2. exact I2.
  - unfold TransitCalculator.findTransitAspect in F.
    destruct (calculateAngleBetweenPlanets (longitude (snd tp))
                (longitude (snd np))) as [ang|] eqn:A;
      [|rewrite TransitCalculator_findAmong_NaN in F; discriminate].
    pose proof (TransitCalculator_findAmong_orb (fst tp) ang
                  TransitCalculator.transitAspects) as S.
    rewrite F in S. destruct S as (k & Hin & Orb & Le).
    exists (Qabs (ang - TransitCalculator.targetAngle d)).
    split; [exact Orb|]. split; [apply Qabs_nonneg|].
    assert (Half : TransitCalculator.getTransitOrb (fst tp) k = 1 # 2).
    { rewrite (TransitCalculator_orb_is_minor k _ (fst tp) Hin).
      cbn in Name.
      repeat (destruct Name as [Name|Name];
              [rewrite <- Name; reflexivity|]).
      contradiction. }
    rewrite Half in Le. exact Le.
Qed.

(** X12.  Every aspect [calculateTransits] returns is made by a body
    of the calculator's own list, none of which is a key of its orb
    table: its orb is a number between 0 and 0.5 degree.  As the
    positions of the date carry no speed, every aspect is classified as
    not applying and its peak date is the invalid date; the summary
    counts no applying aspect. *)
Theorem calculateTransits_aspects :
  forall (swe_calc_ut : num -> TransitCalculator.body -> CalcResult)
         (dateToJulianDay : Date -> num)
         (natalPositions : dict Position) (natalHouses : option (list House))
         (transitDate : Date),
    let t := TransitCalculator.calculateTransits swe_calc_ut dateToJulianDay
               natalPositions natalHouses transitDate in
    (forall a, In a (TransitCalculator.aspects t) ->
       In (TransitCalculator.transitingPlanet a)
         (map fst TransitCalculator.planets)
       /\ In (TransitCalculator.natalPlanet a) (map fst natalPositions)
       /\ (exists o, TransitCalculator.orb a = Fin o /\ 0 <= o /\ o <= 1 # 2)
       /\ TransitCalculator.applying a = false
       /\ TransitCalculator.peakDate a = Some InvalidDate)
    /\ TransitCalculator.nApplying (TransitCalculator.summary t) = 0%nat
    /\ TransitCalculator.nSeparating (TransitCalculator.summary t)
       = TransitCalculator.total (TransitCalculator.summary t).
Proof.
  intros swe_calc_ut dateToJulianDay natalPositions natalHouses transitDate t.
  assert (Each : forall a, In a (TransitCalculator.aspects t) ->
            In (TransitCalculator.transitingPlanet a)
              (map fst TransitCalculator.planets)
            /\ In (TransitCalculator.natalPlanet a) (map fst natalPositions)
            /\ (exists o, TransitCalculator.orb a = Fin o
                          /\ 0 <= o /\ o <= 1 # 2)
            /\ TransitCalculator.applying a = false
            /\ TransitCalculator.peakDate a = Some InvalidDate)
    by (intros a; apply calculateTransits_each_aspect).
  split; [exact Each|].
  destruct (calculateTransits_applying_count swe_calc_ut dateToJulianDay
              natalPositions natalHouses transitDate) as (Tot & App).
  fold t in Tot, App.
  assert (Z0 : TransitCalculator.nApplying (TransitCalculator.summary t) = 0%nat).
  { rewrite App. unfold countIf.
    assert (G : forall l : list TransitCalculator.Aspect,
               (forall a, In a l -> TransitCalculator.applying a = false) ->
               filter TransitCalculator.applying l = []).
    { induction l as [|a l IH]; intros H; [reflexivity|].
      cbn [filter]. rewrite (H a (or_introl eq_refl)).
      apply IH. intros b Hb. apply H. right. exact Hb. }
    rewrite G; [reflexivity|]. intros a Ha. apply Each. exact Ha. }
  split; [exact Z0|]. lia.
Qed.

(** ** The histograms of the summary *)

Lemma tally_bump (k k' : string) (d : dict nat) :
  tally (TransitCalculator.bump k d) k'
  = (tally d k' + if String.eqb k k' then 1 else 0)%nat.
Proof.
  unfold tally, TransitCalculator.bump.
  destruct (String.eqb k k') eqn:E.
  - apply String.eqb_eq in E. subst k'. rewrite lookup_assign_same.
    destruct (lookup k d); lia.
  - apply String.eqb_neq in E. rewrite lookup_assign_other by exact E. lia.
Qed.

Lemma transitStep_histograms (transitDate : Date) (transitPlanet : string)
    (transitPos : Position) st natal :
  consistent st -> histograms st ->
  histograms (TransitCalculator.transitStep transitDate transitPlanet
                transitPos st natal).
Proof.
  destruct st as [l sm]. destruct natal as [natalPlanet natalPos].
  intros _ (Ht & Hn & Ha).
  unfold TransitCalculator.transitStep.
  destruct (TransitCalculator.findTransitAspect (longitude transitPos)
              (longitude natalPos) transitPlanet) as [d|];
    [|repeat split; assumption].
  cbn [fst snd histograms TransitCalculator.updateTransitSummary
         TransitCalculator.byTransitingPlanet TransitCalculator.byNatalPlanet
         TransitCalculator.byAspect TransitCalculator.transitingPlanet
         TransitCalculator.natalPlanet].
  repeat split.
  - intros k. rewrite tally_bump, countIf_snoc, Ht.
    cbn [TransitCalculator.transitingPlanet]. reflexivity.
  - intros k. rewrite tally_bump, countIf_snoc, Hn.
    cbn [TransitCalculator.natalPlanet]. reflexivity.
  - rewrite Ha, length_app. cbn [List.length].
    destruct (List.length l) as [|n] eqn:L.
    + reflexivity.
    + unfold TransitCalculator.bump. cbn [lookup assign].
      change (String.eqb "undefined" "undefined") with true. cbn iota.
      replace (S n + 1)%nat with (S (n + 1)) by lia.
      replace (S n + 1)%nat with (S (n + 1)) by lia. reflexivity.
Qed.

Lemma transitLoops_histograms (transitDate : Date)
    (transitPositions natalPositions : dict Position) :
  histograms (TransitCalculator.transitLoops transitDate transitPositions
                natalPositions).
Proof.
  unfold TransitCalculator.transitLoops.
  assert (G : forall (X : Type)
                (f : list TransitCalculator.Aspect * TransitCalculator.Summary
                     -> X ->
                     list TransitCalculator.Aspect * TransitCalculator.Summary)
                (xs : list X),
             (forall st x, consistent st /\ histograms st ->
                           consistent (f st x) /\ histograms (f st x)) ->
             forall st, consistent st /\ histograms st ->
                        consistent (fold_left f xs st)
                        /\ histograms (fold_left f xs st)).
  { intros X f xs Hf. induction xs as [|x xs IH]; intros st H; [exact H|].
    cbn [fold_left]. apply IH, Hf, H. }
  apply G.
  - intros st transit H. apply G; [|exact H].
    intros st' natal [C H']. split.
    + apply transitStep_consistent. exact C.
    + apply transitStep_histograms; assumption.
  - split; cbn; repeat split; constructor.
Qed.

(** X13.  For natal bodies whose names are not among those every
    object inherits: in what [calculateTransits] returns, the histogram
    by transiting planet and the histogram by natal planet hold, for
    each name, the number of aspects of the list with that planet (no
    entry for a planet without aspect).  The histogram by aspect does
    not tell the aspects apart: it is empty when there is no aspect and
    otherwise holds the whole count under the single key
    "undefined". *)
Theorem calculateTransits_histograms :
  forall (swe_calc_ut : num -> TransitCalculator.body -> CalcResult)
         (dateToJulianDay : Date -> num)
         (natalPositions : dict Position) (natalHouses : option (list House))
         (transitDate : Date),
    (forall k, In k (map fst natalPositions) -> ~ In k inheritedNames) ->
    let t := TransitCalculator.calculateTransits swe_calc_ut dateToJulianDay
               natalPositions natalHouses transitDate in
    let sm := TransitCalculator.summary t in
    (forall k,
        tally (TransitCalculator.byTransitingPlanet sm) k
        = countIf (fun a => String.eqb (TransitCalculator.transitingPlanet a) k)
            (TransitCalculator.aspects t))
    /\ (forall k,
           tally (TransitCalculator.byNatalPlanet sm) k
           = countIf (fun a => String.eqb (TransitCalculator.natalPlanet a) k)
               (TransitCalculator.aspects t))
    /\ TransitCalculator.byAspect sm
       = match TransitCalculator.total sm with
         | O => []
         | S n => [("undefined"%string, S n)]
         end.
Proof.
  intros swe_calc_ut dateToJulianDay natalPositions natalHouses transitDate _.
  cbn zeta. unfold TransitCalculator.calculateTransits,
    TransitCalculator.transitsFrom.
  cbn [TransitCalculator.aspects TransitCalculator.summary].
  pose proof (transitLoops_histograms transitDate
                (TransitCalculator.calculatePlanetaryPositions swe_calc_ut
                   (dateToJulianDay transitDate) natalHouses)
                natalPositions) as H.
  pose proof (transitLoops_consistent transitDate
                (TransitCalculator.calculatePlanetaryPositions swe_calc_ut
                   (dateToJulianDay transitDate) natalHouses)
                natalPositions) as C.
  destruct (TransitCalculator.transitLoops _ _ _) as [l sm].
  destruct H as (Ht & Hn & Ha). destruct C as (Tot & _). cbn [fst snd].
  pose proof (sort_perm TransitCalculator.byOrb l) as P.
  repeat split.
  - intros k. rewrite (countIf_perm _ _ _ P). apply Ht.
  - intros k. rewrite (countIf_perm _ _ _ P). apply Hn.
  - rewrite Tot. exact Ha.
Qed.

Lemma calculateTransits_histograms_witness :
  let t := TransitCalculator.calculateTransits sunAlone (fun _ => Fin 2451545)
             natalMoon None (Instant 0) in
  tally (TransitCalculator.byNatalPlanet (TransitCalculator.summary t)) "Moon"
  = countIf (fun a => String.eqb (TransitCalculator.natalPlanet a) "Moon")
      (TransitCalculator.aspects t).
Proof.
  intros t.
  destruct (calculateTransits_histograms sunAlone (fun _ => Fin 2451545)
              natalMoon None (Instant 0)) as (_ & Natal & _).
  - intros k [<-|[]]. cbn. intuition discriminate.
  - apply Natal.
Defined.

(** ** The transits of a period *)

Lemma filter_all {A : Type} (f : A -> bool) (l : list A) :
  (forall x, In x l -> f x = true) -> filter f l = l.
Proof.
  induction l as [|x l IH]; intros H; [reflexivity|].
  cbn [filter]. rewrite (H x (or_introl eq_refl)). f_equal.
  apply IH. intros y Hy. apply H. right. exact Hy.
Qed.

Section Period.

Variable swe_calc_ut : num -> TransitCalculator.body -> CalcResult.
Variable dateToJulianDay : Date -> num.
Variable plusDays : Date -> num -> Date.
Variable natalPositions : dict Position.
Variable houses : option (list House).
Variable stepDays : num.
Variables s e : Z.

Hypothesis moves_on :
  forall t, exists t', plusDays (Instant t) stepDays = Instant t' /\ (t < t')%Z.

Let next (d : Date) : Date := plusDays d stepDays.

Lemma periodLoop_visits (fuel : nat) :
  forall cur acc,
    (s <= cur)%Z -> (Z.to_nat (e - cur + 1) < fuel)%nat ->
    exists new t,
      TransitCalculator.periodLoop swe_calc_ut dateToJulianDay plusDays fuel
        natalPositions houses (Instant cur) (Instant e) stepDays acc
      = Returns (acc ++ new)
      /\ Forall (fullDay swe_calc_ut dateToJulianDay natalPositions houses s e)
           new
      /\ follows next (Instant cur) (map TransitCalculator.dayDate new)
      /\ Nat.iter (List.length new) next (Instant cur) = Instant t
      /\ (e < t)%Z
      /\ (new = [] <-> (e < cur)%Z).
Proof.
  induction fuel as [|fuel IH]; intros cur acc Hs Hf; [lia|].
  cbn [TransitCalculator.periodLoop getTime le].
  destruct (Qle_bool (inject_Z cur) (inject_Z e)) eqn:T.
  - apply Qle_bool_iff in T. rewrite <- Zle_Qle in T.
    destruct (moves_on cur) as (t' & Et' & Ht').
    rewrite Et'.
    set (day := TransitCalculator.mkDayTransits (Instant cur)
                  (TransitCalculator.transitPositions
                     (TransitCalculator.calculateTransits swe_calc_ut
                        dateToJulianDay natalPositions houses (Instant cur)))
                  (filter (fun t => le (TransitCalculator.orb t) (Fin 1))
                     (TransitCalculator.aspects
                        (TransitCalculator.calculateTransits swe_calc_ut
                           dateToJulianDay natalPositions houses
                           (Instant cur))))).
    destruct (IH t' (acc ++ [day])) as (new & t & E & F & Fo & It & Lt & _);
      try lia.
    exists (day :: new), t. rewrite E, <- app_assoc. cbn [app].
    split; [reflexivity|]. split.
    { constructor; [|exact F].
      exists cur. unfold day.
      cbn [TransitCalculator.dayDate TransitCalculator.dayPositions
           TransitCalculator.dayTransits].
      repeat split; try lia.
      apply filter_all. intros a Ha.
      destruct (calculateTransits_each_aspect swe_calc_ut dateToJulianDay
                  natalPositions houses (Instant cur) a Ha)
        as (_ & _ & (o & -> & _ & Ho) & _).
      cbn [le]. apply Qle_bool_iff. lra. }
    split.
    { cbn [map follows]. split; [reflexivity|].
      unfold next at 2. rewrite Et'. exact Fo. }
    split.
    { cbn [List.length]. rewrite Nat.iter_succ_r.
      unfold next at 2. rewrite Et'. exact It. }
    split; [exact Lt|]. split; [discriminate|lia].
  - apply Qle_bool_false in T. rewrite <- Zlt_Qlt in T.
    exists [], cur. rewrite app_nil_r.
    split; [reflexivity|]. split; [constructor|]. split; [exact I|].
    split; [reflexivity|]. split; [exact T|]. split; [intros _; exact T|].
    reflexivity.
Qed.

End Period.

(** X14.  With a calendar that moves every date forward, the loop over
    a period ends.  The list returned holds one entry for the start,
    one for the date the calendar gives after it, and so on, up to the
    last of these dates that is not after the end: no date is skipped
    and none is added.  The test on the orb (at most 1 degree) removes
    nothing, so each entry holds all the aspects of [calculateTransits]
    for its date.  The list is empty exactly when the start lies after
    the end. *)
Theorem getTransitsInPeriod_days :
  forall (swe_calc_ut : num -> TransitCalculator.body -> CalcResult)
         (dateToJulianDay : Date -> num) (plusDays : Date -> num -> Date)
         (natalPositions : dict Position) (houses : option (list House))
         (stepDays : num) (s e : Z) (fuel : nat),
    (forall t, exists t',
        plusDays (Instant t) stepDays = Instant t' /\ (t < t')%Z) ->
    (Z.to_nat (e - s + 1) < fuel)%nat ->
    exists days t,
      TransitCalculator.getTransitsInPeriod swe_calc_ut dateToJulianDay
        plusDays fuel natalPositions houses (Instant s) (Instant e) stepDays
      = Returns days
      /\ Forall (fullDay swe_calc_ut dateToJulianDay natalPositions houses s e)
           days
      /\ follows (fun d => plusDays d stepDays) (Instant s)
           (map TransitCalculator.dayDate days)
      /\ Nat.iter (List.length days) (fun d => plusDays d stepDays)
           (Instant s) = Instant t
      /\ (e < t)%Z
      /\ (days = [] <-> (e < s)%Z).
Proof.
  intros swe_calc_ut dateToJulianDay plusDays natalPositions houses stepDays
    s e fuel Hmove Hfuel.
  unfold TransitCalculator.getTransitsInPeriod.
  destruct (periodLoop_visits swe_calc_ut dateToJulianDay plusDays
              natalPositions houses stepDays s e Hmove fuel s [])
    as (days & t & E & R); try lia.
  exists days, t. split; [exact E|exact R].
Qed.

Lemma getTransitsInPeriod_days_witness :
  exists days t,
    TransitCalculator.getTransitsInPeriod sunAlone (fun _ => Fin 2451545)
      tick 5 natalMoon None (Instant 0) (Instant 2) (Fin 1)
    = Returns days
    /\ Forall (fullDay sunAlone (fun _ => Fin 2451545) natalMoon None 0 2) days
    /\ follows (fun d => tick d (Fin 1)) (Instant 0)
         (map TransitCalculator.dayDate days)
    /\ Nat.iter (List.length days) (fun d => tick d (Fin 1)) (Instant 0)
       = Instant t
    /\ (2 < t)%Z.
Proof.
  destruct (getTransitsInPeriod_days sunAlone (fun _ => Fin 2451545) tick
              natalMoon None (Fin 1) 0 2 5)
    as (days & t & E & F & Fo & It & Lt & _).
  - intros t. exists (t + 1)%Z. split; [reflexivity|lia].
  - vm_compute. lia.
  - exists days, t. repeat split; assumption.
Defined.

(** ** The aspects of one chart *)

Lemma toFixed2_bounded (x : Q) (K : Z) :
  0 <= x -> x <= inject_Z K ->
  exists r, toFixed 2 (Fin x) = Fin r /\ 0 <= r /\ r <= inject_Z K.
Proof.
  intros H0 HK. unfold toFixed.
  change (inject_Z (10 ^ Z.of_nat 2)) with 100.
  assert (S : Qltb x 0 = false) by (apply Qltb_ge; exact H0).
  rewrite S.
  pose proof (Qabs_pos x H0) as A.
  eexists. split; [reflexivity|].
  set (n := Qfloor (Qabs x * 100 + (1 # 2))).
  assert (L : (0 <= n)%Z).
  { change 0%Z with (Qfloor 0). apply Qfloor_resp_le. lra. }
  assert (U : (n <= 100 * K)%Z).
  { assert (B : inject_Z n < inject_Z (100 * K + 1)).
    { eapply Qle_lt_trans; [apply Qfloor_le|].
      rewrite inject_Z_plus, inject_Z_mult.
      change (inject_Z 100) with 100. change (inject_Z 1) with 1. lra. }
    rewrite <- Zlt_Qlt in B. lia. }
  rewrite Zle_Qle in L, U. rewrite inject_Z_mult in U.
  change (inject_Z 100) with 100 in U. change (inject_Z 0) with 0 in L.
  unfold Qdiv. change (/ 100) with (1 # 100). split; lra.
Qed.

Lemma skipn_In {A : Type} (n : nat) (l : list A) (x : A) :
  In x (skipn n l) -> In x l.
Proof.
  intros H. rewrite <- (firstn_skipn n l). apply in_or_app. right. exact H.
Qed.

Lemma natalAspectOf_inv (p1 p2 : string * Position) (a : AstroUtils.NatalAspect) :
  In a (AstrologicalCalculator.natalAspectOf p1 p2) ->
  exists ang found,
    calculateAngleBetweenPlanets (longitude (snd p1)) (longitude (snd p2))
    = Fin ang
    /\ AstrologicalCalculator.findNatalAspect (Fin ang) = Some found
    /\ AstrologicalCalculator.filterAspect (fst p1) (fst p2) found = true
    /\ a = AstroUtils.mkNatalAspect (fst p1) (fst p2)
             (AstrologicalCalculator.natalName found)
             (AstrologicalCalculator.natalAngle found)
             (toFixed 2
                (Fin (Qabs (ang - AstrologicalCalculator.natalAngle found))))
             (AstrologicalCalculator.isNatalAspectApplying (snd p1) (snd p2)
                (Fin (AstrologicalCalculator.natalAngle found))).
Proof.
  unfold AstrologicalCalculator.natalAspectOf.
  destruct (calculateAngleBetweenPlanets (longitude (snd p1))
              (longitude (snd p2))) as [ang|]; [|intros []].
  destruct (AstrologicalCalculator.findNatalAspect (Fin ang))
    as [found|] eqn:F; [|intros []].
  destruct (AstrologicalCalculator.filterAspect (fst p1) (fst p2) found) eqn:G;
    [|intros []].
  intros [<-|[]]. exists ang, found. repeat split; assumption.
Qed.

Lemma planetPairs_in (positions : dict Position) :
  forall p q, In (p, q) (AstrologicalCalculator.planetPairs positions) ->
    In p positions /\ In q positions.
Proof.
  induction positions as [|x rest IH]; intros p q H; [contradiction|].
  cbn [AstrologicalCalculator.planetPairs] in H. apply in_app_iff in H.
  destruct H as [H|H].
  - apply in_map_iff in H. destruct H as (y & E & Hy). inversion E; subst.
    cbn [In]. auto.
  - apply IH in H. cbn [In]. tauto.
Qed.

Lemma anglePairs_in (positions : dict Position) :
  forall angles i0 p q,
    In (p, q) (AstrologicalCalculator.anglePairs angles i0 positions) ->
    exists j,
      nth_error angles j = Some p
      /\ In q (skipn (i0 + j + 1) positions).
Proof.
  induction angles as [|x rest IH]; intros i0 p q H; [contradiction|].
  cbn [AstrologicalCalculator.anglePairs] in H. apply in_app_iff in H.
  destruct H as [H|H].
  - apply in_map_iff in H. destruct H as (y & E & Hy). inversion E; subst.
    exists 0%nat. split; [reflexivity|].
    replace (i0 + 0 + 1)%nat with (i0 + 1)%nat by lia. exact Hy.
  - apply IH in H. destruct H as (j & N & Hq).
    exists (S j). split; [exact N|].
    replace (i0 + S j + 1)%nat with (i0 + 1 + j + 1)%nat by lia. exact Hq.
Qed.

Lemma calculateNatalAspects_inv (positions angles : dict Position)
    (a : AstroUtils.NatalAspect) :
  In a (AstrologicalCalculator.calculateNatalAspects positions angles) ->
  exists p q,
    In a (AstrologicalCalculator.natalAspectOf p q)
    /\ In q positions
    /\ (In p positions
        \/ exists j, nth_error angles j = Some p
                     /\ In q (skipn (j + 1) positions)).
Proof.
  unfold AstrologicalCalculator.calculateNatalAspects. intros H.
  apply in_app_iff in H. destruct H as [H|H];
    apply in_flat_map in H; destruct H as ([p q] & Hin & Ha);
    cbn [fst snd] in Ha; exists p, q; split; try exact Ha.
  - apply planetPairs_in in Hin. tauto.
  - apply anglePairs_in in Hin. destruct Hin as (j & N & Hq).
    cbn [Nat.add] in Hq. split.
    + apply (skipn_In _ _ _ Hq).
    + right. exists j. split; assumption.
Qed.

(** X15.  Every aspect [calculateNatalAspects] lists is one of the five
    aspects of the natal catalog, with the exact angle of that aspect
    and an orb, rounded to two decimals, between 0 and the orb of the
    catalog (8 degrees, 6 for the sextile).  No opposition that
    involves the north node is listed. *)
Theorem calculateNatalAspects_catalog :
  forall (positions angles : dict Position) (a : AstroUtils.NatalAspect),
    In a (AstrologicalCalculator.calculateNatalAspects positions angles) ->
    (exists e,
        In e (map snd AstrologicalCalculator.aspects)
        /\ AstroUtils.aspect a = AstrologicalCalculator.natalName e
        /\ AstroUtils.angle a = AstrologicalCalculator.natalAngle e
        /\ exists o,
             AstroUtils.orb a = Fin o
             /\ 0 <= o /\ o <= AstrologicalCalculator.natalOrb e)
    /\ ~ ((AstroUtils.planet1 a = "NNode"%string
           \/ AstroUtils.planet2 a = "NNode"%string)
          /\ AstroUtils.aspect a = "opposition"%string).
Proof.
  intros positions angles a H.
  apply calculateNatalAspects_inv in H. destruct H as (p & q & Ha & _).
  apply natalAspectOf_inv in Ha.
  destruct Ha as (ang & found & _ & F & G & ->).
  cbn [AstroUtils.aspect AstroUtils.angle AstroUtils.orb AstroUtils.planet1
         AstroUtils.planet2].
  unfold AstrologicalCalculator.findNatalAspect in F.
  apply findNatalAspect_in_sound in F. destruct F as [Hin W].
  split.
  - exists found. repeat split; try assumption.
    assert (K : exists K : Z,
               AstrologicalCalculator.natalOrb found = inject_Z K).
    { cbn in Hin. destruct Hin as [E|[E|[E|[E|[E|[]]]]]]; subst found;
        [exists 8%Z|exists 8%Z|exists 8%Z|exists 8%Z|exists 6%Z]; reflexivity. }
    destruct K as [K EK]. rewrite EK in *.
    destruct (toFixed2_bounded _ K (Qabs_nonneg _) W) as (r & E & R0 & R1).
    exists r. repeat split; assumption.
  - intros [Node Opp].
    unfold AstrologicalCalculator.filterAspect in G.
    rewrite Opp in G. change (String.eqb "opposition" "opposition") with true in G.
    destruct Node as [N|N]; rewrite N, String.eqb_refl in G.
    + discriminate G.
    + rewrite orb_true_r in G. discriminate G.
Qed.

Lemma calculateNatalAspects_catalog_witness :
  exists e,
    In e (map snd AstrologicalCalculator.aspects)
    /\ "conjunction"%string = AstrologicalCalculator.natalName e.
Proof.
  destruct (AstrologicalCalculator.calculateNatalAspects sunMoonAcrossSigns [])
    as [|a rest] eqn:E; [vm_compute in E; discriminate E|].
  destruct (calculateNatalAspects_catalog sunMoonAcrossSigns [] a)
    as [(e & Hin & Name & _) _].
  - rewrite E. left. reflexivity.
  - exists e. split; [exact Hin|].
    rewrite <- Name. vm_compute in E. inversion E. reflexivity.
Defined.

Lemma nth_error_key_unique {A : Type} (d : dict A) :
  NoDup (map fst d) ->
  forall i j p q,
    nth_error d i = Some p -> nth_error d j = Some q -> fst p = fst q ->
    i = j.
Proof.
  intros N i j p q Hi Hj E.
  apply (proj1 (NoDup_nth_error (map fst d)) N).
  - rewrite length_map. apply nth_error_Some. congruence.
  - rewrite !nth_error_map, Hi, Hj. cbn. congruence.
Qed.

(** X16.  In the second loop of [calculateNatalAspects] the angle of
    index [i] is only matched against the bodies that come after the
    first [i + 1] of the chart: with the ascendant first and the
    midheaven second, no aspect of the ascendant to the first body of
    the chart is ever listed, and none of the midheaven to the first
    two. *)
Theorem calculateNatalAspects_angles_skip_first_bodies :
  forall (positions angles : dict Position) (a : AstroUtils.NatalAspect)
         (i : nat) (ang : string * Position),
    NoDup (map fst positions) -> NoDup (map fst angles) ->
    (forall k, In k (map fst angles) -> ~ In k (map fst positions)) ->
    In a (AstrologicalCalculator.calculateNatalAspects positions angles) ->
    nth_error angles i = Some ang ->
    AstroUtils.planet1 a = fst ang ->
    ~ In (AstroUtils.planet2 a) (map fst (firstn (i + 1) positions)).
Proof.
  intros positions angles a i ang Np Na Disj H Hi P1.
  apply calculateNatalAspects_inv in H.
  destruct H as (p & q & Ha & Hq & Where).
  apply natalAspectOf_inv in Ha. destruct Ha as (x & found & _ & _ & _ & ->).
  cbn [AstroUtils.planet1 AstroUtils.planet2] in *.
  assert (AngKey : In (fst ang) (map fst angles)).
  { apply in_map. apply nth_error_In in Hi. exact Hi. }
  destruct Where as [Hp|(j & Hj & Hskip)].
  - exfalso. apply (Disj (fst ang) AngKey). rewrite <- P1.
    apply in_map. exact Hp.
  - assert (j = i) by (apply (nth_error_key_unique angles Na j i p ang);
                       assumption).
    subst j.
    rewrite <- (firstn_skipn (i + 1) positions), map_app in Np.
    intros C. apply in_map_iff in C. destruct C as (q' & E & Hq').
    apply (in_map fst) in Hq'. apply (in_map fst) in Hskip.
    rewrite E in Hq'.
    revert Np Hq' Hskip. generalize (map fst (firstn (i + 1) positions)).
    generalize (map fst (skipn (i + 1) positions)). intros l2 l1 Np H1 H2.
    induction l1 as [|k l1 IH]; [contradiction|].
    cbn [app] in Np. inversion Np as [|? ? Hn Np']; subst.
    destruct H1 as [->|H1]; [|apply IH; assumption].
    apply Hn. apply in_or_app. right. exact H2.
Qed.

Lemma calculateNatalAspects_angles_skip_first_bodies_witness :
  Forall
    (fun a => AstroUtils.planet1 a = "AS"%string ->
              ~ In (AstroUtils.planet2 a) ["Sun"%string])
    (AstrologicalCalculator.calculateNatalAspects threeBodies
       [("AS"%string, at_ (Fin 2) NaN)]).
Proof.
  apply Forall_forall. intros a Ha P1.
  apply (calculateNatalAspects_angles_skip_first_bodies threeBodies
           [("AS"%string, at_ (Fin 2) NaN)] a 0
           ("AS"%string, at_ (Fin 2) NaN)).
  - cbn. repeat (constructor; [cbn; intuition discriminate|]). constructor.
  - cbn. repeat (constructor; [cbn; intuition discriminate|]). constructor.
  - intros k [<-|[]]. cbn. intuition discriminate.
  - exact Ha.
  - reflexivity.
  - exact P1.
Defined.

(** ** The filter of astroUtils *)

Lemma signDiffers_false (s1 s2 : option zodiac) :
  AstroUtils.signDiffers s1 s2 = false <-> s1 = s2.
Proof.
  destruct s1 as [a|], s2 as [b|]; cbn; split; intros H;
    try reflexivity; try discriminate.
  - apply negb_false_iff in H. destruct a, b; try discriminate; reflexivity.
  - inversion H; subst. destruct b; reflexivity.
Qed.

Lemma truthy_iff (s : string) : AstroUtils.truthy s = true <-> s <> ""%string.
Proof.
  destruct s; cbn; split; intros H; try reflexivity; try discriminate;
    congruence.
Qed.

Lemma keeps_true (positions : dict Position) (a : AstroUtils.NatalAspect) :
  AstroUtils.keeps positions a = Some true
  <-> exists p1 p2,
        lookup (AstroUtils.planet1 a) positions = Some p1
        /\ lookup (AstroUtils.planet2 a) positions = Some p2
        /\ compatible (sign p1) (sign p2) a.
Proof.
  unfold AstroUtils.keeps, compatible. cbn zeta.
  destruct (lookup (AstroUtils.planet1 a) positions) as [p1|];
    [|split; [discriminate|intros (? & ? & H & _); discriminate H]].
  destruct (lookup (AstroUtils.planet2 a) positions) as [p2|];
    [|split; [discriminate|intros (? & ? & _ & H & _); discriminate H]].
  set (name := AstroUtils.toLowerCase (AstroUtils.aspect a)).
  split.
  - intros H. exists p1, p2. split; [reflexivity|]. split; [reflexivity|].
    destruct (String.eqb (AstroUtils.planet1 a) "NNode"
              && String.eqb name "opposition") eqn:C1; [discriminate|].
    destruct (String.eqb name "square"
              && AstroUtils.isCompatibleByElement (sign p1) (sign p2)) eqn:C2;
      [discriminate|].
    destruct (String.eqb name "trine"
              && negb (AstroUtils.isCompatibleByElement (sign p1) (sign p2)))
      eqn:C3; [discriminate|].
    destruct (String.eqb name "sextile"
              && negb (AstroUtils.isCompatibleByPolarity (sign p1) (sign p2)))
      eqn:C4; [discriminate|].
    destruct (String.eqb name "conjunction"
              && AstroUtils.signDiffers (sign p1) (sign p2)) eqn:C5;
      [discriminate|].
    injection H as T. apply andb_true_iff in T. destruct T as [T1 T2].
    apply truthy_iff in T1. apply truthy_iff in T2.
    apply andb_false_iff in C1, C2, C3, C4, C5.
    split; [exact T1|]. split; [exact T2|].
    split; [|split; [|split; [|split]]].
    + intros [N O]. destruct C1 as [C1|C1]; apply String.eqb_neq in C1;
        congruence.
    + intros E. destruct C2 as [C2|C2]; [|assumption].
      apply String.eqb_neq in C2. congruence.
    + intros E. destruct C3 as [C3|C3];
        [apply String.eqb_neq in C3; congruence|].
      apply negb_false_iff in C3. exact C3.
    + intros E. destruct C4 as [C4|C4];
        [apply String.eqb_neq in C4; congruence|].
      apply negb_false_iff in C4. exact C4.
    + intros E. destruct C5 as [C5|C5];
        [apply String.eqb_neq in C5; congruence|].
      apply signDiffers_false. exact C5.
  - intros (q1 & q2 & E1 & E2 & T1 & T2 & N & Sq & Tr & Sx & Cj).
    inversion E1; inversion E2; subst q1 q2.
    assert (C1 : String.eqb (AstroUtils.planet1 a) "NNode"
                 && String.eqb name "opposition" = false).
    { apply andb_false_iff.
      destruct (String.eqb (AstroUtils.planet1 a) "NNode") eqn:A;
        [|left; reflexivity].
      destruct (String.eqb name "opposition") eqn:B; [|right; reflexivity].
      apply String.eqb_eq in A, B. exfalso. apply N. split; assumption. }
    rewrite C1.
    assert (C2 : String.eqb name "square"
                 && AstroUtils.isCompatibleByElement (sign p1) (sign p2)
                 = false).
    { destruct (String.eqb name "square") eqn:A; [|reflexivity].
      apply String.eqb_eq in A. rewrite (Sq A). reflexivity. }
    rewrite C2.
    assert (C3 : String.eqb name "trine"
                 && negb (AstroUtils.isCompatibleByElement (sign p1) (sign p2))
                 = false).
    { destruct (String.eqb name "trine") eqn:A; [|reflexivity].
      apply String.eqb_eq in A. rewrite (Tr A). reflexivity. }
    rewrite C3.
    assert (C4 : String.eqb name "sextile"
                 && negb (AstroUtils.isCompatibleByPolarity (sign p1) (sign p2))
                 = false).
    { destruct (String.eqb name "sextile") eqn:A; [|reflexivity].
      apply String.eqb_eq in A. rewrite (Sx A). reflexivity. }
    rewrite C4.
    assert (C5 : String.eqb name "conjunction"
                 && AstroUtils.signDiffers (sign p1) (sign p2) = false).
    { destruct (String.eqb name "conjunction") eqn:A; [|reflexivity].
      apply String.eqb_eq in A.
      rewrite (proj2 (signDiffers_false _ _) (Cj A)). reflexivity. }
    rewrite C5.
    apply truthy_iff in T1. apply truthy_iff in T2. rewrite T1, T2.
    reflexivity.
Qed.

Lemma keeps_None (positions : dict Position) (a : AstroUtils.NatalAspect) :
  AstroUtils.keeps positions a = None <-> ~ located positions a.
Proof.
  unfold AstroUtils.keeps, located.
  destruct (lookup (AstroUtils.planet1 a) positions) as [p1|];
    [|split; [intros _ [[p H] _]; discriminate H|reflexivity]].
  destruct (lookup (AstroUtils.planet2 a) positions) as [p2|];
    [|split; [intros _ [_ [p H]]; discriminate H|reflexivity]].
  split.
  - repeat match goal with
      | |- context [if ?c then _ else _] => destruct c
      end; discriminate.
  - intros H. exfalso. apply H. split; eexists; reflexivity.
Qed.

Lemma keeps_Some_located (positions : dict Position)
    (a : AstroUtils.NatalAspect) (keep : bool) :
  AstroUtils.keeps positions a = Some keep -> located positions a.
Proof.
  intros K. unfold AstroUtils.keeps, located in *.
  destruct (lookup (AstroUtils.planet1 a) positions) as [p1|]; [|discriminate].
  destruct (lookup (AstroUtils.planet2 a) positions) as [p2|]; [|discriminate].
  split; eexists; reflexivity.
Qed.

Lemma filterAspects_filter (positions : dict Position) :
  forall l r,
    AstroUtils.filterAspects l positions = Some r ->
    Forall (located positions) l /\ r = filter (kept positions) l.
Proof.
  induction l as [|a l IH]; intros r H.
  - inversion H. split; [constructor|reflexivity].
  - cbn [AstroUtils.filterAspects] in H.
    destruct (AstroUtils.keeps positions a) as [keep|] eqn:K; [|discriminate].
    destruct (AstroUtils.filterAspects l positions) as [r'|]; [|discriminate].
    destruct (IH r' eq_refl) as [F ->]. inversion H; subst. split.
    + constructor; [|exact F]. exact (keeps_Some_located _ _ _ K).
    + assert (KK : kept positions a = keep)
        by (unfold kept; rewrite K; destruct keep; reflexivity).
      cbn [filter]. rewrite KK. destruct keep; reflexivity.
Qed.

Lemma filterAspects_located (positions : dict Position) :
  forall l,
    Forall (located positions) l ->
    AstroUtils.filterAspects l positions = Some (filter (kept positions) l).
Proof.
  induction l as [|a l IH]; intros F; [reflexivity|].
  inversion F as [|? ? La Fl]; subst.
  cbn [AstroUtils.filterAspects filter]. rewrite (IH Fl).
  destruct (AstroUtils.keeps positions a) as [keep|] eqn:K.
  - assert (KK : kept positions a = keep)
      by (unfold kept; rewrite K; destruct keep; reflexivity).
    rewrite KK. destruct keep; reflexivity.
  - apply keeps_None in K. contradiction.
Qed.

Lemma filterAspects_None (positions : dict Position) :
  forall l,
    AstroUtils.filterAspects l positions = None
    <-> exists a, In a l /\ ~ located positions a.
Proof.
  induction l as [|a l IH].
  - split; [discriminate|intros (a & [] & _)].
  - cbn [AstroUtils.filterAspects].
    destruct (AstroUtils.keeps positions a) as [keep|] eqn:K.
    + destruct (AstroUtils.filterAspects l positions) as [r|].
      * split; [discriminate|]. intros (b & [<-|I] & N).
        -- exfalso. apply N. exact (keeps_Some_located _ _ _ K).
        -- assert (H : Some r = None)
             by (apply (proj2 IH); exists b; auto).
           discriminate H.
      * split; [|reflexivity]. intros _.
        destruct (proj1 IH eq_refl) as (b & I & N). exists b.
        split; [right; exact I|exact N].
    + split; [|reflexivity]. intros _. exists a.
      split; [left; reflexivity|]. apply keeps_None. exact K.
Qed.

(** X17.  For aspects between bodies whose names are not among those
    every object inherits: [filterAspects] raises a TypeError exactly
    when some aspect of the input names a body that has no position.
    Otherwise it returns, in the order of the input, exactly the
    aspects that pass its tests: both names are present, the aspect is
    no opposition starting at the north node, a square joins signs of
    different elements, a trine signs of one element, a sextile signs
    of one polarity and a conjunction two bodies in one sign; filtering
    the result again changes nothing. *)
Theorem filterAspects_kept_aspects (positions : dict Position)
    (l : list AstroUtils.NatalAspect) :
  Forall plainNames l ->
  (AstroUtils.filterAspects l positions = None
   <-> exists a, In a l /\ ~ located positions a)
  /\ forall r,
       AstroUtils.filterAspects l positions = Some r ->
       (forall a,
          In a r
          <-> In a l
              /\ exists p1 p2,
                   lookup (AstroUtils.planet1 a) positions = Some p1
                   /\ lookup (AstroUtils.planet2 a) positions = Some p2
                   /\ compatible (sign p1) (sign p2) a)
       /\ (exists keep, r = filter keep l)
       /\ AstroUtils.filterAspects r positions = Some r.
Proof.
  intros _.
  split; [apply filterAspects_None|].
  intros r H. destruct (filterAspects_filter _ _ _ H) as [F ->].
  split; [|split].
  - intros a. rewrite filter_In. unfold kept.
    rewrite <- keeps_true.
    destruct (AstroUtils.keeps positions a) as [[|]|];
      split; intros [I E]; split; try assumption; try reflexivity;
      discriminate.
  - exists (kept positions). reflexivity.
  - rewrite filterAspects_located.
    + f_equal. clear. induction l as [|a l IH]; [reflexivity|].
      cbn [filter]. destruct (kept positions a) eqn:K.
      * cbn [filter]. rewrite K, IH. reflexivity.
      * exact IH.
    + apply Forall_forall. intros a I. apply filter_In in I.
      rewrite Forall_forall in F. apply F. tauto.
Qed.

Lemma filterAspects_kept_aspects_witness :
  AstroUtils.filterAspects [squareOfLights] sunMoonAcrossSigns
  = Some [squareOfLights].
Proof.
  destruct (filterAspects_kept_aspects sunMoonAcrossSigns
              [squareOfLights; conjunctionOfLights]) as [_ Kept].
  - repeat constructor; cbn; intuition discriminate.
  - destruct (Kept [squareOfLights]) as (_ & _ & Again).
    + vm_compute. reflexivity.
    + exact Again.
Defined.

(** ** The data handed to the chart renderer *)

Lemma includes_In (l : list string) (s : string) :
  includes l s = true <-> In s l.
Proof.
  unfold includes. induction l as [|x l IH]; cbn; [split; [discriminate|tauto]|].
  rewrite orb_true_iff, IH.
  split; intros [H|H]; auto; left.
  - apply String.eqb_eq in H. congruence.
  - apply String.eqb_eq. congruence.
Qed.

Lemma filterPlanets_fold (planetsData : dict Position) :
  forall keys acc,
    NoDup keys ->
    (forall k, In k keys -> ~ In k (map fst acc)) ->
    fold_left
      (fun planets planetName =>
         match lookup planetName planetsData with
         | Some p => assign planetName p planets
         | None => planets
         end)
      keys acc
    = acc ++ flat_map (copied planetsData) keys.
Proof.
  induction keys as [|k keys IH]; intros acc N F; cbn [fold_left flat_map].
  - rewrite app_nil_r. reflexivity.
  - inversion N as [|? ? Nk N']; subst. unfold copied at 1.
    destruct (lookup k planetsData) as [p|].
    + rewrite assign_fresh by (apply F; left; reflexivity).
      rewrite IH; [rewrite <- app_assoc; reflexivity|exact N'|].
      intros k' I. rewrite map_app, in_app_iff. cbn.
      intros [H|[H|[]]]; [exact (F k' (or_intror I) H)|congruence].
    + apply IH; [exact N'|]. intros k' I. apply F. right. exact I.
Qed.

Lemma filterPlanets_closed_form (planetsData : dict Position)
    (keys : list string) :
  NoDup keys ->
  AstroUtils.filterPlanets planetsData keys
  = flat_map (copied planetsData) keys.
Proof.
  intros N. unfold AstroUtils.filterPlanets.
  rewrite filterPlanets_fold; [reflexivity|exact N|].
  intros k _ [].
Qed.

Lemma copied_keys (planetsData : dict Position) (keys : list string) :
  map fst (flat_map (copied planetsData) keys)
  = filter (hasKey planetsData) keys.
Proof.
  induction keys as [|k keys IH]; [reflexivity|].
  cbn [flat_map filter]. rewrite map_app, IH. unfold copied, hasKey.
  destruct (lookup k planetsData); reflexivity.
Qed.

Lemma planetsToFilter_NoDup : NoDup AstroUtils.planetsToFilter.
Proof.
  unfold AstroUtils.planetsToFilter.
  repeat (constructor; [cbn; intuition discriminate|]). constructor.
Qed.

(** X18.  The planets handed to the renderer are the bodies of the list
    of sixteen names that the chart holds, in the order of that list
    whatever the order of the chart; each comes with an array holding
    its longitude alone.  A body outside the list is dropped. *)
Theorem toAstrochart_planets :
  forall (planets : dict Position) (houses : list House)
         (aspects : list AstroUtils.NatalAspect),
    let out := AstroUtils.toAstrochart planets houses aspects in
    map fst (AstroUtils.outPlanets out)
    = filter (hasKey planets) AstroUtils.planetsToFilter
    /\ forall k v,
         lookup k (AstroUtils.outPlanets out) = Some v
         <-> In k AstroUtils.planetsToFilter
             /\ exists p, lookup k planets = Some p /\ v = [longitude p].
Proof.
  intros planets houses aspects out.
  assert (E : AstroUtils.outPlanets out
              = map (fun kv => (fst kv, [longitude (snd kv)]))
                  (flat_map (copied planets) AstroUtils.planetsToFilter)).
  { unfold out, AstroUtils.toAstrochart. cbn [AstroUtils.outPlanets].
    rewrite (filterPlanets_closed_form _ _ planetsToFilter_NoDup).
    reflexivity. }
  assert (K : map fst (AstroUtils.outPlanets out)
              = filter (hasKey planets) AstroUtils.planetsToFilter).
  { rewrite E, map_map. cbn [fst]. apply copied_keys. }
  split; [exact K|].
  intros k v. split.
  - intros L. apply lookup_In in L. rewrite E in L.
    apply in_map_iff in L. destruct L as ([k' p] & Eq & I).
    cbn [fst snd] in Eq. inversion Eq; subst.
    apply in_flat_map in I. destruct I as (k0 & I0 & I).
    unfold copied in I. destruct (lookup k0 planets) as [p0|] eqn:L0;
      [|destruct I].
    destruct I as [I|[]]. inversion I; subst.
    split; [exact I0|]. exists p. split; [exact L0|reflexivity].
  - intros (I & p & L & ->). apply In_lookup.
    + rewrite K. apply NoDup_filter. exact planetsToFilter_NoDup.
    + rewrite E. apply in_map_iff. exists (k, p). split; [reflexivity|].
      apply in_flat_map. exists k. split; [exact I|].
      unfold copied. rewrite L. left. reflexivity.
Qed.

Lemma colorOf_values (aspectName : string) :
  In (AstroUtils.colorOf aspectName) [red; blue; ""%string].
Proof.
  unfold AstroUtils.colorOf.
  destruct (String.eqb aspectName "opposition" || String.eqb aspectName "square");
    [left; reflexivity|].
  destruct (String.eqb aspectName "sextile"); [right; left; reflexivity|].
  destruct (String.eqb aspectName "trine"); [right; left; reflexivity|].
  right; right; left; reflexivity.
Qed.

Lemma processAspect_inv (planets : dict Position) (a : AstroUtils.NatalAspect)
    (line : AstroUtils.ChartAspect) :
  In line (AstroUtils.processAspect planets a) ->
  line = AstroUtils.mkChartAspect (AstroUtils.planet1 a)
           (AstroUtils.getPlanetPosition planets (AstroUtils.planet1 a))
           (AstroUtils.planet2 a)
           (AstroUtils.getPlanetPosition planets (AstroUtils.planet2 a))
           (AstroUtils.toLowerCase (AstroUtils.aspect a))
           (AstroUtils.angle a) (AstroUtils.colorOf (AstroUtils.aspect a))
           (AstroUtils.orb a)
  /\ AstroUtils.toLowerCase (AstroUtils.aspect a) <> "conjunction"%string
  /\ ~ ((AstroUtils.planet1 a = "NNode"%string
         \/ AstroUtils.planet2 a = "NNode"%string)
        /\ AstroUtils.toLowerCase (AstroUtils.aspect a) = "opposition"%string).
Proof.
  unfold AstroUtils.processAspect. cbn zeta.
  destruct ((String.eqb (AstroUtils.planet1 a) "NNode"
             || String.eqb (AstroUtils.planet2 a) "NNode")
            && String.eqb (AstroUtils.toLowerCase (AstroUtils.aspect a))
                 "opposition") eqn:C1; [intros []|].
  destruct (String.eqb (AstroUtils.toLowerCase (AstroUtils.aspect a))
              "conjunction") eqn:C2; [intros []|].
  destruct (AstroUtils.truthy (AstroUtils.planet1 a)
            && AstroUtils.truthy (AstroUtils.planet2 a)); [|intros []].
  intros [<-|[]]. split; [reflexivity|]. split.
  - apply String.eqb_neq. exact C2.
  - intros [N O]. apply andb_false_iff in C1. destruct C1 as [C1|C1].
    + apply orb_false_iff in C1. destruct C1 as [A B].
      apply String.eqb_neq in A, B. tauto.
    + apply String.eqb_neq in C1. tauto.
Qed.

(** X19.  Every line handed to the renderer joins two of the fourteen
    bodies of the aspect list, so never the ascendant or the midheaven;
    it comes from an aspect of the input, whose angle and orb it keeps,
    with the positions read from the chart.  No line is a conjunction
    and none an opposition that involves the north node.  The colour is
    red, blue or empty: a sextile is drawn in the blue of the trine, its
    own colour being overwritten before use. *)
Theorem toAstrochart_aspects :
  forall (planets : dict Position) (houses : list House)
         (aspects : list AstroUtils.NatalAspect)
         (line : AstroUtils.ChartAspect),
    In line
      (AstroUtils.outAspects (AstroUtils.toAstrochart planets houses aspects)) ->
    In (AstroUtils.pointName line) AstroUtils.anglesToFilter
    /\ In (AstroUtils.toPointName line) AstroUtils.anglesToFilter
    /\ AstroUtils.lineName line <> "conjunction"%string
    /\ ~ ((AstroUtils.pointName line = "NNode"%string
           \/ AstroUtils.toPointName line = "NNode"%string)
          /\ AstroUtils.lineName line = "opposition"%string)
    /\ In (AstroUtils.lineColor line) [red; blue; ""%string]
    /\ AstroUtils.pointPosition line
       = AstroUtils.getPlanetPosition planets (AstroUtils.pointName line)
    /\ AstroUtils.toPointPosition line
       = AstroUtils.getPlanetPosition planets (AstroUtils.toPointName line)
    /\ exists a,
         In a aspects
         /\ AstroUtils.pointName line = AstroUtils.planet1 a
         /\ AstroUtils.toPointName line = AstroUtils.planet2 a
         /\ AstroUtils.lineName line
            = AstroUtils.toLowerCase (AstroUtils.aspect a)
         /\ AstroUtils.lineDegree line = AstroUtils.angle a
         /\ AstroUtils.lineOrbit line = AstroUtils.orb a
         /\ (AstroUtils.aspect a = "sextile"%string
             \/ AstroUtils.aspect a = "trine"%string ->
             AstroUtils.lineColor line = blue)
         /\ (AstroUtils.aspect a = "square"%string
             \/ AstroUtils.aspect a = "opposition"%string ->
             AstroUtils.lineColor line = red).
Proof.
  intros planets houses aspects line H.
  unfold AstroUtils.toAstrochart in H. cbn [AstroUtils.outAspects] in H.
  assert (I : In line
                (AstroUtils.processAspects
                   (AstroUtils.filterAspectsByPlanets aspects
                      AstroUtils.anglesToFilter) planets))
    by (destruct aspects; [destruct H|exact H]).
  clear H. unfold AstroUtils.processAspects in I.
  apply in_flat_map in I. destruct I as (a & Ia & I).
  unfold AstroUtils.filterAspectsByPlanets in Ia.
  apply filter_In in Ia. destruct Ia as [Ia B].
  apply andb_true_iff in B. destruct B as [B1 B2].
  apply includes_In in B1, B2.
  destruct (processAspect_inv _ _ _ I) as (-> & NC & NO).
  cbn [AstroUtils.pointName AstroUtils.toPointName AstroUtils.lineName
       AstroUtils.lineColor AstroUtils.pointPosition
       AstroUtils.toPointPosition AstroUtils.lineDegree AstroUtils.lineOrbit].
  repeat (split; [first [assumption|reflexivity|apply colorOf_values]|]).
  exists a.
  repeat (split; [first [assumption|reflexivity]|]).
  split; intros [E|E]; rewrite E; reflexivity.
Qed.

Lemma toAstrochart_aspects_witness :
  In (AstroUtils.lineColor
        (AstroUtils.mkChartAspect "Sun" (Some (Fin 29)) "Moon" (Some (Fin 31))
           "square" 90 red (Fin 2)))
    [red; blue; ""%string].
Proof.
  refine (proj1 (proj2 (proj2 (proj2 (proj2
            (toAstrochart_aspects sunMoonAcrossSigns []
               [squareOfLights; conjunctionOfLights]
               (AstroUtils.mkChartAspect "Sun" (Some (Fin 29)) "Moon"
                  (Some (Fin 31)) "square" 90 red (Fin 2)) _)))))).
  vm_compute. left. reflexivity.
Defined.

(** ** The aspect stage of a chart *)

Lemma lookup_spread {A : Type} (k : string) :
  forall (b a : dict A),
    NoDup (map fst b) ->
    lookup k (spread a b)
    = match lookup k b with Some v => Some v | None => lookup k a end.
Proof.
  unfold spread.
  induction b as [|[k' v'] b IH]; intros a N; cbn [fold_left lookup fst snd];
    [reflexivity|].
  inversion N as [|? ? Nk N']; subst. rewrite (IH _ N').
  destruct (String.eqb k k') eqn:E.
  - apply String.eqb_eq in E. subst k'.
    apply lookup_None in Nk. rewrite Nk. apply lookup_assign_same.
  - apply String.eqb_neq in E.
    rewrite lookup_assign_other by congruence. reflexivity.
Qed.

Lemma In_key_lookup {A : Type} (d : dict A) (p : string * A) :
  In p d -> exists v, lookup (fst p) d = Some v.
Proof.
  intros I. destruct (lookup (fst p) d) as [v|] eqn:L; [exists v; reflexivity|].
  apply lookup_None in L. exfalso. apply L. apply in_map. exact I.
Qed.

Lemma spread_has_keys (positions angs : dict Position) (p : string * Position) :
  NoDup (map fst angs) ->
  In p positions \/ In p angs ->
  exists v, lookup (fst p) (spread positions angs) = Some v.
Proof.
  intros N H. rewrite (lookup_spread _ _ _ N).
  destruct (lookup (fst p) angs) as [v|] eqn:L; [exists v; reflexivity|].
  destruct H as [H|H]; [exact (In_key_lookup _ _ H)|].
  destruct (In_key_lookup _ _ H) as [v E]. congruence.
Qed.

Lemma calculateNatalAspects_located (positions angs : dict Position) :
  NoDup (map fst angs) ->
  Forall (located (spread positions angs))
    (AstrologicalCalculator.calculateNatalAspects positions angs).
Proof.
  intros N. apply Forall_forall. intros a Ha.
  destruct (calculateNatalAspects_inv _ _ _ Ha) as (p & q & Hpq & Hq & Hp).
  destruct (natalAspectOf_inv _ _ _ Hpq) as (ang & found & _ & _ & _ & ->).
  unfold located. cbn [AstroUtils.planet1 AstroUtils.planet2]. split.
  - apply spread_has_keys; [exact N|].
    destruct Hp as [Hp|(j & Hj & _)]; [left; exact Hp|].
    right. exact (nth_error_In _ _ Hj).
  - apply spread_has_keys; [exact N|]. left. exact Hq.
Qed.

Lemma aspectStage_succeeds (flag : bool) (positions angs : dict Position) :
  NoDup (map fst angs) ->
  AstrologicalCalculator.aspectStage flag positions angs
  = Some (filter (kept (spread positions angs))
            (AstrologicalCalculator.calculateNatalAspects positions angs)).
Proof.
  intros N. unfold AstrologicalCalculator.aspectStage,
    AstrologicalCalculator.callFilterAspects.
  apply filterAspects_located. apply calculateNatalAspects_located. exact N.
Qed.

Lemma kept_compatible (positions : dict Position) (a : AstroUtils.NatalAspect) :
  kept positions a = true ->
  exists p1 p2,
    lookup (AstroUtils.planet1 a) positions = Some p1
    /\ lookup (AstroUtils.planet2 a) positions = Some p2
    /\ compatible (sign p1) (sign p2) a.
Proof.
  intros K. apply keeps_true. unfold kept in K.
  destruct (AstroUtils.keeps positions a) as [[|]|];
    [reflexivity|discriminate|discriminate].
Qed.

Lemma onlyAngles_keys (angs asmc : dict Position) :
  AstrologicalCalculator.onlyAngles angs = Some asmc ->
  map fst asmc = ["AS"; "MC"]%string.
Proof.
  unfold AstrologicalCalculator.onlyAngles.
  destruct (lookup "AS" angs); [|discriminate].
  destruct (lookup "MC" angs); [|discriminate].
  intros H. inversion H. reflexivity.
Qed.

Lemma asmc_NoDup : NoDup ["AS"; "MC"]%string.
Proof.
  repeat (constructor; [cbn; intuition discriminate|]). constructor.
Qed.

Lemma addHouse_keys (positions : dict Position) (hs : list House) :
  map fst (AstrologicalCalculator.addHouse positions hs) = map fst positions.
Proof.
  unfold AstrologicalCalculator.addHouse. rewrite map_map. reflexivity.
Qed.

Lemma Some_injective {A : Type} (x y : A) : Some x = Some y -> x = y.
Proof. intros H. congruence. Qed.

Lemma determinePlanetHouse_bounds (lon : num) (hs : list House) :
  (1 <= AstrologicalCalculator.determinePlanetHouse lon hs)%nat
  /\ (AstrologicalCalculator.determinePlanetHouse lon hs <= 12)%nat.
Proof.
  unfold AstrologicalCalculator.determinePlanetHouse.
  destruct (TransitCalculator.houseLoop _ _ 0 12) as [i|] eqn:E.
  - apply houseLoop_index in E. lia.
  - lia.
Qed.

(** X20.  [generateChart] fails exactly when the houses cannot be
    computed: the filter of the aspects never raises its TypeError,
    every body of an aspect found having a position in the chart.  In
    the chart returned every aspect joins two bodies of the chart and
    passes the tests of the filter on their signs, and the ascendant
    and the midheaven are listed among the planets with a house from 1
    to 12, as the same objects as under the angles. *)
Theorem generateChart_fails_only_without_houses :
  forall (swe_calc_ut : num -> AstrologicalCalculator.body -> CalcResult)
         (swe_houses : num -> num -> num -> string ->
                       option AstrologicalCalculator.HousesResult)
         (dateToJulianDay : Date -> num) (houseSystem : string)
         (considerAspectsCompatibility : bool)
         (date : Date) (latitude geoLongitude : num),
    let chart :=
      AstrologicalCalculator.generateChart swe_calc_ut swe_houses
        dateToJulianDay houseSystem considerAspectsCompatibility
        date latitude geoLongitude in
    (chart = None
     <-> swe_houses (dateToJulianDay date) latitude geoLongitude houseSystem
         = None)
    /\ forall c, chart = Some c ->
         (forall a, In a (AstrologicalCalculator.chartAspects c) ->
            exists p1 p2,
              lookup (AstroUtils.planet1 a)
                (AstrologicalCalculator.chartPlanets c) = Some p1
              /\ lookup (AstroUtils.planet2 a)
                   (AstrologicalCalculator.chartPlanets c) = Some p2
              /\ compatible (sign p1) (sign p2) a)
         /\ (forall k, In k ["AS"; "MC"]%string ->
               exists p h,
                 lookup k (AstrologicalCalculator.chartPlanets c) = Some p
                 /\ lookup k (AstrologicalCalculator.chartAngles c) = Some p
                 /\ house p = Some h /\ (1 <= h <= 12)%nat).
Proof.
  intros swe_calc_ut swe_houses dateToJulianDay houseSystem flag date
    latitude geoLongitude chart.
  unfold chart, AstrologicalCalculator.generateChart,
    AstrologicalCalculator.calculateHouses.
  destruct (swe_houses (dateToJulianDay date) latitude geoLongitude houseSystem)
    as [r|]; [|split; [tauto|discriminate]].
  cbn [AstrologicalCalculator.houses AstrologicalCalculator.angles].
  set (hs := map _ (combine _ _)).
  set (angs := [_; _; _; _]).
  set (positions :=
         AstrologicalCalculator.calculatePlanetaryPositions swe_calc_ut
           (dateToJulianDay date) (Some hs)).
  change (AstrologicalCalculator.onlyAngles angs)
    with (Some [("AS"%string,
                 AstrologicalCalculator.anglePosition
                   (AstrologicalCalculator.ascendant r));
                ("MC"%string,
                 AstrologicalCalculator.anglePosition
                   (AstrologicalCalculator.mc r))]).
  cbv iota beta.
  set (asmc := AstrologicalCalculator.addHouse _ hs).
  assert (N : NoDup (map fst asmc)) by exact asmc_NoDup.
  rewrite (aspectStage_succeeds flag positions asmc N).
  split; [split; discriminate|].
  intros c E. apply Some_injective in E. subst c.
  unfold AstrologicalCalculator.chartAspects,
    AstrologicalCalculator.chartPlanets, AstrologicalCalculator.chartAngles.
  split.
  - intros a Ia. apply filter_In in Ia. apply kept_compatible. tauto.
  - intros k Ik. rewrite !(lookup_spread _ _ _ N).
    clearbody positions hs.
    destruct Ik as [<-|[<-|[]]];
      (eexists; eexists; split; [reflexivity|]; split; [reflexivity|];
       split; [reflexivity|]; apply determinePlanetHouse_bounds).
Qed.

Lemma generateChart_fails_only_without_houses_witness :
  chartOfTwoLights true <> None.
Proof.
  intros H.
  apply (proj1 (generateChart_fails_only_without_houses twoLights equalCusps
                  (fun _ => Fin 2451545) "P" true (Instant 0) (Fin 45)
                  (Fin 25))) in H.
  discriminate H.
Defined.

(** ** The south node *)

(** X21.  For a north node at a longitude from 0 to 360 (the bounds
    included, as rounding to three decimals can give 360), the south
    node lies in [0, 360), at 180 degrees from it to within a billionth
    of a degree, with the speed of the north node. *)
Theorem calculateSouthNode_opposite :
  forall (nnode : Position) (x : Q),
    longitude nnode = Fin x -> 0 <= x -> x <= 360 ->
    exists y a,
      longitude (AstrologicalCalculator.calculateSouthNode nnode) = Fin y
      /\ 0 <= y /\ y < 360
      /\ calculateAngleBetweenPlanets (Fin x) (Fin y) = Fin a
      /\ 180 - rounding <= a /\ a <= 180
      /\ longitudeSpeed (AstrologicalCalculator.calculateSouthNode nnode)
         = longitudeSpeed nnode.
Proof.
  intros nnode x L H0 H1.
  unfold AstrologicalCalculator.calculateSouthNode.
  cbn [longitude longitudeSpeed]. rewrite L.
  change (add (Fin x) (Fin 180)) with (Fin (x + 180)).
  assert (N360 : ~ 360 == 0) by (intro H; discriminate H).
  rewrite (rem_finite _ 360 N360).
  destruct (remQ_nonneg (x + 180) 360 ltac:(reflexivity) ltac:(lra)) as [Y0 Y1].
  exists (remQ (x + 180) 360), (angleQ x (remQ (x + 180) 360)).
  rewrite angle_finite.
  repeat (split; [first [reflexivity|assumption]|]).
  assert (E : angleQ x (remQ (x + 180) 360) == 180).
  { unfold remQ in *. set (k := trunc ((x + 180) / 360)) in *.
    assert (K : (k = 0 \/ k = 1)%Z).
    { assert (A : inject_Z (-1) < inject_Z k).
      { change (inject_Z (-1)) with (-1). lra. }
      assert (B : inject_Z k < inject_Z 2).
      { change (inject_Z 2) with 2. lra. }
      rewrite <- Zlt_Qlt in A, B. lia. }
    unfold angleQ.
    destruct K as [-> | ->].
    - change (inject_Z 0) with 0.
      assert (E : Qabs (x - (x + 180 - 360 * 0)) == 180).
      { setoid_replace (x - (x + 180 - 360 * 0)) with (- (180)) by ring.
        reflexivity. }
      destruct (Qltb 180 (Qabs (x - (x + 180 - 360 * 0)))) eqn:T.
      + apply Qltb_lt in T. rewrite E in T. discriminate T.
      + exact E.
    - change (inject_Z 1) with 1.
      assert (E : Qabs (x - (x + 180 - 360 * 1)) == 180).
      { setoid_replace (x - (x + 180 - 360 * 1)) with 180 by ring.
        reflexivity. }
      destruct (Qltb 180 (Qabs (x - (x + 180 - 360 * 1)))) eqn:T.
      + apply Qltb_lt in T. rewrite E in T. discriminate T.
      + exact E. }
  unfold rounding. split; [lra|]. split; [lra|reflexivity].
Qed.

Lemma calculateSouthNode_opposite_witness :
  exists y a,
    longitude (AstrologicalCalculator.calculateSouthNode (at_ (Fin 360) (Fin 0)))
    = Fin y
    /\ 0 <= y /\ y < 360
    /\ calculateAngleBetweenPlanets (Fin 360) (Fin y) = Fin a
    /\ 180 - rounding <= a /\ a <= 180
    /\ longitudeSpeed
         (AstrologicalCalculator.calculateSouthNode (at_ (Fin 360) (Fin 0)))
       = longitudeSpeed (at_ (Fin 360) (Fin 0)).
Proof.
  apply (calculateSouthNode_opposite (at_ (Fin 360) (Fin 0)) 360).
  - reflexivity.
  - vm_compute. discriminate.
  - vm_compute. discriminate.
Defined.

(** ** The aspects between two charts *)

Lemma crossAspectOf_inv (index1 index2 : string) (isTransit : bool)
    (transitDate : Date) (t n : string * Position)
    (c : AstrologicalCalculator.CrossAspect) :
  In c (AstrologicalCalculator.crossAspectOf index1 index2 isTransit
          transitDate t n) ->
  exists x y d,
    longitude (snd t) = Fin x /\ longitude (snd n) = Fin y
    /\ AstrologicalCalculator.findAmong AstrologicalCalculator.transitAspects
         (Fin (angleQ x y)) (fst t) = Some d
    /\ c = AstrologicalCalculator.mkCrossAspect
             (AstrologicalCalculator.name (AstrologicalCalculator.matched d))
             (toFixed 2 (AstrologicalCalculator.matchOrb d))
             (index1, AstrologicalCalculator.mkSide (fst t) (sign (snd t))
                        (house (snd t)) (longitude (snd t)))
             (index2, AstrologicalCalculator.mkSide (fst n) (sign (snd n))
                        (house (snd n)) (longitude (snd n)))
             (if isTransit
              then Some (AstrologicalCalculator.isTransitApplying (snd t)
                           (snd n)
                           (Fin (AstrologicalCalculator.targetAngle d)))
              else None)
             (if isTransit
              then Some (AstrologicalCalculator.estimatePeakDate (snd t)
                           (snd n)
                           (Fin (AstrologicalCalculator.targetAngle d))
                           transitDate)
              else None).
Proof.
  unfold AstrologicalCalculator.crossAspectOf,
    AstrologicalCalculator.findTransitAspect.
  destruct (longitude (snd t)) as [x|] eqn:Lt.
  - destruct (longitude (snd n)) as [y|] eqn:Ln.
    + rewrite angle_finite.
      destruct (AstrologicalCalculator.findAmong _ _ _) as [d|] eqn:F;
        [|intros []].
      intros [<-|[]]. exists x, y, d.
      repeat split; first [exact F|reflexivity].
    + rewrite angle_NaN_r, AstrologicalCalculator_findAmong_NaN. intros [].
  - rewrite angle_NaN_l, AstrologicalCalculator_findAmong_NaN. intros [].
Qed.

(** X22.  With two different index names, neither of them the name
    of another field of the aspect: every aspect
    [calculateAspectsOfTwoCharts] lists joins a body of the first chart
    to a body of the second, both with a longitude that is a number,
    under the two index names given; it is an aspect of the transit
    catalog, and the orb listed, rounded to two decimals, lies between
    0 and 2 degrees.  [applying] and [peakDate] are set exactly when
    the call is for a transit. *)
Theorem calculateAspectsOfTwoCharts_entries :
  forall (transitPositions natalPositions : dict Position)
         (index1 index2 : string) (isTransit : bool) (transitDate : Date)
         (c : AstrologicalCalculator.CrossAspect),
    index1 <> index2 ->
    ~ In index1 crossAspectFields -> ~ In index2 crossAspectFields ->
    In c (AstrologicalCalculator.calculateAspectsOfTwoCharts transitPositions
            natalPositions index1 index2 isTransit transitDate) ->
    exists t n e x y o,
      In t transitPositions /\ In n natalPositions
      /\ In e (map snd AstrologicalCalculator.transitAspects)
      /\ longitude (snd t) = Fin x /\ longitude (snd n) = Fin y
      /\ AstrologicalCalculator.aspect c = AstrologicalCalculator.name e
      /\ AstrologicalCalculator.orb c = Fin o /\ 0 <= o /\ o <= 2
      /\ AstrologicalCalculator.side1 c
         = (index1,
            AstrologicalCalculator.mkSide (fst t) (sign (snd t))
              (house (snd t)) (Fin x))
      /\ AstrologicalCalculator.side2 c
         = (index2,
            AstrologicalCalculator.mkSide (fst n) (sign (snd n))
              (house (snd n)) (Fin y))
      /\ AstrologicalCalculator.applying c
         = (if isTransit
            then Some (AstrologicalCalculator.isTransitApplying (snd t) (snd n)
                         (Fin (AstrologicalCalculator.angle e)))
            else None)
      /\ AstrologicalCalculator.peakDate c
         = (if isTransit
            then Some (AstrologicalCalculator.estimatePeakDate (snd t) (snd n)
                         (Fin (AstrologicalCalculator.angle e)) transitDate)
            else None).
Proof.
  intros tps nps index1 index2 isTransit transitDate c _ _ _ H.
  unfold AstrologicalCalculator.calculateAspectsOfTwoCharts in H.
  apply in_flat_map in H. destruct H as (t & It & H).
  apply in_flat_map in H. destruct H as (n & In_ & H).
  destruct (crossAspectOf_inv _ _ _ _ _ _ _ H) as (x & y & d & Lt & Ln & F & ->).
  pose proof (AstrologicalCalculator_findAmong_orb (fst t) (angleQ x y)
                AstrologicalCalculator.transitAspects) as S.
  rewrite F in S. destruct S as (I1 & I2 & I3 & I4).
  destruct (AstrologicalCalculator_orb_bounds (fst t)
              (AstrologicalCalculator.name (AstrologicalCalculator.matched d)))
    as [_ B].
  destruct (toFixed2_bounded
              (Qabs (angleQ x y - AstrologicalCalculator.targetAngle d)) 2
              (Qabs_nonneg _))
    as (o & O & O0 & O2).
  { change (inject_Z 2) with 2. lra. }
  exists t, n, (AstrologicalCalculator.matched d), x, y, o.
  cbn [AstrologicalCalculator.aspect AstrologicalCalculator.orb
       AstrologicalCalculator.side1 AstrologicalCalculator.side2
       AstrologicalCalculator.applying AstrologicalCalculator.peakDate].
  rewrite I3, O, Lt, Ln, <- I2.
  change (inject_Z 2) with 2 in O2.
  repeat (split; [first [assumption|reflexivity]|]).
  reflexivity.
Qed.

Lemma calculateAspectsOfTwoCharts_entries_witness :
  match
    hd_error
      (AstrologicalCalculator.calculateAspectsOfTwoCharts sunOver moonAndMars
         "transit" "natal" true (Instant 0))
  with
  | Some c =>
      exists o, AstrologicalCalculator.orb c = Fin o /\ 0 <= o /\ o <= 2
  | None => False
  end.
Proof.
  remember (AstrologicalCalculator.calculateAspectsOfTwoCharts sunOver
              moonAndMars "transit" "natal" true (Instant 0)) as l eqn:E.
  destruct l as [|c rest]; [vm_compute in E; discriminate E|].
  cbn [hd_error].
  destruct (calculateAspectsOfTwoCharts_entries sunOver moonAndMars
              "transit" "natal" true (Instant 0) c)
    as (t & n & e & x & y & o & _ & _ & _ & _ & _ & _ & O & O0 & O2 & _).
  - discriminate.
  - cbn. intuition discriminate.
  - cbn. intuition discriminate.
  - rewrite <- E. left. reflexivity.
  - exists o. repeat split; assumption.
Defined.
